(** * FRECX-NETWORK, package contracts (contracts/utils.go)

    A shallow embedding of the consensus support code of
    [contracts/utils.go]: reward tally and distribution, the M2 shuffle,
    the commit-reveal cipher helpers and the signing / randomize
    transaction builder, followed by the properties proved about them.

    Conventions of the embedding
    - [*big.Int] is [Z]; [big.Int.Div] is Euclidean division, which for a
      positive divisor (the only case the code reaches) is [Z.div].
    - [uint64] and [int64] are [Z] with the wrap-around written out
      ([u64], [i64]).
    - [common.Address] and [common.Hash] are fixed-size byte arrays; an
      address is represented by the number it encodes ([N]), a hash by its
      list of bytes.
    - Go maps are [gmap]s; a missing key reads as the zero value, written
      out with [default].
    - A Go call either returns its value with a nil error ([Ok]), returns
      a non-nil error ([Err]), or panics ([Panic]); loops whose bound is
      not structural carry fuel ([OutOfFuel]).
    - Memory is finite: an allocation the runtime does not grant ends the
      call like a panic ([Heap], [makeslice]). *)

From Stdlib Require Import ZArith Lia List DecimalString Ascii String.
From Stdlib Require DecimalFacts DecimalPos.
From stdpp Require Import base option list gmap fin_maps strings.

Open Scope Z_scope.

(** ** Go values *)

Abbreviation Address := N (only parsing).
Abbreviation byte := Z (only parsing).
Abbreviation Hash := (list Z) (only parsing).

Inductive error : Type :=
| MkError (code : N).

Inductive Res (A : Type) : Type :=
| Ok (a : A)
| Err (e : error)
| Panic
| OutOfFuel.
Arguments Ok {A} a.
Arguments Err {A} e.
Arguments Panic {A}.
Arguments OutOfFuel {A}.

#[global] Instance Res_ret : MRet Res := fun A a => Ok a.

#[global] Instance Res_bind : MBind Res := fun A B k r =>
  match r with
  | Ok a => k a
  | Err e => Err e
  | Panic => Panic
  | OutOfFuel => OutOfFuel
  end.

Definition u64 (z : Z) : Z := z mod 2 ^ 64.

Definition i64 (z : Z) : Z := (z + 2 ^ 63) mod 2 ^ 64 - 2 ^ 63.

(** Slice indexing: out of range panics. *)
Definition index {A} (s : list A) (i : Z) : Res A :=
  if i <? 0 then Panic
  else match s !! Z.to_nat i with
       | Some x => Ok x
       | None => Panic
       end.

Definition assign {A} (s : list A) (i : Z) (x : A) : Res (list A) :=
  if (i <? 0) || (Z.of_nat (length s) <=? i) then Panic
  else Ok (<[Z.to_nat i := x]> s).

(** ** Allocation

    [make([]int64, len)] goes through the runtime's [makeslice], which
    panics (len out of range) on a negative length and on a length whose
    elements, 8 bytes each, take more than [maxAlloc] bytes, the largest
    allocation that is granted: 2^48 bytes in the runtime on 64-bit Linux,
    and never more than the machine has, where the runtime ends the
    program out of memory.  A granted slice holds [len] zeros. *)

Class Heap : Type := {
  maxAlloc : N
}.

Definition makeslice `{Heap} (len : Z) : Res (list Z) :=
  if (len <? 0) || (Z.of_N maxAlloc <? 8 * len) then Panic
  else Ok (replicate (Z.to_nat len) 0).

(** ** Stateful calls

    A call that reads and writes a store [S] of collaborators' state: the
    store is kept also when the call fails or panics. *)

Definition M (S A : Type) : Type := S -> Res A * S.

#[global] Instance M_ret {S} : MRet (M S) := fun A a s => (Ok a, s).

#[global] Instance M_bind {S} : MBind (M S) := fun A B k m s =>
  match m s with
  | (Ok a, s') => k a s'
  | (Err e, s') => (Err e, s')
  | (Panic, s') => (Panic, s')
  | (OutOfFuel, s') => (OutOfFuel, s')
  end.

Definition returnErr {S A} (e : error) : M S A := fun s => (Err e, s).
Definition panic {S A} : M S A := fun s => (Panic, s).
Definition outOfFuel {S A} : M S A := fun s => (OutOfFuel, s).
Definition liftRes {S A} (r : Res A) : M S A := fun s => (r, s).

(** A [for ... range] loop over a slice, threading an accumulator. *)
Fixpoint foldlM {S A B} (f : B -> A -> M S B) (b : B) (l : list A) : M S B :=
  match l with
  | [] => mret b
  | a :: l' => b' ← f b a; foldlM f b' l'
  end.

(** Dereferencing a pointer: nil panics. *)
Definition deref {S A} (p : option A) : M S A :=
  match p with
  | Some a => mret a
  | None => panic
  end.

(** ** Byte helpers of package [common] and of the Go library *)

(** Modelled from the spec: [common.LeftPadBytes], of a package that is
    not part of this development's sources; it left-pads a slice with
    zeros up to the given length and returns longer slices unchanged. *)
Definition LeftPadBytes (slice : list byte) (l : nat) : list byte :=
  if (l <=? length slice)%nat then slice
  else replicate (l - length slice) 0 ++ slice.

(** Modelled from the spec: [common.BytesToHash] keeps the trailing 32
    bytes of a longer slice and right-aligns a shorter one. *)
Definition BytesToHash (b : list byte) : list byte :=
  LeftPadBytes (drop (length b - 32) b) 32.

(** [big.Int.Bytes]: the big-endian bytes of the absolute value, none for
    zero. *)
Definition bigBytes (z : Z) : list byte :=
  let a := Z.abs z in
  if a =? 0 then []
  else (fun k => (a / 2 ^ (8 * Z.of_nat k)) mod 256)
         <$> rev (seq 0 (Z.to_nat (Z.log2 a / 8 + 1))).

Definition bytesOfString (s : string) : list byte :=
  (fun a => Z.of_N (N_of_ascii a)) <$> list_ascii_of_string s.

(** [big.Int.String]: decimal digits, with a sign for negative numbers. *)
Definition bigString (z : Z) : list byte :=
  bytesOfString (NilZero.string_of_int (Z.to_int z)).

(** ** Constants of package [common] *)

Module common.

(** Modelled from the spec: the constants [RewardMasterPercent],
    [RewardSyncPercent] and [RewardVoterPercent]; package [common] is not
    part of this development's sources, and the values are the ones the
    comments of [GetRewardBalancesRate] and the specification give (50,
    40, and a voter share that is always zero). *)
Definition RewardMasterPercent : Z := 50.
Definition RewardSyncPercent : Z := 40.
Definition RewardVoterPercent : Z := 0.

(** The remaining constants of the package have no documented value and
    are carried as a record: [TIP2019Block] is the value of
    [common.TIP2019Block.Uint64 ()]. *)
Record Constants : Type := mkConstants {
  RewardFoundationPercent : Z;
  TIP2019Block : Z;
  MergeSignRange : Z;
  EpocBlockSecret : Z;
  EpocBlockOpening : Z;
  EpocBlockRandomize : Z
}.

End common.

(** ** The pseudo-random generator of math/rand

    The package keeps one global generator.  [rand.Seed] replaces its state
    by a function of the seed alone; [rand.Intn] panics on a bound that is
    not positive and otherwise returns a draw and steps the generator.  The
    generator algorithm belongs to the Go library and is an interface
    here. *)

Class RandSource (G : Type) : Type := {
  seedState : Z -> G;
  draw : G -> Z -> Z * G
}.

Class RandSourceOk (G : Type) `{RandSource G} : Prop := {
  draw_range : forall (g : G) (n : Z), 0 < n -> 0 <= (draw g n).1 < n
}.

Definition Intn {G} `{RandSource G} (g : G) (n : Z) : Res (Z * G) :=
  if n <=? 0 then Panic else Ok (draw g n).

(** ** Commit-reveal cipher helpers

    The AES block function, the base64 URL alphabet codec and the reader of
    crypto/rand are the Go library's.  [aes.NewCipher] accepts keys of 16,
    24 or 32 bytes; [DecodeString] returns the bytes decoded so far and an
    error; the CFB stream is written out below as the library documents
    it. *)

Class CryptoLib : Type := {
  aesEncryptBlock : list byte -> list byte -> list byte;
  EncodeToString : list byte -> list byte;
  DecodeString : list byte -> list byte * option error
}.

Definition isByte (z : Z) : Prop := 0 <= z < 256.

Class CryptoLibOk `{CryptoLib} : Prop := {
  aesEncryptBlock_bytes : forall key blk : list byte,
    Forall isByte (aesEncryptBlock key blk);
  decode_encode : forall bs : list byte,
    Forall isByte bs -> DecodeString (EncodeToString bs) = (bs, None)
}.

Definition BlockSize : nat := 16.

Definition NewCipher `{CryptoLib} (key : list byte)
  : option (list byte -> list byte) :=
  let n := length key in
  if (n =? 16)%nat || (n =? 24)%nat || (n =? 32)%nat
  then Some (aesEncryptBlock key) else None.

(** [io.ReadFull]: exactly [n] bytes or an error; [reader] is what the
    source still delivers. *)
Definition ReadFull (reader : list byte) (n : nat) : option (list byte) :=
  if (length reader <? n)%nat then None else Some (take n reader).

(** The CFB stream, byte by byte: [out] is the current key-stream block,
    [outUsed] the bytes of it already consumed, [next] the feedback
    register, which collects cipher text. *)
Fixpoint XORKeyStream (block : list byte -> list byte) (decrypt : bool)
    (out next : list byte) (outUsed : nat) (src : list byte) : list byte :=
  match src with
  | [] => []
  | s :: src' =>
    let '(out, outUsed) :=
      if (outUsed =? BlockSize)%nat then (block next, O) else (out, outUsed) in
    let d := Z.lxor s (default 0 (out !! outUsed)) in
    let next := <[outUsed := if decrypt then s else d]> next in
    d :: XORKeyStream block decrypt out next (S outUsed) src'
  end.

Definition NewCFB (block : list byte -> list byte) (decrypt : bool)
    (iv src : list byte) : list byte :=
  XORKeyStream block decrypt (replicate BlockSize 0) iv BlockSize src.

(** [Encrypt]: the empty string signals failure. *)
Definition Encrypt `{CryptoLib} (reader : list byte) (key text : list byte)
  : list byte :=
  let plaintext := text in
  match NewCipher key with
  | None => []
  | Some block =>
    match ReadFull reader BlockSize with
    | None => []
    | Some iv =>
      let ciphertext := iv ++ NewCFB block false iv plaintext in
      EncodeToString ciphertext
    end
  end.

Definition Decrypt `{CryptoLib} (key cryptoText : list byte) : list byte :=
  let '(ciphertext, _) := DecodeString cryptoText in
  match NewCipher key with
  | None => []
  | Some block =>
    if (length ciphertext <? BlockSize)%nat then []
    else
      let iv := take BlockSize ciphertext in
      let ciphertext := drop BlockSize ciphertext in
      NewCFB block true iv ciphertext
  end.

(** The base64 alphabet as far as the randomize secrets depend on it: the
    padded encoding makes four characters of every three bytes, and no
    character is a zero byte. *)
Class Base64Ok `{CryptoLib} : Prop := {
  encode_length : forall bs : list byte,
    length (EncodeToString bs) = (4 * ((length bs + 2) / 3))%nat;
  encode_nonzero : forall bs : list byte,
    Forall isByte bs -> Forall (fun c => c <> 0) (EncodeToString bs)
}.

(** ** Decimal numbers (strconv, fmt) and the randomize secrets *)

Definition errSyntax : error := MkError 1.
Definition errRange : error := MkError 2.

(** The value of a string of decimal digits, read from the left. *)
Fixpoint digitsValue (acc : Z) (s : list byte) : option Z :=
  match s with
  | [] => Some acc
  | c :: s' =>
    if (48 <=? c) && (c <=? 57) then digitsValue (acc * 10 + (c - 48)) s'
    else None
  end.

(** [strconv.Atoi]: an optional sign and one or more decimal digits;
    anything else is a syntax error, and a value that does not fit an int
    (64 bits) a range error. *)
Definition Atoi (s : list byte) : Res Z :=
  let '(neg, digits) :=
    match s with
    | c :: s' =>
      if c =? 43 then (false, s')
      else if c =? 45 then (true, s')
      else (false, s)
    | [] => (false, s)
    end in
  match digits with
  | [] => Err errSyntax
  | _ :: _ =>
    match digitsValue 0 digits with
    | None => Err errSyntax
    | Some v =>
      let v := if neg : bool then - v else v in
      if (v <? - 2 ^ 63) || (2 ^ 63 <=? v) then Err errRange else Ok v
    end
  end.

Definition isInt (strNumber : list byte) : bool :=
  match Atoi strNumber with
  | Ok _ => true
  | _ => false
  end.

(** [fmt.Sprintf ("%d", n)]: the decimal digits, with a sign for a negative
    number. *)
Definition Sprintf_d (n : Z) : list byte := bigString n.

(** [bytes.TrimLeft]: drop the leading bytes that belong to [cutset]. *)
Fixpoint TrimLeft (s cutset : list byte) : list byte :=
  match s with
  | [] => []
  | c :: s' => if bool_decide (c ∈ cutset) then TrimLeft s' cutset else s
  end.

(** One round of the loop of [DecryptRandomizeFromSecretsAndOpening]; the
    value returned next to an error of [strconv.Atoi] is -1. *)
Definition decryptRound `{CryptoLib} (opening : list byte) (random : Z)
    (secret : list byte) : Res Z :=
  let trimSecret := TrimLeft secret [0] in
  let decryptSecret := Decrypt opening trimSecret in
  if isInt decryptSecret then
    intNumber ← Atoi decryptSecret;
    mret (i64 intNumber)
  else mret random.

Fixpoint decryptRounds `{CryptoLib} (opening : list byte) (random : Z)
    (secrets : list (list byte)) : Res Z :=
  match secrets with
  | [] => mret random
  | secret :: secrets' =>
    random ← decryptRound opening random secret;
    decryptRounds opening random secrets'
  end.

Definition DecryptRandomizeFromSecretsAndOpening `{CryptoLib}
    (secrets : list (list byte)) (opening : list byte) : Res Z :=
  let random := 0 in
  if (0 <? length secrets)%nat then decryptRounds opening random secrets
  else mret random.

(** The number a secret reveals under an opening, if it reveals one. *)
Definition revealed `{CryptoLib} (opening secret : list byte) : option Z :=
  match Atoi (Decrypt opening (TrimLeft secret [0])) with
  | Ok n => Some n
  | _ => None
  end.

(** [BuildValidatorFromM2]: [M2ByteLength] is the constant
    [utils.M2ByteLength] of the consensus package. *)
Definition BuildValidatorFromM2 (M2ByteLength : nat) (listM2 : list Z)
  : list byte :=
  fold_left
    (fun validatorBytes numberM2 =>
       let m2Byte := LeftPadBytes (Sprintf_d numberM2) M2ByteLength in
       validatorBytes ++ m2Byte)
    listM2 [].

(** ** The M2 shuffle *)

Fixpoint fillSlice (n : nat) (start step : Z) : list Z :=
  match n with
  | O => []
  | S n' => start :: fillSlice n' (i64 (start + step)) step
  end.

(** [NewSlice]: the slice is made with [end - start] elements, an int64
    difference, and filled by [for i := range s]. *)
Definition NewSlice `{Heap} (start end_ step : Z) : Res (list Z) :=
  s ← makeslice (i64 (end_ - start));
  Ok (fillSlice (length s) start step).

Definition sumRandomizes (randomizes : list Z) : Z :=
  fold_left (fun total j => i64 (total + j)) randomizes 0.

(** The loop [for i := len(blockValidator) - 1; i >= 0; i--]; the argument
    [k] is [i + 1], so that [k = 0] is the exit. *)
Fixpoint shuffleLoop {G} `{RandSource G} (k : nat) (g : G)
    (blockValidator randIndexs : list Z) : Res (list Z * G) :=
  match k with
  | O => Ok (randIndexs, g)
  | S k' =>
    let i := Z.of_nat k' in
    let blockLength := Z.of_nat (length blockValidator) - 1 in
    let blockLength := if blockLength <=? 1 then 1 else blockLength in
    '(randomIndex, g) ← Intn g blockLength;
    temp ← index blockValidator randomIndex;
    bvi ← index blockValidator i;
    blockValidator ← assign blockValidator randomIndex bvi;
    blockValidator ← assign blockValidator i temp;
    let blockValidator := take k' blockValidator ++ drop (S k') blockValidator in
    randIndexs ← assign randIndexs i temp;
    shuffleLoop k' g blockValidator randIndexs
  end.

(** [GenM2FromRandomize] on the global generator [g]: the result and the
    generator it leaves behind. *)
Definition GenM2FromRandomize {G} `{RandSource G} `{Heap} (g : G)
    (randomizes : list Z) (lenSigners : Z) : Res (list Z * G) :=
  blockValidator ← NewSlice 0 lenSigners 1;
  randIndexs ← makeslice lenSigners;
  let total := sumRandomizes randomizes in
  let g := seedState total in
  shuffleLoop (length blockValidator) g blockValidator randIndexs.

(** ** Reward records *)

Record rewardLog : Type := mkRewardLog {
  Sign : Z;
  Reward : Z
}.

(** [CalculateRewardForSigner]: the loop over [signers] writes one entry of
    [resultSigners] per signer and stores the same amount in the signer's
    shared [rewardLog], so the function returns both maps.  [json.Marshal] of
    a map from addresses to structs of integers has no failing case. *)
Definition calcReward (chainReward totalSigner : Z) (rLog : rewardLog) : Z :=
  chainReward / totalSigner * Sign rLog.

Definition rewardStep (chainReward totalSigner : Z) (signer : Address)
    (rLog : rewardLog) (acc : gmap Address Z * gmap Address rewardLog)
  : gmap Address Z * gmap Address rewardLog :=
  let '(resultSigners, logs) := acc in
  let c := calcReward chainReward totalSigner rLog in
  (<[signer := c]> resultSigners,
   <[signer := mkRewardLog (Sign rLog) c]> logs).

Definition CalculateRewardForSigner (chainReward : Z)
    (signers : gmap Address rewardLog) (totalSigner : Z)
  : Res (gmap Address Z) * gmap Address rewardLog :=
  let '(resultSigners, signers') :=
    if 0 <? totalSigner then
      map_fold (rewardStep chainReward totalSigner) (∅, signers) signers
    else (∅, signers) in
  (Ok resultSigners, signers').

(** ** State accessors (package core/state) *)

Record StateDB : Type := mkStateDB {
  GetCandidateOwner : Address -> Address;
  GetCandidateCap : Address -> Z;
  GetVoters : Address -> list Address;
  GetVoterCap : Address -> Address -> Z
}.

Definition GetCandidatesOwnerBySigner (state : StateDB) (signerAddr : Address)
  : Address :=
  GetCandidateOwner state signerAddr.

(** ** Reward distribution *)

Definition targetValue : Z := 50000000000000000000000.

(** First loop of the voter branch: collect the voters' capacities; after
    the TIP2019 block an address already collected is skipped. *)
Definition collectVoterCaps (cs : common.Constants) (state : StateDB)
    (masterAddr : Address) (blockNumber : Z) (voters : list Address)
  : Z * gmap Address Z :=
  fold_left
    (fun '(totalCap, voterCaps) voteAddr =>
       if bool_decide (is_Some (voterCaps !! voteAddr))
          && (common.TIP2019Block cs <=? blockNumber)
       then (totalCap, voterCaps)
       else
         let voterCap := GetVoterCap state masterAddr voteAddr in
         (totalCap + voterCap, <[voteAddr := voterCap]> voterCaps))
    voters (0, ∅).

(** Second loop of the voter branch: pay every voter of positive capacity
    its share, adding to an entry the address already has. *)
Definition payVoters (totalVoterReward totalCap : Z)
    (voterCaps : gmap Address Z) (balances : gmap Address Z)
  : gmap Address Z :=
  map_fold
    (fun addr voteCap balances =>
       if 0 <? voteCap then
         let rcap := totalVoterReward * voteCap / totalCap in
         match balances !! addr with
         | Some b => <[addr := b + rcap]> balances
         | None => <[addr := rcap]> balances
         end
       else balances)
    balances voterCaps.

(** [GetRewardBalancesRate]: the owner of the masternode is looked up (and
    printed), the tier share is written under [masterAddr], the voters'
    shares are added, and the foundation share is written last.  Printing
    and logging are left out; [json.Marshal] of the balances has no failing
    case. *)
Definition GetRewardBalancesRate (cs : common.Constants)
    (foundationWalletAddr : Address) (state : StateDB) (masterAddr : Address)
    (totalReward : Z) (blockNumber : Z) : Res (gmap Address Z) :=
  let owner := GetCandidatesOwnerBySigner state masterAddr in
  let stakeCap := GetCandidateCap state masterAddr in
  let balances : gmap Address Z := ∅ in
  let rewardPercent :=
    if stakeCap =? targetValue then common.RewardMasterPercent
    else common.RewardSyncPercent in
  let reward := totalReward * i64 rewardPercent / 100 in
  let balances := <[masterAddr := reward]> balances in
  let voters := GetVoters state masterAddr in
  let balances :=
    if (0 <? Z.of_nat (length voters))%Z then
      let totalVoterReward := totalReward * common.RewardVoterPercent / 100 in
      let '(totalCap, voterCaps) :=
        collectVoterCaps cs state masterAddr blockNumber voters in
      if 0 <? totalCap then payVoters totalVoterReward totalCap voterCaps balances
      else balances
    else balances in
  let foundationReward :=
    totalReward * common.RewardFoundationPercent cs / 100 in
  let balances := <[foundationWalletAddr := foundationReward]> balances in
  Ok balances.

Definition CalculateRewardForHolders (cs : common.Constants)
    (foundationWalletAddr : Address) (state : StateDB) (signer : Address)
    (calcReward : Z) (blockNumber : Z) : Res (gmap Address Z) :=
  GetRewardBalancesRate cs foundationWalletAddr state signer calcReward
    blockNumber.

(** ** Transactions, wallets, pool and local store *)

Record Transaction : Type := mkTransaction {
  txNonce : Z;
  txTo : Address;
  txAmount : Z;
  txGasLimit : Z;
  txGasPrice : Z;
  txData : list byte;
  txFrom : option Address
}.

Definition NewTransaction (nonce : Z) (to : Address) (amount gasLimit gasPrice : Z)
    (data : list byte) : Transaction :=
  mkTransaction nonce to amount gasLimit gasPrice data None.

(** The well-known addresses and method selectors of package [common],
    already decoded from their hexadecimal form. *)
Record Registry : Type := mkRegistry {
  BlockSigners : Address;
  RandomizeSMC : Address;
  HexSignMethod : list byte;
  HexSetSecret : list byte;
  HexSetOpening : list byte
}.

Record Wallet : Type := mkWallet {
  Accounts : list Address;
  SignTx : Address -> Transaction -> Z -> error + Transaction
}.

Record Manager : Type := mkManager {
  Wallets : list Wallet;
  Find : Address -> option Wallet
}.

Record S2PoSConfig : Type := mkS2PoSConfig {
  Epoch : Z
}.

Record ChainConfig : Type := mkChainConfig {
  ChainId : Z;
  S2PoS : option S2PoSConfig;
  IsTIPSigning : Z -> bool;
  IsTIP2019 : Z -> bool
}.

Record Block : Type := mkBlock {
  BlockNumber : Z;
  BlockHash : Hash;
  Transactions : list Transaction
}.

(** The transaction pool, over its state [P]. *)
Class TxPool (P : Type) : Type := {
  GetNonce : P -> Address -> Z;
  AddLocal : P -> Transaction -> P * option error
}.

Inductive TxKind : Type := SignKind | SecretKind | OpeningKind.

#[global] Instance TxKind_eq_dec : EqDecision TxKind.
Proof. solve_decision. Defined.

(** The calls made to the wallet and to the pool, in order: the record the
    properties of [CreateTransactionSign] are stated on. *)
Inductive Event : Type :=
| EvGetNonce (account : Address) (nonce : Z)
| EvSignTx (kind : TxKind) (tx : Transaction) (failed : option error)
| EvAddLocal (kind : TxKind) (tx : Transaction) (failed : option error).

(** What a call of [CreateTransactionSign] works on: the pool, the local
    key-value store, the global generator of math/rand, the clock, the
    reader of crypto/rand, and the record of calls. *)
Record World (P G : Type) : Type := mkWorld {
  pool : P;
  chainDb : gmap string (list byte);
  rng : G;
  clock : nat -> Z;
  ticks : nat;
  cryptoReader : list byte;
  calls : list Event
}.
Arguments mkWorld {P G}.
Arguments pool {P G}.
Arguments chainDb {P G}.
Arguments rng {P G}.
Arguments clock {P G}.
Arguments ticks {P G}.
Arguments cryptoReader {P G}.
Arguments calls {P G}.

Section TransactionSign.
Context {P G : Type} `{TxPool P} `{RandSource G} `{CryptoLib}.

Definition record (ev : Event) : M (World P G) unit := fun w =>
  (Ok tt, mkWorld (pool w) (chainDb w) (rng w) (clock w) (ticks w)
            (cryptoReader w) (calls w ++ [ev])).

Definition setPool (p : P) : M (World P G) unit := fun w =>
  (Ok tt, mkWorld p (chainDb w) (rng w) (clock w) (ticks w) (cryptoReader w)
            (calls w)).

(** [pool.State().GetNonce(account.Address)] *)
Definition poolGetNonce (account : Address) : M (World P G) Z := fun w =>
  let nonce := GetNonce (pool w) account in
  (_ ← record (EvGetNonce account nonce); mret nonce) w.

(** [pool.AddLocal(txSigned)]: the error, if any, is the value. *)
Definition poolAddLocal (kind : TxKind) (tx : Transaction)
  : M (World P G) (option error) := fun w =>
  let '(p, err) := AddLocal (pool w) tx in
  (_ ← setPool p; _ ← record (EvAddLocal kind tx err); mret err) w.

(** [wallet.SignTx(account, tx, chainID)]: a nil wallet panics, an error is
    returned to the caller. *)
Definition walletSignTx (kind : TxKind) (wallet : option Wallet)
    (account : Address) (tx : Transaction) (chainID : Z)
  : M (World P G) Transaction :=
  w ← deref wallet;
  match SignTx w account tx chainID with
  | inl err => _ ← record (EvSignTx kind tx (Some err)); returnErr err
  | inr txSigned => _ ← record (EvSignTx kind tx None); mret txSigned
  end.

(** The local store: [Has], [Get], [Put], [Delete]. *)
Definition dbHas (key : string) : M (World P G) bool := fun w =>
  (Ok (bool_decide (is_Some (chainDb w !! key))), w).

Definition dbGet (key : string) : M (World P G) (list byte) := fun w =>
  match chainDb w !! key with
  | Some v => (Ok v, w)
  | None => (Err (MkError 404), w)
  end.

Definition dbPut (key : string) (value : list byte) : M (World P G) unit :=
  fun w =>
  (Ok tt, mkWorld (pool w) (<[key := value]> (chainDb w)) (rng w) (clock w)
            (ticks w) (cryptoReader w) (calls w)).

Definition dbDelete (key : string) : M (World P G) unit := fun w =>
  (Ok tt, mkWorld (pool w) (delete key (chainDb w)) (rng w) (clock w)
            (ticks w) (cryptoReader w) (calls w)).

(** [rand.Seed(time.Now().UnixNano())] *)
Definition seedFromClock : M (World P G) unit := fun w =>
  (Ok tt, mkWorld (pool w) (chainDb w) (seedState (clock w (ticks w))) (clock w)
            (S (ticks w)) (cryptoReader w) (calls w)).

(** [rand.Intn(n)] on the global generator. *)
Definition randIntn (n : Z) : M (World P G) Z := fun w =>
  match Intn (rng w) n with
  | Ok (r, g) =>
    (Ok r, mkWorld (pool w) (chainDb w) g (clock w) (ticks w) (cryptoReader w)
             (calls w))
  | Err e => (Err e, w)
  | Panic => (Panic, w)
  | OutOfFuel => (OutOfFuel, w)
  end.

(** [Encrypt] reading its initialization vector from the world's
    crypto/rand reader. *)
Definition encryptM (key text : list byte) : M (World P G) (list byte) :=
  fun w =>
  (Ok (Encrypt (cryptoReader w) key text),
   mkWorld (pool w) (chainDb w) (rng w) (clock w) (ticks w)
     (match NewCipher key with
      | Some _ => drop BlockSize (cryptoReader w)
      | None => cryptoReader w
      end) (calls w)).

Definition letterBytes : list byte :=
  bytesOfString "abcdefghijklmnopqrstuvwxyzABCDEFGHIJKLMNOPQRSTUVWXYZ123456789".

Fixpoint RandStringByte (n : nat) : M (World P G) (list byte) :=
  match n with
  | O => mret []
  | S n' =>
    _ ← seedFromClock;
    r ← randIntn (Z.of_nat (length letterBytes));
    c ← liftRes (index letterBytes r);
    rest ← RandStringByte n';
    mret (c :: rest)
  end.

(** [Shuffle]: the rounds [for i := 0; i < len(slice)-1; i++] on the copy
    [newSlice]; [k] is the number of rounds left. *)
Fixpoint shuffleRounds (k : nat) (i : Z) (newSlice : list Z)
  : M (World P G) (list Z) :=
  match k with
  | O => mret newSlice
  | S k' =>
    _ ← seedFromClock;
    randIndex ← randIntn (Z.of_nat (length newSlice));
    x ← liftRes (index newSlice i);
    y ← liftRes (index newSlice randIndex);
    newSlice ← liftRes (assign newSlice i y);
    newSlice ← liftRes (assign newSlice randIndex x);
    shuffleRounds k' (i + 1) newSlice
  end.

Definition Shuffle (slice : list Z) : M (World P G) (list Z) :=
  let newSlice := slice in
  shuffleRounds (length slice - 1) 0 newSlice.

Definition CreateTxSign (reg : Registry) (blockNumber : Z) (blockHash : Hash)
    (nonce : Z) (blockSigner : Address) : Transaction :=
  let data := HexSignMethod reg in
  let inputData := data ++ LeftPadBytes (bigBytes blockNumber) 32 in
  let inputData := inputData ++ LeftPadBytes blockHash 32 in
  NewTransaction nonce blockSigner 0 200000 0 inputData.

Definition BuildTxSecretRandomize (reg : Registry) (nonce : Z)
    (randomizeAddr : Address) (epocNumber : Z) (randomizeKey : list byte)
  : M (World P G) Transaction :=
  let data := HexSetSecret reg in
  _ ← seedFromClock;
  secretNumb ← randIntn (i64 epocNumber);
  let secrets := [i64 secretNumb] in
  let sizeOfArray := 32 in
  let arrSizeOfSecrets := LeftPadBytes (bigBytes sizeOfArray) 32 in
  let arrLengthOfSecrets :=
    LeftPadBytes (bigBytes (Z.of_nat (length secrets))) 32 in
  let inputData := data ++ arrSizeOfSecrets in
  let inputData := inputData ++ arrLengthOfSecrets in
  inputData ←
    foldlM (fun inputData secret =>
              encryptSecret ← encryptM randomizeKey (bigString secret);
              mret (inputData ++ LeftPadBytes encryptSecret (Z.to_nat sizeOfArray)))
           inputData secrets;
  mret (NewTransaction nonce randomizeAddr 0 200000 0 inputData).

Definition BuildTxOpeningRandomize (reg : Registry) (nonce : Z)
    (randomizeAddr : Address) (randomizeKey : list byte)
  : M (World P G) Transaction :=
  let data := HexSetOpening reg in
  let inputData := data ++ randomizeKey in
  mret (NewTransaction nonce randomizeAddr 0 200000 0 inputData).

(** The active account: the etherbase account when the manager finds a
    wallet for it, else the first account of the first wallet; with no
    wallet at all the wallet stays nil and the account is the zero
    account. *)
Definition findAccount (manager : Manager) (eb : Address)
  : option Wallet * Address :=
  match Wallets manager with
  | [] => (None, 0%N)
  | w0 :: _ =>
    match Find manager eb with
    | Some w => (Some w, eb)
    | None =>
      (Some w0, match Accounts w0 with
                | a :: _ => a
                | [] => 0%N
                end)
    end
  end.

(** The retry loop [for retryCount := 1; ; retryCount++]. *)
Fixpoint signLoop (fuel : nat) (reg : Registry) (chainConfig : ChainConfig)
    (wallet : option Wallet) (account : Address) (block : Block)
    (retryCount nonce : Z) : M (World P G) unit :=
  match fuel with
  | O => outOfFuel
  | S fuel' =>
    let tx := CreateTxSign reg (BlockNumber block) (BlockHash block) nonce
                (BlockSigners reg) in
    txSigned ← walletSignTx SignKind wallet account tx (ChainId chainConfig);
    err ← poolAddLocal SignKind txSigned;
    match err with
    | None => mret tt
    | Some err =>
      newNonce ← poolGetNonce account;
      if 10 <=? retryCount then returnErr err
      else signLoop fuel' reg chainConfig wallet account block
             (retryCount + 1) newNonce
    end
  end.

Definition randomizeKeyName : string := "randomizeKey".

(** The remainder of two uint64: a zero divisor panics. *)
Definition umod (a b : Z) : M (World P G) Z :=
  if b =? 0 then panic else mret (a mod b).

Definition secretBranch (cs : common.Constants) (exist : bool) (checkNumber : Z)
  : bool :=
  negb exist && (0 <? checkNumber)
  && (common.EpocBlockSecret cs <=? checkNumber)
  && (checkNumber <? common.EpocBlockOpening cs).

Definition openingBranch (cs : common.Constants) (exist : bool) (checkNumber : Z)
  : bool :=
  exist && (0 <? checkNumber)
  && (common.EpocBlockOpening cs <=? checkNumber)
  && (checkNumber <=? common.EpocBlockRandomize cs).

(** The body of the first conditional: commit a secret. *)
Definition setSecret (reg : Registry) (chainConfig : ChainConfig)
    (s2pos : S2PoSConfig) (wallet : option Wallet) (account : Address)
  : M (World P G) unit :=
  randomizeKeyValue ← RandStringByte 32;
  nonce ← poolGetNonce account;
  tx ← BuildTxSecretRandomize reg nonce (RandomizeSMC reg) (Epoch s2pos)
         randomizeKeyValue;
  txSigned ← walletSignTx SecretKind wallet account tx (ChainId chainConfig);
  err ← poolAddLocal SecretKind txSigned;
  match err with
  | Some err => returnErr err
  | None => dbPut randomizeKeyName randomizeKeyValue
  end.

(** The body of the second conditional: reveal the opening. *)
Definition setOpening (reg : Registry) (chainConfig : ChainConfig)
    (wallet : option Wallet) (account : Address) : M (World P G) unit :=
  randomizeKeyValue ← dbGet randomizeKeyName;
  nonce ← poolGetNonce account;
  tx ← BuildTxOpeningRandomize reg nonce (RandomizeSMC reg) randomizeKeyValue;
  txSigned ← walletSignTx OpeningKind wallet account tx (ChainId chainConfig);
  err ← poolAddLocal OpeningKind txSigned;
  match err with
  | Some err => returnErr err
  | None => dbDelete randomizeKeyName
  end.

Definition CreateTransactionSign (fuel : nat) (cs : common.Constants)
    (reg : Registry) (chainConfig : ChainConfig) (manager : Manager)
    (block : Block) (eb : Address) : M (World P G) unit :=
  match S2PoS chainConfig with
  | None => mret tt
  | Some s2pos =>
    let '(wallet, account) := findAccount manager eb in
    nonce ← poolGetNonce account;
    _ ← signLoop fuel reg chainConfig wallet account block 1 nonce;
    let blockNumber := u64 (Z.abs (BlockNumber block)) in
    checkNumber ← umod blockNumber (Epoch s2pos);
    exist ← dbHas randomizeKeyName;
    _ ← (if secretBranch cs exist checkNumber
         then setSecret reg chainConfig s2pos wallet account
         else mret tt);
    if openingBranch cs exist checkNumber
    then setOpening reg chainConfig wallet account
    else mret tt
  end.

End TransactionSign.

(** ** Checkpoint rewards

    Headers, the chain reader and the engine's cache of signing
    transactions.  [HeaderHash] is the value of [header.Hash ()]; the
    receipts [R] and the cache [C] belong to other packages and are kept
    abstract, as is the decoding of the masternode list of a checkpoint
    header, which returns a slice or panics ([None]). *)

Record Header : Type := mkHeader {
  Number : Z;
  ParentHash : Hash;
  HeaderHash : Hash;
  Extra : list byte
}.

Record ChainReader (R : Type) : Type := mkChainReader {
  GetHeader : Hash -> Z -> option Header;
  GetBlock : Hash -> Z -> option Block;
  Config : ChainConfig;
  GetBlockReceipts : Hash -> Z -> R
}.
Arguments mkChainReader {R}.
Arguments GetHeader {R}.
Arguments GetBlock {R}.
Arguments Config {R}.
Arguments GetBlockReceipts {R}.

Class Engine (C R : Type) : Type := {
  GetCachedSigningTxs : C -> Hash -> option (list Transaction);
  CacheSigningTxs : C -> Hash -> list Transaction -> C * list Transaction;
  CacheNoneTIPSigningTxs :
    C -> Header -> list Transaction -> R -> C * list Transaction;
  GetMasternodesFromCheckpointHeader : Header -> option (list Address)
}.

(** The engine's cache and the counter behind the [totalSigner] pointer. *)
Record RewardState (C : Type) : Type := mkRewardState {
  engine : C;
  totalSigner : Z
}.
Arguments mkRewardState {C}.
Arguments engine {C}.
Arguments totalSigner {C}.

(** The state of the walk-back loop. *)
Record WalkState : Type := mkWalkState {
  wHeader : Header;
  wMapBlkHash : gmap Z Hash;
  wData : gmap Hash (list Address)
}.

Definition zeroHash : Hash := replicate 32 0.

Section Checkpoint.
Context {C R : Type} `{Engine C R}.

Definition getCached (hash : Hash)
  : M (RewardState C) (option (list Transaction)) := fun st =>
  (Ok (GetCachedSigningTxs (engine st) hash), st).

Definition cacheSigning (hash : Hash) (txs : list Transaction)
  : M (RewardState C) (list Transaction) := fun st =>
  let '(c, signData) := CacheSigningTxs (engine st) hash txs in
  (Ok signData, mkRewardState c (totalSigner st)).

Definition cacheNoneTIPSigning (header : Header) (txs : list Transaction)
    (receipts : R) : M (RewardState C) (list Transaction) := fun st =>
  let '(c, signData) := CacheNoneTIPSigningTxs (engine st) header txs receipts in
  (Ok signData, mkRewardState c (totalSigner st)).

(** The body of the loop over the signing transactions of a block: the
    trailing 32 bytes of the payload name the block signed. *)
Definition collectSigner (data : gmap Hash (list Address)) (tx : Transaction)
  : M (RewardState C) (gmap Hash (list Address)) :=
  let d := txData tx in
  if (length d <? 32)%nat then panic
  else
    let blkHash := BytesToHash (drop (length d - 32) d) in
    from ← deref (txFrom tx);
    mret (<[blkHash := default [] (data !! blkHash) ++ [from]]> data).

(** One round of the walk-back loop, at block number [i].  A nil header or
    block is dereferenced before anything else is written, so the round
    panics at the lookup. *)
Definition walkStep (chain : ChainReader R) (i : Z) (ws : WalkState)
  : M (RewardState C) WalkState :=
  header ← deref (GetHeader chain (ParentHash (wHeader ws)) i);
  let mapBlkHash := <[i := HeaderHash header]> (wMapBlkHash ws) in
  cached ← getCached (HeaderHash header);
  txs ← match cached with
        | Some signData => mret signData
        | None =>
          block ← deref (GetBlock chain (HeaderHash header) i);
          let txs := Transactions block in
          if negb (IsTIPSigning (Config chain) (Number header)) then
            let receipts := GetBlockReceipts chain (HeaderHash header) i in
            cacheNoneTIPSigning header txs receipts
          else cacheSigning (HeaderHash header) txs
        end;
  data ← foldlM collectSigner (wData ws) txs;
  mret (mkWalkState header mapBlkHash data).

(** [for i := ...; i >= startBlockNumber; i--] *)
Fixpoint walkBack (fuel : nat) (chain : ChainReader R)
    (i startBlockNumber : Z) (ws : WalkState) : M (RewardState C) WalkState :=
  if startBlockNumber <=? i then
    match fuel with
    | O => outOfFuel
    | S fuel' =>
      ws' ← walkStep chain i ws;
      walkBack fuel' chain (u64 (i - 1)) startBlockNumber ws'
    end
  else mret ws.

(** The masternodes among the signers of a block, without duplicates. *)
Definition filterSigners (masternodes addrs : list Address) : gset Address :=
  foldl (fun addrSigners masternode =>
           if existsb (fun addr => bool_decide (addr = masternode)) addrs
           then {[masternode]} ∪ addrSigners
           else addrSigners)
        ∅ masternodes.

(** One round of the loop over [addrSigners]. *)
Definition creditSigner (addr : Address)
    (acc : gmap Address rewardLog * Z) : gmap Address rewardLog * Z :=
  let '(signers, total) := acc in
  (match signers !! addr with
   | Some rLog =>
     <[addr := mkRewardLog (u64 (Sign rLog + 1)) (Reward rLog)]> signers
   | None => <[addr := mkRewardLog 1 0]> signers
   end,
   u64 (total + 1)).

(** [for addr := range addrSigners], on the signer map and the counter
    behind [totalSigner]. *)
Definition creditSigners (addrSigners : gset Address)
    (signers : gmap Address rewardLog)
  : M (RewardState C) (gmap Address rewardLog) := fun st =>
  let '(signers', total) :=
    set_fold creditSigner (signers, totalSigner st) addrSigners in
  (Ok signers', mkRewardState (engine st) total).

(** The position-in-epoch test; a zero epoch, or a zero merge range that
    has to be divided by, panics. *)
Definition eligibleM (cs : common.Constants) (chain : ChainReader R)
    (epoch i : Z) : M (RewardState C) bool :=
  if epoch =? 0 then panic
  else if i mod epoch <? common.MergeSignRange cs then mret true
  else if common.MergeSignRange cs =? 0 then panic
  else mret ((i mod common.MergeSignRange cs =? 0)
             || negb (IsTIP2019 (Config chain) (i64 i))).

(** One round of the tally loop, at block number [i]. *)
Definition tallyStep (cs : common.Constants) (chain : ChainReader R)
    (epoch : Z) (masternodes : list Address) (mapBlkHash : gmap Z Hash)
    (data : gmap Hash (list Address)) (i : Z)
    (signers : gmap Address rewardLog)
  : M (RewardState C) (gmap Address rewardLog) :=
  eligible ← eligibleM cs chain epoch i;
  if eligible : bool then
    let addrs := default [] (data !! default zeroHash (mapBlkHash !! i)) in
    if (0 <? length addrs)%nat then
      let addrSigners := filterSigners masternodes addrs in
      creditSigners addrSigners signers
    else mret signers
  else mret signers.

(** [for i := startBlockNumber; i <= endBlockNumber; i++] *)
Fixpoint tally (fuel : nat) (cs : common.Constants) (chain : ChainReader R)
    (epoch : Z) (masternodes : list Address) (mapBlkHash : gmap Z Hash)
    (data : gmap Hash (list Address)) (i endBlockNumber : Z)
    (signers : gmap Address rewardLog)
  : M (RewardState C) (gmap Address rewardLog) :=
  if i <=? endBlockNumber then
    match fuel with
    | O => outOfFuel
    | S fuel' =>
      signers' ← tallyStep cs chain epoch masternodes mapBlkHash data i signers;
      tally fuel' cs chain epoch masternodes mapBlkHash data (u64 (i + 1))
        endBlockNumber signers'
    end
  else mret signers.

(** The block numbers [GetRewardForCheckpoint] computes from the number of
    the checkpoint header and [rCheckpoint], in uint64 arithmetic. *)
Definition numberOf (header : Header) : Z := u64 (Z.abs (Number header)).

Definition prevCheckpointOf (header : Header) (rCheckpoint : Z) : Z :=
  u64 (numberOf header - u64 (rCheckpoint * 2)).

Definition startBlockNumberOf (header : Header) (rCheckpoint : Z) : Z :=
  u64 (prevCheckpointOf header rCheckpoint + 1).

Definition endBlockNumberOf (header : Header) (rCheckpoint : Z) : Z :=
  u64 (u64 (startBlockNumberOf header rCheckpoint + rCheckpoint) - 1).

Definition walkFromOf (header : Header) (rCheckpoint : Z) : Z :=
  u64 (u64 (prevCheckpointOf header rCheckpoint + u64 (rCheckpoint * 2)) - 1).

(** The first half of [GetRewardForCheckpoint]: walk back from the
    checkpoint header to the start of the window, then fetch the header of
    the previous checkpoint and its masternodes. *)
Definition walkPhase (fuel : nat) (chain : ChainReader R) (header : Header)
    (rCheckpoint : Z) : M (RewardState C) (WalkState * list Address) :=
  let prevCheckpoint := prevCheckpointOf header rCheckpoint in
  let startBlockNumber := startBlockNumberOf header rCheckpoint in
  ws ← walkBack fuel chain (walkFromOf header rCheckpoint) startBlockNumber
         (mkWalkState header ∅ ∅);
  header ← deref (GetHeader chain (ParentHash (wHeader ws)) prevCheckpoint);
  masternodes ← deref (GetMasternodesFromCheckpointHeader header);
  mret (ws, masternodes).

Definition GetRewardForCheckpoint (fuel : nat) (cs : common.Constants)
    (chain : ChainReader R) (header : Header) (rCheckpoint : Z)
  : M (RewardState C) (gmap Address rewardLog) :=
  let startBlockNumber := startBlockNumberOf header rCheckpoint in
  let endBlockNumber := endBlockNumberOf header rCheckpoint in
  let signers : gmap Address rewardLog := ∅ in
  '(ws, masternodes) ← walkPhase fuel chain header rCheckpoint;
  s2pos ← deref (S2PoS (Config chain));
  let epoch := Epoch s2pos in
  tally fuel cs chain epoch masternodes (wMapBlkHash ws) (wData ws)
    startBlockNumber endBlockNumber signers.

(** *** Notions used to state the properties of the checkpoint rewards *)

(** The loop states the walk-back passes through: from block number [i]
    in [n] completed rounds to block number [j]. *)
Inductive walkReach (chain : ChainReader R) (startBlockNumber : Z)
  : nat -> Z -> WalkState -> RewardState C
    -> Z -> WalkState -> RewardState C -> Prop :=
| walkReach_here (i : Z) (ws : WalkState) (st : RewardState C) :
    walkReach chain startBlockNumber O i ws st i ws st
| walkReach_step (n : nat) (i : Z) (ws ws1 : WalkState)
    (st st1 : RewardState C) (j : Z) (ws2 : WalkState) (st2 : RewardState C) :
    startBlockNumber <= i ->
    walkStep chain i ws st = (Ok ws1, st1) ->
    walkReach chain startBlockNumber n (u64 (i - 1)) ws1 st1 j ws2 st2 ->
    walkReach chain startBlockNumber (S n) i ws st j ws2 st2.

(** At block number [j] the reader has no header for the parent hash, or,
    the signing transactions not being cached, no block for the header. *)
Definition missingAt (chain : ChainReader R) (j : Z) (ws : WalkState)
    (st : RewardState C) : Prop :=
  GetHeader chain (ParentHash (wHeader ws)) j = None \/
  exists header,
    GetHeader chain (ParentHash (wHeader ws)) j = Some header /\
    GetCachedSigningTxs (engine st) (HeaderHash header) = None /\
    GetBlock chain (HeaderHash header) j = None.

(** A step that never returns an error value. *)
Definition noErr {A} (m : M (RewardState C) A) : Prop :=
  forall (st st' : RewardState C) (res : Res A),
    m st = (res, st') -> forall e, res <> Err e.

(** A step that leaves the counter behind [totalSigner] alone. *)
Definition keepsTotal {A} (m : M (RewardState C) A) : Prop :=
  forall (st st' : RewardState C) (res : Res A),
    m st = (res, st') -> totalSigner st' = totalSigner st.

(** A step that does not run out of fuel. *)
Definition inFuel {A} (m : M (RewardState C) A) : Prop :=
  forall st : RewardState C, (m st).1 <> OutOfFuel.

(** The position-in-epoch rule as a test on the block number. *)
Definition eligible (cs : common.Constants) (chain : ChainReader R)
    (epoch i : Z) : bool :=
  (i mod epoch <? common.MergeSignRange cs)
  || (i mod common.MergeSignRange cs =? 0)
  || negb (IsTIP2019 (Config chain) i).

(** A masternode is credited for block [i]: the block is eligible and
    some signing transaction that names the block's hash is from it. *)
Definition credited (cs : common.Constants) (chain : ChainReader R)
    (epoch : Z) (masternodes : list Address) (ws : WalkState) (i : Z)
    (a : Address) : bool :=
  eligible cs chain epoch i
  && bool_decide (a ∈ masternodes)
  && bool_decide
       (a ∈ default [] (wData ws !! default zeroHash (wMapBlkHash ws !! i))).

(** The blocks of a list a masternode is credited for. *)
Definition creditedIn (cs : common.Constants) (chain : ChainReader R)
    (epoch : Z) (masternodes : list Address) (ws : WalkState)
    (blocks : list Z) (a : Address) : list Z :=
  filter (fun i => credited cs chain epoch masternodes ws i a = true) blocks.

(** The masternodes credited for block [i], as a set. *)
Definition creditedSet (cs : common.Constants) (chain : ChainReader R)
    (epoch : Z) (masternodes : list Address) (ws : WalkState) (i : Z)
  : gset Address :=
  list_to_set
    (filter (fun a => credited cs chain epoch masternodes ws i a = true)
       masternodes).

(** The number of credits given over a list of blocks. *)
Definition creditTotal (cs : common.Constants) (chain : ChainReader R)
    (epoch : Z) (masternodes : list Address) (ws : WalkState)
    (blocks : list Z) : Z :=
  foldr (fun i acc =>
           Z.of_nat (size (creditedSet cs chain epoch masternodes ws i)) + acc)
        0 blocks.

(** One more credit for a signer's entry. *)
Definition bump (entry : option rewardLog) : rewardLog :=
  match entry with
  | Some rLog => mkRewardLog (u64 (Sign rLog + 1)) (Reward rLog)
  | None => mkRewardLog 1 0
  end.

(** The tally loop without its panics: the credits of the blocks of a
    list, folded from the left. *)
Definition creditBlocks (cs : common.Constants) (chain : ChainReader R)
    (epoch : Z) (masternodes : list Address) (ws : WalkState)
    (blocks : list Z) (acc : gmap Address rewardLog * Z)
  : gmap Address rewardLog * Z :=
  foldl (fun acc i =>
           set_fold creditSigner acc
             (creditedSet cs chain epoch masternodes ws i))
        acc blocks.

(** The entry of a signer credited [k] times. *)
Definition signerLog (k : nat) : option rewardLog :=
  match k with
  | O => None
  | S _ => Some (mkRewardLog (Z.of_nat k) 0)
  end.

End Checkpoint.

(** ** Notions used to state the properties of the reward split *)

(** The sum of the amounts of a reward map. *)
Definition sumRewards (m : gmap Address Z) : Z :=
  map_fold (fun _ v acc => v + acc) 0 m.

(** The sum of the sign counts of a signer map. *)
Definition sumSigns (signers : gmap Address rewardLog) : Z :=
  map_fold (fun _ rLog acc => Sign rLog + acc) 0 signers.

(** A voter collected with a positive capacity. *)
Definition paidVoter (voterCaps : gmap Address Z) (a : Address) : bool :=
  match voterCaps !! a with
  | Some c => 0 <? c
  | None => false
  end.

(** ** Notions used to state the properties of the transaction builder *)

(** Reading the record of calls. *)

Definition kindOf (ev : Event) : option TxKind :=
  match ev with
  | EvGetNonce _ _ => None
  | EvSignTx kind _ _ => Some kind
  | EvAddLocal kind _ _ => Some kind
  end.

(** Some transaction of the kind was built and handed to the wallet or to
    the pool. *)
Definition hasKind (kind : TxKind) (evs : list Event) : bool :=
  existsb (fun ev => bool_decide (kindOf ev = Some kind)) evs.

(** The submissions of a kind to the pool, with their outcome. *)
Fixpoint addLocals (kind : TxKind) (evs : list Event)
  : list (Transaction * option error) :=
  match evs with
  | [] => []
  | EvAddLocal k tx failed :: evs' =>
    if bool_decide (k = kind) then (tx, failed) :: addLocals kind evs'
    else addLocals kind evs'
  | _ :: evs' => addLocals kind evs'
  end.

(** The retry discipline of the sign transaction: every attempt is built
    with the nonce in force; a failed submission is followed by a reading
    of the account's nonce, and that reading is the nonce in force for the
    next attempt. *)
Fixpoint retriesWith (account : Address) (nonce : Z) (evs : list Event)
  : Prop :=
  match evs with
  | EvSignTx SignKind tx signFailed :: rest =>
    txNonce tx = nonce /\
    match signFailed, rest with
    | None, EvAddLocal SignKind _ (Some _) :: rest' =>
      match rest' with
      | EvGetNonce a n :: rest'' => a = account /\ retriesWith account n rest''
      | _ => False
      end
    | _, _ => True
    end
  | _ => True
  end.

(** The calls of the retry loop, in the order of the source.  An attempt
    builds the signing transaction of the block with the nonce in force and
    has the wallet sign it: a refusal of the wallet ends the call with the
    wallet's error.  The signed transaction is submitted to the pool: an
    accepted submission ends the loop.  A rejected one is followed by a
    reading of the account's nonce, and then by the next attempt, built
    with that reading, or, after the tenth attempt, by the return of the
    pool's error. *)
Fixpoint signAttempts (reg : Registry) (chainConfig : ChainConfig)
    (wl : Wallet) (account : Address) (block : Block)
    (retryCount nonce : Z) (evs : list Event) (res : Res unit) : Prop :=
  match evs with
  | EvSignTx SignKind tx signFailed :: rest =>
    tx = CreateTxSign reg (BlockNumber block) (BlockHash block) nonce
           (BlockSigners reg) /\
    match SignTx wl account tx (ChainId chainConfig) with
    | inl err => signFailed = Some err /\ rest = [] /\ res = Err err
    | inr txSigned =>
      signFailed = None /\
      match rest with
      | EvAddLocal SignKind tx' None :: rest' =>
        tx' = txSigned /\ rest' = [] /\ res = Ok tt
      | EvAddLocal SignKind tx' (Some err) :: EvGetNonce a newNonce :: rest' =>
        tx' = txSigned /\ a = account /\
        if 10 <=? retryCount then rest' = [] /\ res = Err err
        else signAttempts reg chainConfig wl account block (retryCount + 1)
               newNonce rest' res
      | _ => False
      end
    end
  | _ => False
  end.

(** The letter [RandStringByte] writes in a round whose clock reading is
    [t]: the generator is seeded with the reading and drawn from once. *)
Definition letterAt {G} `{RandSource G} (t : Z) : byte :=
  default 0
    (letterBytes
       !! Z.to_nat (draw (seedState t) (Z.of_nat (length letterBytes))).1).

(** The clock readings of [n] rounds that start in the world [w]. *)
Definition readings {P G} (w : World P G) (n : nat) : list Z :=
  (fun j => clock w (ticks w + j)%nat) <$> seq 0 n.

Section TransactionSignNotions.
Context {P G : Type} `{TxPool P} `{RandSource G} `{CryptoLib}.

Definition signOnly (ev : Event) : Prop :=
  kindOf ev = Some SignKind \/ kindOf ev = None.

Definition failed (a : Transaction * option error) : Prop := is_Some a.2.

(** What a run of the retry loop entered with [retryCount] leaves behind. *)
Definition signLoopPost (account : Address) (nonce retryCount : Z)
    (w : World P G) (res : Res unit) (w' : World P G) : Prop :=
  exists evs : list Event,
    calls w' = calls w ++ evs /\
    chainDb w' = chainDb w /\
    Forall signOnly evs /\
    (length (addLocals SignKind evs) <= Z.to_nat (11 - retryCount))%nat /\
    retriesWith account nonce evs /\
    res <> OutOfFuel /\
    (length (addLocals SignKind evs) = Z.to_nat (11 - retryCount) ->
     Forall failed (addLocals SignKind evs) ->
     exists tx e, last (addLocals SignKind evs) = Some (tx, Some e) /\
                  res = Err e).

(** Events of one kind, or of no kind (nonce readings). *)
Definition kindOnly (kind : TxKind) (ev : Event) : Prop :=
  kindOf ev = Some kind \/ kindOf ev = None.

(** A step that makes at most [n] submissions, all of one kind, and only
    calls of that kind. *)
Definition runs {A} (kind : TxKind) (n : nat) (m : M (World P G) A) : Prop :=
  forall (w w' : World P G) (res : Res A),
    m w = (res, w') ->
    exists evs : list Event,
      calls w' = calls w ++ evs /\
      Forall (kindOnly kind) evs /\
      (length (addLocals kind evs) <= n)%nat /\
      res <> OutOfFuel.

(** Steps that leave the record of calls alone. *)
Definition silent {A} (m : M (World P G) A) : Prop :=
  forall (w w' : World P G) (res : Res A),
    m w = (res, w') -> calls w' = calls w /\ res <> OutOfFuel.

(** The position of a block in its epoch. *)
Definition checkNumberOf (block : Block) (s2pos : S2PoSConfig) : Z :=
  u64 (Z.abs (BlockNumber block)) mod Epoch s2pos.

(** What follows the retry loop in a run: nothing, the commit of a secret,
    or the reveal of the opening. *)
Definition afterSign (cs : common.Constants) (block : Block)
    (s2pos : S2PoSConfig) (w w' : World P G) (evs : list Event) : Prop :=
  let exist := bool_decide (is_Some (chainDb w !! randomizeKeyName)) in
  let checkNumber := checkNumberOf block s2pos in
  evs = [] \/
  (secretBranch cs exist checkNumber = true /\
   Forall (kindOnly SecretKind) evs /\
   (length (addLocals SecretKind evs) <= 1)%nat) \/
  (openingBranch cs exist checkNumber = true /\
   Forall (kindOnly OpeningKind) evs /\
   (length (addLocals OpeningKind evs) <= 1)%nat /\
   forall tx, (tx, None) ∈ addLocals OpeningKind evs ->
              chainDb w' !! randomizeKeyName = None).

End TransactionSignNotions.

(** ** Sample inputs used by the examples *)

Definition sampleConstants : common.Constants :=
  common.mkConstants 10 100 15 800 850 900.

(** A state in which masternode 1 is owned by address 2, holds exactly the
    full cap and has no voters. *)
Definition sampleState : StateDB :=
  mkStateDB (fun a => if (a =? 1)%N then 2%N else a)
            (fun a => if (a =? 1)%N then targetValue else 0)
            (fun _ => [])
            (fun _ _ => 0).

(** The same masternode with two voters, one of them listed twice. *)
Definition sampleVoterState : StateDB :=
  mkStateDB (fun a => if (a =? 1)%N then 2%N else a)
            (fun _ => 7)
            (fun a => if (a =? 1)%N then [5%N; 6%N; 5%N] else [])
            (fun _ v => if (v =? 5)%N then 30 else 10).

(** The allocation bound of the runtime on 64-bit Linux. *)
#[global] Instance sampleHeap : Heap := {
  maxAlloc := (2 ^ 48)%N
}.

(** A linear congruential generator, standing for the library's generator
    in the examples. *)
#[global] Instance lcgSource : RandSource Z := {
  seedState s := s mod 2147483648;
  draw g n :=
    let g' := (g * 1103515245 + 12345) mod 2147483648 in
    (g' mod n, g')
}.

(** The base64 codec with the URL alphabet and padding, for the examples,
    after the library's decoder: three bytes make four characters; line
    breaks are skipped; the decoder stops at the first corrupt quantum and
    returns the bytes decoded before it with the error; data after the
    padding is an error too, reported next to the bytes of the padded
    quantum. *)
Definition enc6 (v : Z) : Z :=
  if v <? 26 then 65 + v
  else if v <? 52 then 97 + (v - 26)
  else if v <? 62 then 48 + (v - 52)
  else if v =? 62 then 45
  else 95.

Definition dec6 (c : Z) : option Z :=
  if (65 <=? c) && (c <=? 90) then Some (c - 65)
  else if (97 <=? c) && (c <=? 122) then Some (c - 97 + 26)
  else if (48 <=? c) && (c <=? 57) then Some (c - 48 + 52)
  else if c =? 45 then Some 62
  else if c =? 95 then Some 63
  else None.

Fixpoint base64Encode (bs : list byte) : list byte :=
  match bs with
  | [] => []
  | [a] => [enc6 (a / 4); enc6 (a mod 4 * 16); 61; 61]
  | [a; b] =>
    [enc6 (a / 4); enc6 (a mod 4 * 16 + b / 16); enc6 (b mod 16 * 4); 61]
  | a :: b :: c :: rest =>
    enc6 (a / 4) :: enc6 (a mod 4 * 16 + b / 16)
      :: enc6 (b mod 16 * 4 + c / 64) :: enc6 (c mod 64) :: base64Encode rest
  end.

Definition corruptInput : error := MkError 64.

Definition isNewline (c : byte) : bool := (c =? 10) || (c =? 13).

Fixpoint skipNewlines (s : list byte) : list byte :=
  match s with
  | [] => []
  | c :: s' => if isNewline c then skipNewlines s' else s
  end.

(** The bytes of a quantum, from the values of its two, three or four
    characters. *)
Definition quantumBytes (d : list Z) : list byte :=
  match d with
  | [p; q] => [p * 4 + q / 16]
  | [p; q; r] => [p * 4 + q / 16; q mod 16 * 16 + r / 4]
  | [p; q; r; t] => [p * 4 + q / 16; q mod 16 * 16 + r / 4; r mod 4 * 64 + t]
  | _ => []
  end.

(** After the padding only line breaks may follow. *)
Definition afterPadding (s : list byte) : option error :=
  match skipNewlines s with
  | [] => None
  | _ :: _ => Some corruptInput
  end.

(** The decoder, character by character; [d] holds the values read of the
    current quantum. *)
Fixpoint decodeQuanta (d : list Z) (s : list byte) : list byte * option error :=
  match s with
  | [] =>
    match d with
    | [] => ([], None)
    | _ :: _ => ([], Some corruptInput)
    end
  | c :: s' =>
    match dec6 c with
    | Some v =>
      match d with
      | [p; q; r] =>
        let '(out, err) := decodeQuanta [] s' in
        (quantumBytes [p; q; r; v] ++ out, err)
      | _ => decodeQuanta (d ++ [v]) s'
      end
    | None =>
      if isNewline c then decodeQuanta d s'
      else if c =? 61 then
        match d with
        | [p; q] =>
          match skipNewlines s' with
          | c' :: s'' =>
            if c' =? 61 then (quantumBytes d, afterPadding s'')
            else ([], Some corruptInput)
          | [] => ([], Some corruptInput)
          end
        | [p; q; r] => (quantumBytes d, afterPadding s')
        | _ => ([], Some corruptInput)
        end
      else ([], Some corruptInput)
    end
  end.

Definition base64Decode (s : list byte) : list byte * option error :=
  decodeQuanta [] s.

(** A library instance for the examples: a keyed byte substitution as block
    function and the codec above. *)
#[global] Instance sampleCrypto : CryptoLib := {
  aesEncryptBlock key blk :=
    (fun '(k, b) => (k + 7 * b + 13) mod 256)
      <$> zip (take 16 key) (take 16 (blk ++ replicate 16 0));
  EncodeToString := base64Encode;
  DecodeString := base64Decode
}.

Definition sampleKey : list byte :=
  [1; 2; 3; 4; 5; 6; 7; 8; 9; 10; 11; 12; 13; 14; 15; 16].

Definition sampleReader : list byte :=
  [200; 1; 77; 3; 0; 255; 6; 7; 8; 9; 10; 11; 12; 13; 14; 15; 16; 17].

(** A pool for the examples: it rejects the first [n] submissions and
    hands out increasing nonces. *)
#[global] Instance samplePool : TxPool (nat * Z) := {
  GetNonce p _ := p.2;
  AddLocal p tx :=
    match p.1 with
    | O => ((O, p.2 + 1), None)
    | S n => ((n, p.2 + 1), Some (MkError (N.of_nat n)))
    end
}.

Definition sampleRegistry : Registry :=
  mkRegistry 136%N 144%N [225; 52; 30; 218] [52; 209; 52; 17] [215; 9; 146; 33].

Definition sampleWallet : Wallet :=
  mkWallet [7%N]
    (fun account tx _ =>
       inr (mkTransaction (txNonce tx) (txTo tx) (txAmount tx) (txGasLimit tx)
              (txGasPrice tx) (txData tx) (Some account))).

Definition sampleManager : Manager :=
  mkManager [sampleWallet] (fun _ => Some sampleWallet).

Definition sampleChainConfig : ChainConfig :=
  mkChainConfig 88 (Some (mkS2PoSConfig 900)) (fun _ => true) (fun _ => true).

Definition sampleBlock (number : Z) : Block :=
  mkBlock number (replicate 32 1) [].

(** A world whose pool rejects the first [n] submissions. *)
Definition sampleWorld (n : nat) (db : gmap string (list byte))
  : World (nat * Z) Z :=
  mkWorld (n, 5) db 0 (fun k => Z.of_nat k) O (replicate 64 9) [].

(** A chain of five blocks for the examples, with checkpoints every two
    blocks: block 2 carries the signatures of masternodes 11 and 12 for
    block 1, block 3 two signatures of masternode 11 and one of the
    stranger 99 for block 2.  [missing] is a block number the reader has
    nothing for. *)
Definition sampleHash (n : Z) : Hash := replicate 31 0 ++ [n].

Definition sampleSignTx (from : Address) (signed : Z) : Transaction :=
  mkTransaction 0 136%N 0 200000 0
    ([225; 52; 30; 218] ++ LeftPadBytes (bigBytes signed) 32 ++ sampleHash signed)
    (Some from).

Definition sampleHeader (n : Z) : Header :=
  mkHeader n (sampleHash (n - 1)) (sampleHash n) [11; 12; 13].

Definition sampleTxs (n : Z) : list Transaction :=
  if n =? 2 then [sampleSignTx 11%N 1; sampleSignTx 12%N 1]
  else if n =? 3 then [sampleSignTx 11%N 2; sampleSignTx 11%N 2; sampleSignTx 99%N 2]
  else [].

Definition sampleHas (missing : Z) (h : Hash) (i : Z) : bool :=
  (0 <=? i) && (i <=? 4) && negb (i =? missing) && bool_decide (h = sampleHash i).

Definition sampleChain (missing : Z) : ChainReader unit :=
  mkChainReader
    (fun h i => if sampleHas missing h i then Some (sampleHeader i) else None)
    (fun h i => if sampleHas missing h i
                then Some (mkBlock i (sampleHash i) (sampleTxs i)) else None)
    sampleChainConfig
    (fun _ _ => tt).

#[global] Instance sampleEngine : Engine unit unit := {
  GetCachedSigningTxs _ _ := None;
  CacheSigningTxs c _ txs := (c, txs);
  CacheNoneTIPSigningTxs c _ txs _ := (c, txs);
  GetMasternodesFromCheckpointHeader header := Some (Z.to_N <$> Extra header)
}.

(** * Properties *)

(** ** Signer rewards *)

Lemma CalculateRewardForSigner_fold (chainReward totalSigner : Z)
    (signers logs0 : gmap Address rewardLog) :
  let r := map_fold (rewardStep chainReward totalSigner) (∅, logs0) signers in
  (forall a, r.1 !! a = calcReward chainReward totalSigner <$> signers !! a) /\
  (forall a, r.2 !! a =
     match signers !! a with
     | Some rLog =>
       Some (mkRewardLog (Sign rLog) (calcReward chainReward totalSigner rLog))
     | None => logs0 !! a
     end).
Proof.
  cbv zeta.
  apply (map_fold_weak_ind
    (fun (r : gmap Address Z * gmap Address rewardLog) (m : gmap Address rewardLog) =>
       (forall a, r.1 !! a = calcReward chainReward totalSigner <$> m !! a) /\
       (forall a, r.2 !! a =
          match m !! a with
          | Some rLog =>
            Some (mkRewardLog (Sign rLog) (calcReward chainReward totalSigner rLog))
          | None => logs0 !! a
          end))).
  - split; intros a; rewrite lookup_empty; done.
  - intros i x m [res logs] Hi [IH1 IH2]; simpl in *.
    split; intros a; destruct (decide (i = a)) as [->|Hne].
    + by rewrite !lookup_insert_eq.
    + rewrite !lookup_insert_ne by done. apply IH1.
    + by rewrite !lookup_insert_eq.
    + rewrite !lookup_insert_ne by done. apply IH2.
Qed.

(** C3. For a positive [totalSigner] every signer of the map is assigned
    exactly [floor (chainReward / totalSigner) * signCount], signers absent
    from the map get nothing, and the same amount is stored in the signer's
    log; the division truncates before the multiplication, so the rewards
    can add up to strictly less than [chainReward]: with [chainReward =
    1000], [totalSigner = 3] and one signer of count 3 the only reward is
    999. *)
Theorem CalculateRewardForSigner_spec :
  (forall (chainReward totalSigner : Z) (signers : gmap Address rewardLog),
     0 < totalSigner ->
     exists resultSigners,
       CalculateRewardForSigner chainReward signers totalSigner
       = (Ok resultSigners,
          (fun rLog => mkRewardLog (Sign rLog)
                         (chainReward / totalSigner * Sign rLog)) <$> signers) /\
       forall a, resultSigners !! a
                 = (fun rLog => chainReward / totalSigner * Sign rLog)
                     <$> signers !! a) /\
  (forall a : Address,
     exists resultSigners,
       (CalculateRewardForSigner 1000 {[a := mkRewardLog 3 0]} 3).1
       = Ok resultSigners /\
       resultSigners = {[a := 999]} /\
       sumRewards resultSigners = 999 /\
       sumRewards resultSigners < 1000).
Proof.
  split.
  - intros chainReward totalSigner signers Hpos.
    unfold CalculateRewardForSigner.
    assert ((0 <? totalSigner) = true) as -> by lia.
    pose proof (CalculateRewardForSigner_fold chainReward totalSigner signers signers)
      as Hfold. cbv zeta in Hfold.
    destruct (map_fold _ _ signers) as [res logs]; simpl in Hfold.
    destruct Hfold as [H1 H2].
    exists res. split; [|exact H1].
    f_equal. apply map_eq; intros a. rewrite H2, lookup_fmap.
    destruct (signers !! a); done.
  - intros a. unfold CalculateRewardForSigner; simpl.
    rewrite map_fold_singleton; simpl.
    eexists; split; [reflexivity|].
    unfold calcReward; simpl.
    split; [by rewrite insert_empty|].
    rewrite insert_empty. unfold sumRewards. rewrite map_fold_singleton.
    change (1000 / 3 * 3) with 999. lia.
Qed.

(** The theorem applied to two signers sharing a reward of 10 over 4
    signatures. *)
Lemma CalculateRewardForSigner_spec_witness :
  exists resultSigners,
    (CalculateRewardForSigner 10
       (<[1%N := mkRewardLog 3 0]> {[2%N := mkRewardLog 1 0]}) 4).1
    = Ok resultSigners /\
    resultSigners !! 1%N = Some 6 /\ resultSigners !! 2%N = Some 2.
Proof.
  destruct (proj1 CalculateRewardForSigner_spec 10 4
              (<[1%N := mkRewardLog 3 0]> {[2%N := mkRewardLog 1 0]}))
    as (res & Heq & Hlk); [lia|].
  exists res. rewrite Heq. split; [reflexivity|].
  rewrite !Hlk. split; reflexivity.
Defined.

(** ** Reward distribution *)

Lemma payVoters_zero (totalCap : Z) (voterCaps balances : gmap Address Z)
    (a : Address) :
  payVoters 0 totalCap voterCaps balances !! a
  = match balances !! a with
    | Some v => Some v
    | None => if paidVoter voterCaps a then Some 0 else None
    end.
Proof.
  unfold payVoters.
  apply (map_fold_weak_ind
    (fun (r : gmap Address Z) (m : gmap Address Z) =>
       r !! a = match balances !! a with
                | Some v => Some v
                | None => if paidVoter m a then Some 0 else None
                end)).
  - unfold paidVoter. rewrite lookup_empty. by destruct (balances !! a).
  - intros i x m r Hi IH.
    assert (Hr : 0 * x / totalCap = 0) by (rewrite Z.mul_0_l; apply Zdiv_0_l).
    rewrite Hr. unfold paidVoter in *.
    destruct (decide (i = a)) as [->|Hne].
    + rewrite Hi in IH. rewrite lookup_insert_eq.
      destruct (0 <? x) eqn:Hx.
      * destruct (balances !! a) as [v|] eqn:Hb; rewrite IH, lookup_insert_eq;
          [f_equal; lia|done].
      * rewrite IH. by destruct (balances !! a).
    + rewrite (lookup_insert_ne m) by done. rewrite <- IH.
      destruct (0 <? x); [|done].
      destruct (r !! i); by rewrite lookup_insert_ne.
Qed.

Lemma collectVoterCaps_dom (cs : common.Constants) (state : StateDB)
    (masterAddr : Address) (blockNumber : Z) (voters : list Address)
    (a : Address) :
  is_Some ((collectVoterCaps cs state masterAddr blockNumber voters).2 !! a) ->
  a ∈ voters.
Proof.
  unfold collectVoterCaps.
  assert (Hgen : forall (vs : list Address) (acc : Z * gmap Address Z),
    is_Some ((fold_left
      (fun '(totalCap, voterCaps) voteAddr =>
         if bool_decide (is_Some (voterCaps !! voteAddr))
            && (common.TIP2019Block cs <=? blockNumber)
         then (totalCap, voterCaps)
         else
           let voterCap := GetVoterCap state masterAddr voteAddr in
           (totalCap + voterCap, <[voteAddr := voterCap]> voterCaps))
      vs acc).2 !! a) ->
    is_Some (acc.2 !! a) \/ a ∈ vs).
  { induction vs as [|v vs IH]; intros [tc vc]; simpl.
    - by left.
    - intros H. apply IH in H. destruct H as [H|H]; [|right; by right].
      destruct (bool_decide _ && _); simpl in H; [by left|].
      destruct (decide (v = a)) as [->|Hne]; [right; by left|].
      rewrite lookup_insert_ne in H by done. by left. }
  intros H. apply Hgen in H. destruct H as [H|H]; [|done].
  simpl in H. rewrite lookup_empty in H. by destruct H.
Qed.

(** The balances of [GetRewardBalancesRate] before the foundation entry is
    written. *)
Lemma GetRewardBalancesRate_unfold (cs : common.Constants)
    (foundationWalletAddr : Address) (state : StateDB) (masterAddr : Address)
    (totalReward blockNumber : Z) :
  exists balances : gmap Address Z,
    GetRewardBalancesRate cs foundationWalletAddr state masterAddr totalReward
      blockNumber
    = Ok (<[foundationWalletAddr :=
              totalReward * common.RewardFoundationPercent cs / 100]> balances) /\
    balances !! masterAddr
    = Some (totalReward
            * (if GetCandidateCap state masterAddr =? targetValue
               then 50 else 40) / 100) /\
    (forall a, is_Some (balances !! a) ->
               a = masterAddr \/ a ∈ GetVoters state masterAddr) /\
    (forall a v, balances !! a = Some v -> a = masterAddr \/ v = 0).
Proof.
  unfold GetRewardBalancesRate.
  set (reward := totalReward * i64 _ / 100).
  assert (Hreward : reward = totalReward
            * (if GetCandidateCap state masterAddr =? targetValue
               then 50 else 40) / 100).
  { unfold reward. by destruct (_ =? targetValue). }
  clearbody reward.
  eexists; split; [reflexivity|].
  assert (Hbase : forall a, is_Some ((<[masterAddr := reward]> (∅ : gmap Address Z)) !! a) ->
                            a = masterAddr).
  { intros a Ha. destruct (decide (masterAddr = a)) as [->|Hne]; [done|].
    rewrite lookup_insert_ne, lookup_empty in Ha by done. by destruct Ha. }
  destruct (0 <? Z.of_nat (length (GetVoters state masterAddr))).
  2:{ split; [by rewrite lookup_insert_eq, Hreward|]. split.
      - intros a Ha. left. auto.
      - intros a v Ha. left. apply Hbase. by rewrite Ha. }
  pose proof (collectVoterCaps_dom cs state masterAddr blockNumber
                (GetVoters state masterAddr)) as Hdom.
  destruct (collectVoterCaps _ _ _ _ _) as [totalCap voterCaps]; simpl in Hdom.
  destruct (0 <? totalCap).
  2:{ split; [by rewrite lookup_insert_eq, Hreward|]. split.
      - intros a Ha. left. auto.
      - intros a v Ha. left. apply Hbase. by rewrite Ha. }
  change (totalReward * common.RewardVoterPercent / 100) with (totalReward * 0 / 100).
  rewrite Z.mul_0_r, Zdiv_0_l.
  split; [|split].
  - rewrite payVoters_zero, lookup_insert_eq. by rewrite Hreward.
  - intros a Ha. rewrite payVoters_zero in Ha.
    destruct (decide (masterAddr = a)) as [->|Hne]; [by left|].
    rewrite lookup_insert_ne, lookup_empty in Ha by done.
    unfold paidVoter in Ha. right. apply Hdom.
    destruct (voterCaps !! a); [done|]. by destruct Ha.
  - intros a v Ha. rewrite payVoters_zero in Ha.
    destruct (decide (masterAddr = a)) as [->|Hne]; [by left|].
    rewrite lookup_insert_ne, lookup_empty in Ha by done.
    destruct (paidVoter voterCaps a); [|done]. right. congruence.
Qed.

(** C1 (amended). The tier share, 50% of [totalReward] for a masternode
    whose stake cap is exactly 50000000000000000000000 and 40% for any
    other cap, is bound to the masternode address itself whenever that
    address is not the foundation wallet; the owner returned by the state
    accessor is only looked up, and an address has an entry only if it is
    the masternode, a listed voter or the foundation wallet.  The foundation
    wallet is always bound to [RewardFoundationPercent]% of [totalReward]. *)
Theorem GetRewardBalancesRate_tiers (cs : common.Constants)
    (foundationWalletAddr : Address) (state : StateDB) (masterAddr : Address)
    (totalReward blockNumber : Z) :
  masterAddr <> foundationWalletAddr ->
  exists balances : gmap Address Z,
    GetRewardBalancesRate cs foundationWalletAddr state masterAddr totalReward
      blockNumber = Ok balances /\
    balances !! masterAddr
    = Some (if GetCandidateCap state masterAddr =? targetValue
            then totalReward * 50 / 100 else totalReward * 40 / 100) /\
    balances !! foundationWalletAddr
    = Some (totalReward * common.RewardFoundationPercent cs / 100) /\
    forall a, is_Some (balances !! a) ->
              a = masterAddr \/ a = foundationWalletAddr \/
              a ∈ GetVoters state masterAddr.
Proof.
  intros Hne.
  destruct (GetRewardBalancesRate_unfold cs foundationWalletAddr state
              masterAddr totalReward blockNumber) as (bal & Heq & Hm & Hdom & _).
  eexists; split; [exact Heq|]. repeat split.
  - rewrite lookup_insert_ne by done. rewrite Hm.
    by destruct (_ =? targetValue).
  - by rewrite lookup_insert_eq.
  - intros a Ha. destruct (decide (foundationWalletAddr = a)) as [->|Hna];
      [by right; left|].
    rewrite lookup_insert_ne in Ha by done.
    apply Hdom in Ha. tauto.
Qed.

Lemma GetRewardBalancesRate_tiers_witness :
  exists balances : gmap Address Z,
    GetRewardBalancesRate sampleConstants 3%N sampleVoterState 1%N 1000 200
    = Ok balances /\
    balances !! 1%N = Some 400 /\ balances !! 3%N = Some 100.
Proof.
  destruct (GetRewardBalancesRate_tiers sampleConstants 3%N sampleVoterState
              1%N 1000 200) as (bal & Heq & Hm & Hf & _); [done|].
  exists bal. split; [exact Heq|]. split; [exact Hm|exact Hf].
Defined.

(** C1 as stated fails: for masternode 1 of [sampleState], owned by
    address 2 and holding exactly the full cap, the owner has no entry at
    all; the 50% are bound to the masternode address. *)
Lemma GetRewardBalancesRate_owner_not_paid :
  GetCandidateCap sampleState 1%N = 50000000000000000000000 /\
  GetCandidatesOwnerBySigner sampleState 1%N = 2%N /\
  exists balances : gmap Address Z,
    GetRewardBalancesRate sampleConstants 3%N sampleState 1%N 1000 200
    = Ok balances /\
    balances !! GetCandidatesOwnerBySigner sampleState 1%N = None /\
    balances !! GetCandidatesOwnerBySigner sampleState 1%N
      <> Some (1000 * 50 / 100) /\
    balances !! 1%N = Some (1000 * 50 / 100).
Proof.
  split; [reflexivity|]. split; [reflexivity|].
  eexists; split; [reflexivity|].
  repeat split; try done.
Qed.

(** C10. When the foundation wallet is the masternode address, that
    address is bound to exactly the foundation share: the last assignment
    replaces the tier share written first, it is not added to it. *)
Theorem GetRewardBalancesRate_foundation_overwrites (cs : common.Constants)
    (state : StateDB) (masterAddr : Address) (totalReward blockNumber : Z) :
  exists balances : gmap Address Z,
    GetRewardBalancesRate cs masterAddr state masterAddr totalReward
      blockNumber = Ok balances /\
    balances !! masterAddr
    = Some (totalReward * common.RewardFoundationPercent cs / 100).
Proof.
  destruct (GetRewardBalancesRate_unfold cs masterAddr state masterAddr
              totalReward blockNumber) as (bal & Heq & _).
  eexists; split; [exact Heq|]. by rewrite lookup_insert_eq.
Qed.

(** With the voter share at zero a voter is paid nothing: whatever the
    voters and their capacities, an entry of the balances that belongs
    neither to the masternode nor to the foundation wallet is zero. *)
Theorem GetRewardBalancesRate_voters_zero (cs : common.Constants)
    (foundationWalletAddr : Address) (state : StateDB) (masterAddr : Address)
    (totalReward blockNumber : Z) :
  exists balances : gmap Address Z,
    GetRewardBalancesRate cs foundationWalletAddr state masterAddr totalReward
      blockNumber = Ok balances /\
    forall a v, balances !! a = Some v ->
                a = masterAddr \/ a = foundationWalletAddr \/ v = 0.
Proof.
  destruct (GetRewardBalancesRate_unfold cs foundationWalletAddr state
              masterAddr totalReward blockNumber) as (bal & Heq & _ & _ & Hz).
  eexists; split; [exact Heq|]. intros a v Ha.
  destruct (decide (foundationWalletAddr = a)) as [->|Hne]; [by right; left|].
  rewrite lookup_insert_ne in Ha by done.
  destruct (Hz a v Ha); tauto.
Qed.

Example GetRewardBalancesRate_run_voters :
  GetRewardBalancesRate sampleConstants 3%N sampleVoterState 1%N 1000 200
  = Ok (<[1%N := 400]> (<[3%N := 100]> (<[5%N := 0]> {[6%N := 0]}))).
Proof. vm_compute. reflexivity. Qed.

(** ** The M2 shuffle *)

Lemma insert_snoc_Permutation {A} (l : list A) (r : nat) (t b : A) :
  l !! r = Some t -> <[r := b]> l ++ [t] ≡ₚ l ++ [b].
Proof.
  revert r. induction l as [|a l IH]; intros [|r] Hr; simplify_eq/=.
  - rewrite <- !Permutation_cons_append. apply perm_swap.
  - f_equiv. by apply IH.
Qed.

Lemma index_Ok {A} (s : list A) (i : nat) (x : A) :
  s !! i = Some x -> index s (Z.of_nat i) = Ok x.
Proof.
  intros H. unfold index.
  assert ((Z.of_nat i <? 0) = false) as -> by (apply Z.ltb_ge; lia).
  by rewrite Nat2Z.id, H.
Qed.

Lemma assign_Ok {A} (s : list A) (i : nat) (x : A) :
  (i < length s)%nat -> assign s (Z.of_nat i) x = Ok (<[i := x]> s).
Proof.
  intros H. unfold assign.
  assert ((Z.of_nat i <? 0) = false) as -> by (apply Z.ltb_ge; lia).
  assert ((Z.of_nat (length s) <=? Z.of_nat i) = false) as ->
    by (apply Z.leb_gt; lia).
  by rewrite Nat2Z.id.
Qed.

(** One pass of the loop body removes the element drawn from the working
    slice: what is left, followed by the element, is a rearrangement of the
    slice. *)
Lemma shuffle_step_Permutation (bv : list Z) (k' r : nat) (temp bvi : Z) :
  length bv = S k' ->
  (r < S k')%nat -> (r = k' -> k' = O) ->
  bv !! r = Some temp -> bv !! k' = Some bvi ->
  let bv2 := <[k' := temp]> (<[r := bvi]> bv) in
  length (take k' bv2 ++ drop (S k') bv2) = k' /\
  (take k' bv2 ++ drop (S k') bv2) ++ [temp] ≡ₚ bv.
Proof.
  intros Hlen Hr Hrk Htemp Hbvi bv2.
  assert (Hlen2 : length bv2 = S k') by (unfold bv2; by rewrite !length_insert).
  rewrite (drop_ge bv2) by lia. rewrite app_nil_r.
  split; [rewrite length_take; lia|].
  assert (Hsplit : bv = take k' bv ++ [bvi]).
  { rewrite <- (take_drop k' bv) at 1. f_equal.
    rewrite (drop_S _ _ _ Hbvi). rewrite drop_ge by lia. done. }
  destruct (decide (r = k')) as [->|Hne].
  - specialize (Hrk eq_refl). subst k'.
    destruct bv as [|b [|??]]; simplify_eq/=. done.
  - unfold bv2. rewrite take_insert_ge by lia.
    rewrite take_insert_lt by lia.
    rewrite Hsplit at 2. apply insert_snoc_Permutation.
    rewrite lookup_take_lt by lia. done.
Qed.

Lemma shuffleLoop_Permutation {G} `{RandSourceOk G} (k : nat) :
  forall (g : G) (bv out : list Z),
    length bv = k -> (k <= length out)%nat ->
    exists out' g',
      shuffleLoop k g bv out = Ok (out', g') /\
      length out' = length out /\
      take k out' ≡ₚ bv /\ drop k out' = drop k out.
Proof.
  induction k as [|k' IH]; intros g bv out Hlen Hout.
  - exists out, g. simpl. destruct bv; [|done].
    by rewrite take_0.
  - cbn [shuffleLoop]. rewrite Hlen.
    set (bl := if Z.of_nat (S k') - 1 <=? 1 then 1 else Z.of_nat (S k') - 1).
    assert (Hbl : 0 < bl) by (unfold bl; destruct (Z.leb_spec (Z.of_nat (S k') - 1) 1); lia).
    unfold Intn. assert ((bl <=? 0) = false) as -> by (apply Z.leb_gt; lia).
    pose proof (draw_range g bl Hbl) as Hrange.
    destruct (draw g bl) as [ri g1]; simpl in Hrange. cbn.
    set (r := Z.to_nat ri).
    assert (Hri : ri = Z.of_nat r) by (unfold r; lia).
    assert (Hr : (r < S k')%nat).
    { unfold bl in Hrange. destruct (Z.leb_spec (Z.of_nat (S k') - 1) 1); lia. }
    assert (Hrk : r = k' -> k' = O).
    { unfold bl in Hrange. destruct (Z.leb_spec (Z.of_nat (S k') - 1) 1); lia. }
    destruct (lookup_lt_is_Some_2 bv r) as [temp Htemp]; [lia|].
    destruct (lookup_lt_is_Some_2 bv k') as [bvi Hbvi]; [lia|].
    rewrite Hri, (index_Ok _ _ _ Htemp). cbn.
    rewrite (index_Ok _ _ _ Hbvi). cbn.
    rewrite (assign_Ok bv r) by lia. cbn.
    rewrite (assign_Ok (<[r := bvi]> bv) k') by (rewrite length_insert; lia). cbn.
    rewrite (assign_Ok out k') by lia. cbn.
    destruct (shuffle_step_Permutation bv k' r temp bvi Hlen Hr Hrk Htemp Hbvi)
      as [Hlen' Hperm].
    destruct (IH g1 _ (<[k' := temp]> out) Hlen')
      as (out' & g' & Heq & Hlo & Htake & Hdrop);
      [rewrite length_insert; lia|].
    exists out', g'. split; [exact Heq|].
    rewrite length_insert in Hlo. split; [exact Hlo|].
    assert (Hk' : out' !! k' = Some temp).
    { rewrite <- (Nat.add_0_r k'), <- lookup_drop, Hdrop, lookup_drop, Nat.add_0_r.
      apply list_lookup_insert_eq. lia. }
    split.
    + rewrite (take_S_r _ _ _ Hk'). rewrite Htake. exact Hperm.
    + replace (S k') with (k' + 1)%nat by lia.
      rewrite <- (drop_drop out'), Hdrop, drop_drop.
      by rewrite drop_insert_lt by lia.
Qed.

Lemma i64_id (z : Z) : - 2 ^ 63 <= z < 2 ^ 63 -> i64 z = z.
Proof.
  intros Hz. unfold i64. rewrite Z.mod_small by lia. lia.
Qed.

Lemma fillSlice_seqZ (n : nat) :
  forall start : Z,
    0 <= start -> start + Z.of_nat n <= 2 ^ 63 - 1 ->
    fillSlice n start 1 = seqZ start (Z.of_nat n).
Proof.
  induction n as [|n IH]; intros start H0 Hn; [done|].
  cbn [fillSlice]. rewrite seqZ_cons by lia. f_equal.
  rewrite i64_id by lia.
  replace (Z.pred (Z.of_nat (S n))) with (Z.of_nat n) by lia.
  apply IH; lia.
Qed.

#[global] Instance lcgSource_ok : RandSourceOk Z.
Proof.
  split. intros g n Hn. simpl. apply Z.mod_pos_bound. exact Hn.
Qed.

Lemma makeslice_Ok `{Heap} (len : Z) :
  0 <= len -> 8 * len <= Z.of_N maxAlloc ->
  makeslice len = Ok (replicate (Z.to_nat len) 0).
Proof.
  intros H0 Hmax. unfold makeslice.
  assert ((len <? 0) = false) as -> by lia.
  by assert ((Z.of_N maxAlloc <? 8 * len) = false) as -> by lia.
Qed.

Lemma makeslice_Panic `{Heap} (len : Z) :
  len < 0 \/ Z.of_N maxAlloc < 8 * len -> makeslice len = Panic.
Proof.
  intros Hlen. unfold makeslice.
  destruct (Z.ltb_spec len 0) as [?|?]; [done|].
  by assert ((Z.of_N maxAlloc <? 8 * len) = true) as -> by lia.
Qed.

Lemma NewSlice_Ok `{Heap} (start end_ step : Z) :
  0 <= i64 (end_ - start) -> 8 * i64 (end_ - start) <= Z.of_N maxAlloc ->
  NewSlice start end_ step
  = Ok (fillSlice (Z.to_nat (i64 (end_ - start))) start step).
Proof.
  intros H0 Hmax. unfold NewSlice. rewrite makeslice_Ok by done.
  cbn. by rewrite length_replicate.
Qed.

Lemma NewSlice_Panic `{Heap} (start end_ step : Z) :
  i64 (end_ - start) < 0 \/ Z.of_N maxAlloc < 8 * i64 (end_ - start) ->
  NewSlice start end_ step = Panic.
Proof. intros Hlen. unfold NewSlice. by rewrite makeslice_Panic. Qed.



Example GenM2FromRandomize_run :
  GenM2FromRandomize (0 : Z) [3; 4] 5 = Ok ([1; 2; 3; 4; 0], 2131988640).
Proof. vm_compute. reflexivity. Qed.

(** C5. The shuffle reseeds the global generator with the sum of the
    secrets before it draws, so its result, and the generator it leaves
    behind, depend on nothing but that sum and the count: two invocations
    with the same secrets (more generally, secrets of the same sum) and the
    same count agree, whatever state the generator was in. *)
Theorem GenM2FromRandomize_deterministic {G} `{RandSource G} `{Heap}
    (g1 g2 : G)
    (secrets1 secrets2 : list Z) (n : Z) :
  sumRandomizes secrets1 = sumRandomizes secrets2 ->
  GenM2FromRandomize g1 secrets1 n = GenM2FromRandomize g2 secrets2 n.
Proof.
  intros Hsum. unfold GenM2FromRandomize. by rewrite Hsum.
Qed.

Lemma GenM2FromRandomize_deterministic_witness :
  GenM2FromRandomize (17 : Z) [3; 4] 5 = GenM2FromRandomize (99 : Z) [3; 4] 5 /\
  GenM2FromRandomize (17 : Z) [3; 4] 5 = GenM2FromRandomize (99 : Z) [5; 2] 5.
Proof.
  split.
  - apply (GenM2FromRandomize_deterministic (17 : Z) 99 [3; 4] [3; 4] 5).
    reflexivity.
  - apply (GenM2FromRandomize_deterministic (17 : Z) 99 [3; 4] [5; 2] 5).
    reflexivity.
Defined.

(** ** Commit-reveal cipher helpers *)

Lemma lxor_involutive (s o : Z) : Z.lxor (Z.lxor s o) o = s.
Proof. by rewrite Z.lxor_assoc, Z.lxor_nilpotent, Z.lxor_0_r. Qed.

Lemma lxor_isByte (a b : Z) : isByte a -> isByte b -> isByte (Z.lxor a b).
Proof.
  unfold isByte. intros Ha Hb.
  assert (H0 : 0 <= Z.lxor a b) by (apply Z.lxor_nonneg; lia).
  split; [exact H0|].
  destruct (decide (Z.lxor a b = 0)) as [->|Hnz]; [lia|].
  change 256 with (2 ^ 8). apply Z.log2_lt_pow2; [lia|].
  pose proof (Z.log2_lxor a b ltac:(lia) ltac:(lia)) as Hlog.
  assert (Hla : Z.log2 a < 8).
  { destruct (decide (a = 0)) as [->|?]; [done|].
    apply Z.log2_lt_pow2; lia. }
  assert (Hlb : Z.log2 b < 8).
  { destruct (decide (b = 0)) as [->|?]; [done|].
    apply Z.log2_lt_pow2; lia. }
  lia.
Qed.

(** Decrypting what the stream encrypted from the same register state
    returns the plain text. *)
Lemma XORKeyStream_roundtrip (block : list byte -> list byte) (src : list byte) :
  forall (out next : list byte) (outUsed : nat),
    XORKeyStream block true out next outUsed
      (XORKeyStream block false out next outUsed src) = src.
Proof.
  induction src as [|s src IH]; intros out next outUsed; [done|].
  cbn [XORKeyStream].
  destruct (outUsed =? BlockSize)%nat eqn:Hu; cbn [XORKeyStream]; rewrite Hu;
    rewrite lxor_involutive; f_equal; apply IH.
Qed.

Lemma XORKeyStream_bytes (block : list byte -> list byte) (decrypt : bool)
    (src : list byte) :
  (forall blk, Forall isByte (block blk)) ->
  Forall isByte src ->
  forall (out next : list byte) (outUsed : nat),
    Forall isByte out ->
    Forall isByte (XORKeyStream block decrypt out next outUsed src).
Proof.
  intros Hblock Hsrc. induction Hsrc as [|s src Hs Hsrc IH];
    intros out next outUsed Hout; [constructor|].
  cbn [XORKeyStream].
  assert (Hkey : forall (o : list byte) (u : nat), Forall isByte o ->
                   isByte (default 0 (o !! u))).
  { intros o u Ho. destruct (o !! u) as [x|] eqn:Hx; simpl.
    - eapply Forall_lookup_1; eauto.
    - unfold isByte; lia. }
  destruct (outUsed =? BlockSize)%nat; constructor;
    auto using lxor_isByte.
Qed.

Lemma NewCipher_valid `{CryptoLib} (key : list byte) :
  length key = 16%nat \/ length key = 24%nat \/ length key = 32%nat ->
  NewCipher key = Some (aesEncryptBlock key).
Proof.
  intros Hk. unfold NewCipher.
  destruct Hk as [-> | [-> | ->]]; reflexivity.
Qed.

(** C6. For a key of 16, 24 or 32 bytes and any string, decrypting the
    result of [Encrypt] under the same key returns the string, whenever
    [Encrypt] did not fail (did not return the empty string). *)
Theorem Decrypt_Encrypt `{CryptoLibOk} (reader key text : list byte) :
  length key = 16%nat \/ length key = 24%nat \/ length key = 32%nat ->
  Forall isByte text -> Forall isByte reader ->
  Encrypt reader key text <> [] ->
  Decrypt key (Encrypt reader key text) = text.
Proof.
  intros Hkey Htext Hreader Hok.
  unfold Encrypt, Decrypt in *. rewrite (NewCipher_valid key Hkey) in *.
  unfold ReadFull in *.
  destruct (Nat.ltb_spec (length reader) BlockSize) as [Hshort|Hlong];
    [done|].
  set (iv := take BlockSize reader) in *.
  assert (Hiv : length iv = BlockSize) by (unfold iv; rewrite length_take; lia).
  assert (Hbytes : Forall isByte
            (iv ++ NewCFB (aesEncryptBlock key) false iv text)).
  { apply Forall_app; split; [by apply Forall_take|].
    apply XORKeyStream_bytes; auto using aesEncryptBlock_bytes.
    apply Forall_replicate. unfold isByte; lia. }
  rewrite (decode_encode _ Hbytes).
  rewrite length_app, Hiv.
  destruct (Nat.ltb_spec (BlockSize + length (NewCFB (aesEncryptBlock key) false iv text))
              BlockSize) as [Hlt|_]; [lia|].
  rewrite take_app_length' by done. rewrite drop_app_length' by done.
  apply XORKeyStream_roundtrip.
Qed.

Lemma dec6_enc6 (v : Z) : 0 <= v < 64 -> dec6 (enc6 v) = Some v.
Proof.
  intros Hv. unfold enc6.
  destruct (Z.ltb_spec v 26); [|destruct (Z.ltb_spec v 52);
    [|destruct (Z.ltb_spec v 62); [|destruct (Z.eqb_spec v 62)]]];
    unfold dec6;
    repeat match goal with
           | |- context [?a <=? ?b] => destruct (Z.leb_spec a b); cbn [andb]
           | |- context [?a =? ?b] => destruct (Z.eqb_spec a b)
           end; try lia; f_equal; lia.
Qed.

Lemma enc6_not_pad (v : Z) : 0 <= v -> (enc6 v =? 61) = false.
Proof.
  intros Hv. apply Z.eqb_neq. unfold enc6.
  destruct (Z.ltb_spec v 26); [lia|]. destruct (Z.ltb_spec v 52); [lia|].
  destruct (Z.ltb_spec v 62); [lia|]. destruct (Z.eqb_spec v 62); lia.
Qed.

Example base64Encode_Man :
  base64Encode (bytesOfString "Man") = bytesOfString "TWFu" /\
  base64Encode (bytesOfString "Ma") = bytesOfString "TWE=" /\
  base64Encode [251; 255] = bytesOfString "-_8=".
Proof. vm_compute. repeat split. Qed.

Ltac divmod_lia := Z.div_mod_to_equations; lia.

Lemma base64Decode_group (a b c : Z) (rest : list byte) :
  isByte a -> isByte b -> isByte c ->
  base64Decode
    (enc6 (a / 4) :: enc6 (a mod 4 * 16 + b / 16)
       :: enc6 (b mod 16 * 4 + c / 64) :: enc6 (c mod 64) :: rest)
  = (a :: b :: c :: (base64Decode rest).1, (base64Decode rest).2).
Proof.
  unfold isByte, base64Decode. intros Ha Hb Hc.
  assert (H1 : 0 <= a / 4 < 64) by divmod_lia.
  assert (H2 : 0 <= a mod 4 * 16 + b / 16 < 64) by divmod_lia.
  assert (H3 : 0 <= b mod 16 * 4 + c / 64 < 64) by divmod_lia.
  assert (H4 : 0 <= c mod 64 < 64) by divmod_lia.
  cbn [decodeQuanta]. rewrite (dec6_enc6 _ H1). cbn [app decodeQuanta].
  rewrite (dec6_enc6 _ H2). cbn [app decodeQuanta].
  rewrite (dec6_enc6 _ H3). cbn [app decodeQuanta].
  rewrite (dec6_enc6 _ H4).
  destruct (decodeQuanta [] rest) as [out err]. cbn [fst snd quantumBytes app].
  f_equal. f_equal; [|f_equal; [|f_equal]]; clear H1 H2 H3 H4; divmod_lia.
Qed.

Example base64Decode_run :
  base64Decode (bytesOfString "TWFu") = (bytesOfString "Man", None) /\
  base64Decode [84; 87; 10; 70; 117; 13; 10] = (bytesOfString "Man", None) /\
  base64Decode (bytesOfString "TWFuTQ") = (bytesOfString "Man", Some corruptInput) /\
  base64Decode (bytesOfString "TWE=TWFu") = (bytesOfString "Ma", Some corruptInput) /\
  base64Decode (bytesOfString "TQ=x") = ([], Some corruptInput) /\
  base64Decode (bytesOfString "TW!u") = ([], Some corruptInput).
Proof. vm_compute. repeat split. Qed.

Lemma base64Decode_Encode (n : nat) :
  forall bs : list byte,
    (length bs <= n)%nat -> Forall isByte bs ->
    base64Decode (base64Encode bs) = (bs, None).
Proof.
  induction n as [|n IH]; intros bs Hlen Hbs.
  { destruct bs; [done|cbn in Hlen; lia]. }
  destruct bs as [|a [|b [|c rest]]]; [done| | |].
  - apply Forall_cons_1 in Hbs as [Ha _]. unfold isByte in Ha.
    unfold base64Decode. cbn [base64Encode].
    assert (H1 : 0 <= a / 4 < 64) by divmod_lia.
    assert (H2 : 0 <= a mod 4 * 16 < 64) by divmod_lia.
    cbn [decodeQuanta]. rewrite (dec6_enc6 _ H1). cbn [app decodeQuanta].
    rewrite (dec6_enc6 _ H2). cbn.
    do 3 f_equal. clear H1 H2. divmod_lia.
  - apply Forall_cons_1 in Hbs as [Ha Hbs].
    apply Forall_cons_1 in Hbs as [Hb _]. unfold isByte in Ha, Hb.
    unfold base64Decode. cbn [base64Encode].
    assert (H1 : 0 <= a / 4 < 64) by divmod_lia.
    assert (H2 : 0 <= a mod 4 * 16 + b / 16 < 64) by divmod_lia.
    assert (H3 : 0 <= b mod 16 * 4 < 64) by divmod_lia.
    cbn [decodeQuanta]. rewrite (dec6_enc6 _ H1). cbn [app decodeQuanta].
    rewrite (dec6_enc6 _ H2). cbn [app decodeQuanta].
    rewrite (dec6_enc6 _ H3). cbn.
    f_equal. f_equal; [|f_equal]; clear H1 H2 H3; divmod_lia.
  - apply Forall_cons_1 in Hbs as [Ha Hbs].
    apply Forall_cons_1 in Hbs as [Hb Hbs].
    apply Forall_cons_1 in Hbs as [Hc Hbs].
    cbn [base64Encode]. rewrite base64Decode_group by done.
    rewrite IH by (cbn in Hlen; lia || done). done.
Qed.

#[global] Instance sampleCrypto_ok : CryptoLibOk.
Proof.
  split.
  - intros key blk. simpl. apply Forall_fmap, Forall_forall.
    intros [k b] _. simpl. unfold isByte. apply Z.mod_pos_bound. lia.
  - intros bs Hbs. apply (base64Decode_Encode (length bs)); [lia|done].
Qed.

Lemma Decrypt_Encrypt_witness :
  Encrypt sampleReader sampleKey [52; 50] <> [] /\
  Decrypt sampleKey (Encrypt sampleReader sampleKey [52; 50]) = [52; 50].
Proof.
  assert (Hne : Encrypt sampleReader sampleKey [52; 50] <> [])
    by (vm_compute; discriminate).
  split; [exact Hne|].
  apply (Decrypt_Encrypt sampleReader sampleKey [52; 50]).
  - left. reflexivity.
  - repeat constructor; unfold isByte; lia.
  - repeat constructor; unfold isByte; lia.
  - exact Hne.
Defined.

(** ** The signing and randomize transactions *)

Example CreateTransactionSign_run_retries :
  let '(res, w) :=
    CreateTransactionSign 10 sampleConstants sampleRegistry sampleChainConfig
      sampleManager (sampleBlock 5) 7%N (sampleWorld 10 ∅) in
  res = Err (MkError 0) /\
  length (addLocals SignKind (calls w)) = 10%nat /\
  hasKind SecretKind (calls w) = false.
Proof. vm_compute. repeat split. Qed.

Example CreateTransactionSign_run_secret :
  let '(res, w) :=
    CreateTransactionSign 10 sampleConstants sampleRegistry sampleChainConfig
      sampleManager (sampleBlock 805) 7%N (sampleWorld 2 ∅) in
  res = Ok tt /\
  length (addLocals SignKind (calls w)) = 3%nat /\
  length (addLocals SecretKind (calls w)) = 1%nat /\
  hasKind OpeningKind (calls w) = false /\
  is_Some (chainDb w !! randomizeKeyName).
Proof. vm_compute. repeat split. eexists; reflexivity. Qed.

Section TransactionSignProofs.
Context {P G : Type} `{TxPool P} `{RandSource G} `{CryptoLib}.

Lemma addLocals_AddLocal (kind : TxKind) (tx : Transaction)
    (r : option error) (evs : list Event) :
  addLocals kind (EvAddLocal kind tx r :: evs) = (tx, r) :: addLocals kind evs.
Proof. cbn. by rewrite bool_decide_eq_true_2. Qed.

Lemma addLocals_SignTx (kind k : TxKind) (tx : Transaction)
    (r : option error) (evs : list Event) :
  addLocals kind (EvSignTx k tx r :: evs) = addLocals kind evs.
Proof. reflexivity. Qed.

Lemma addLocals_GetNonce (kind : TxKind) (a : Address) (n : Z)
    (evs : list Event) :
  addLocals kind (EvGetNonce a n :: evs) = addLocals kind evs.
Proof. reflexivity. Qed.

Lemma addLocals_nil (kind : TxKind) : addLocals kind [] = [].
Proof. reflexivity. Qed.

Ltac simpl_log :=
  cbn [app];
  repeat first
    [ rewrite addLocals_AddLocal | rewrite addLocals_SignTx
    | rewrite addLocals_GetNonce | rewrite addLocals_nil ];
  cbn [length last retriesWith].

Ltac solve_kinds :=
  repeat first
    [ assumption
    | apply List.Forall_nil
    | apply List.Forall_cons; [first [by left | by right]|] ].

Lemma signLoop_post (reg : Registry) (chainConfig : ChainConfig)
    (wallet : option Wallet) (account : Address) (block : Block) (fuel : nat) :
  forall (retryCount nonce : Z) (w w' : World P G) (res : Res unit),
    1 <= retryCount <= 10 ->
    (Z.to_nat (11 - retryCount) <= fuel)%nat ->
    signLoop fuel reg chainConfig wallet account block retryCount nonce w
    = (res, w') ->
    signLoopPost account nonce retryCount w res w'.
Proof.
  induction fuel as [|fuel IH]; intros retryCount nonce w w' res Hc Hfuel Hrun;
    [lia|].
  cbn [signLoop] in Hrun.
  set (tx := CreateTxSign reg (BlockNumber block) (BlockHash block) nonce
               (BlockSigners reg)) in Hrun.
  assert (Htx : txNonce tx = nonce) by reflexivity. clearbody tx.
  unfold walletSignTx, mbind, M_bind in Hrun.
  destruct wallet as [wl|]; cbn in Hrun.
  2:{ injection Hrun as <- <-. exists []. rewrite app_nil_r.
      split; [done|]. split; [done|]. split; [solve_kinds|].
      simpl_log.
      split; [lia|]. split; [done|]. split; [done|].
      intros Hl. lia. }
  destruct (SignTx wl account tx (ChainId chainConfig)) as [err|txSigned];
    cbn in Hrun.
  { injection Hrun as <- <-. eexists [_].
    split; [done|]. split; [done|]. split; [solve_kinds|].
    simpl_log.
    split; [lia|]. split; [done|]. split; [done|].
    intros Hl. lia. }
  unfold poolAddLocal in Hrun. cbn in Hrun.
  destruct (AddLocal (pool w) txSigned) as [p [err|]] eqn:Hadd; cbn in Hrun.
  2:{ injection Hrun as <- <-. eexists [_; _].
      split; [cbn; by rewrite <- app_assoc|]. split; [done|].
      split; [solve_kinds|].
      simpl_log.
      split; [lia|]. split; [done|]. split; [done|].
      intros _ Hall. apply Forall_cons_1 in Hall as [[? Hf] _]. done. }
  destruct (Z.leb_spec 10 retryCount) as [Hlast|Hmore].
  { cbn in Hrun. injection Hrun as <- <-. eexists [_; _; _].
    split; [cbn; by rewrite <- !app_assoc|]. split; [done|].
    split; [solve_kinds|].
    simpl_log.
    split; [lia|]. split; [done|]. split; [done|].
    intros _ _. eauto. }
  apply IH in Hrun; [|lia|lia].
  destruct Hrun as (evs & Hcalls & Hdb & Hkinds & Hlen & Hretry & Hfuel' & Hlast).
  cbn in Hcalls, Hdb.
  exists (EvSignTx SignKind tx None :: EvAddLocal SignKind txSigned (Some err)
          :: EvGetNonce account (GetNonce p account) :: evs).
  rewrite <- !app_assoc in Hcalls. cbn in Hcalls.
  split; [exact Hcalls|]. split; [exact Hdb|]. split; [solve_kinds|].
  simpl_log.
  replace (Z.to_nat (11 - retryCount)) with (S (Z.to_nat (11 - (retryCount + 1))))
    by lia.
  split; [lia|]. split; [by rewrite Htx|]. split; [exact Hfuel'|].
  intros Hl Hall. injection Hl as Hl.
  apply Forall_cons_1 in Hall as [_ Hall].
  destruct (Hlast Hl Hall) as (tx' & e & Hlst & Hres).
  exists tx', e. split; [|exact Hres].
  destruct (addLocals SignKind evs) as [|a l] eqn:Ha; [done|].
  exact Hlst.
Qed.

Lemma signLoop_attempts (reg : Registry) (chainConfig : ChainConfig)
    (wl : Wallet) (account : Address) (block : Block) (fuel : nat) :
  forall (retryCount nonce : Z) (w w' : World P G) (res : Res unit),
    1 <= retryCount <= 10 ->
    (Z.to_nat (11 - retryCount) <= fuel)%nat ->
    signLoop fuel reg chainConfig (Some wl) account block retryCount nonce w
    = (res, w') ->
    exists evs : list Event,
      calls w' = calls w ++ evs /\
      signAttempts reg chainConfig wl account block retryCount nonce evs res /\
      ((forall tx e, EvSignTx SignKind tx (Some e) ∉ evs) ->
       Forall failed (addLocals SignKind evs) ->
       length (addLocals SignKind evs) = Z.to_nat (11 - retryCount)).
Proof.
  induction fuel as [|fuel IH]; intros retryCount nonce w w' res Hc Hfuel Hrun;
    [lia|].
  cbn [signLoop] in Hrun.
  unfold walletSignTx, mbind, M_bind in Hrun. cbn [deref] in Hrun.
  unfold mret, M_ret in Hrun.
  set (tx := CreateTxSign reg (BlockNumber block) (BlockHash block) nonce
               (BlockSigners reg)) in Hrun.
  destruct (SignTx wl account tx (ChainId chainConfig)) as [err|txSigned]
    eqn:Hsign; cbn in Hrun.
  { injection Hrun as <- <-. eexists [_]. split; [done|].
    split; [cbn; fold tx; rewrite Hsign; done|].
    intros Hno _. exfalso. apply (Hno tx err), list_elem_of_here. }
  unfold poolAddLocal in Hrun. cbn in Hrun.
  destruct (AddLocal (pool w) txSigned) as [p [err|]] eqn:Hadd; cbn in Hrun.
  2:{ injection Hrun as <- <-. eexists [_; _].
      split; [cbn; by rewrite <- app_assoc|].
      split; [cbn; fold tx; rewrite Hsign; done|].
      intros _ Hall. simpl_log.
      apply Forall_cons_1 in Hall as [[? Hf] _]. done. }
  destruct (Z.leb_spec 10 retryCount) as [Hlast|Hmore].
  { cbn in Hrun. injection Hrun as <- <-. eexists [_; _; _].
    split; [cbn; by rewrite <- !app_assoc|].
    split.
    - cbn. fold tx. rewrite Hsign.
      assert ((10 <=? retryCount) = true) as -> by lia. done.
    - intros _ _. simpl_log. lia. }
  apply IH in Hrun; [|lia|lia].
  destruct Hrun as (evs & Hcalls & Hgram & Hlive).
  cbn in Hcalls.
  exists (EvSignTx SignKind tx None :: EvAddLocal SignKind txSigned (Some err)
          :: EvGetNonce account (GetNonce p account) :: evs).
  rewrite <- !app_assoc in Hcalls. cbn in Hcalls.
  split; [exact Hcalls|]. split.
  - cbn. fold tx. rewrite Hsign.
    assert ((10 <=? retryCount) = false) as -> by lia. done.
  - intros Hno Hall. simpl_log.
    apply Forall_cons_1 in Hall as [_ Hall].
    rewrite Hlive; [lia| |exact Hall].
    intros tx' e Hin. apply (Hno tx' e).
    by do 3 apply list_elem_of_further.
Qed.

Lemma signLoop_nil_wallet (reg : Registry) (chainConfig : ChainConfig)
    (account : Address) (block : Block) (fuel : nat) (retryCount nonce : Z)
    (w : World P G) :
  fuel <> O ->
  signLoop fuel reg chainConfig None account block retryCount nonce w
  = (Panic, w).
Proof. destruct fuel as [|fuel]; [done|]. reflexivity. Qed.

Lemma signOnly_kindOnly (ev : Event) : signOnly ev <-> kindOnly SignKind ev.
Proof. reflexivity. Qed.

Lemma hasKind_app (kind : TxKind) (evs1 evs2 : list Event) :
  hasKind kind (evs1 ++ evs2) = hasKind kind evs1 || hasKind kind evs2.
Proof. unfold hasKind. apply existsb_app. Qed.

Lemma addLocals_app (kind : TxKind) (evs1 evs2 : list Event) :
  addLocals kind (evs1 ++ evs2) = addLocals kind evs1 ++ addLocals kind evs2.
Proof.
  induction evs1 as [|ev evs1 IH]; [done|].
  destruct ev as [a n|k tx r|k tx r]; cbn; try exact IH.
  destruct (bool_decide (k = kind)); [|exact IH].
  cbn. by rewrite IH.
Qed.

Lemma kindOnly_hasKind (kind kind' : TxKind) (evs : list Event) :
  kind <> kind' -> Forall (kindOnly kind) evs -> hasKind kind' evs = false.
Proof.
  intros Hne Hall. induction Hall as [|ev evs Hev _ IH]; [done|].
  change (hasKind kind' (ev :: evs))
    with (bool_decide (kindOf ev = Some kind') || hasKind kind' evs).
  rewrite IH, orb_false_r. apply bool_decide_eq_false_2.
  destruct Hev as [Hev|Hev]; rewrite Hev; congruence.
Qed.

Lemma kindOnly_addLocals (kind kind' : TxKind) (evs : list Event) :
  kind <> kind' -> Forall (kindOnly kind) evs -> addLocals kind' evs = [].
Proof.
  intros Hne Hall. induction Hall as [|ev evs Hev _ IH]; [done|].
  destruct ev as [a n|k tx r|k tx r]; cbn; try exact IH.
  rewrite bool_decide_eq_false_2; [exact IH|].
  destruct Hev as [Hev|Hev]; cbn in Hev; congruence.
Qed.

Lemma runs_bind {A B} (kind : TxKind) (n1 n2 : nat) (m : M (World P G) A)
    (k : A -> M (World P G) B) :
  runs kind n1 m -> (forall a, runs kind n2 (k a)) ->
  runs kind (n1 + n2) (m ≫= k).
Proof.
  intros Hm Hk w w' res Hrun. unfold mbind, M_bind in Hrun.
  destruct (m w) as [r1 w1] eqn:Hm1.
  destruct (Hm _ _ _ Hm1) as (evs1 & Hc1 & Hk1 & Hl1 & Hf1).
  destruct r1 as [a| | |];
    try (injection Hrun as <- <-; exists evs1; repeat split;
         [done|done|lia|done]).
  destruct (Hk a _ _ _ Hrun) as (evs2 & Hc2 & Hk2 & Hl2 & Hf2).
  exists (evs1 ++ evs2). rewrite Hc2, Hc1, app_assoc.
  split; [done|]. split; [by apply Forall_app|].
  rewrite addLocals_app, length_app. split; [lia|done].
Qed.

Lemma runs_mono {A} (kind : TxKind) (n1 n2 : nat) (m : M (World P G) A) :
  (n1 <= n2)%nat -> runs kind n1 m -> runs kind n2 m.
Proof.
  intros Hle Hm w w' res Hrun.
  destruct (Hm _ _ _ Hrun) as (evs & ? & ? & ? & ?).
  exists evs. repeat split; [done|done|lia|done].
Qed.

Lemma silent_runs {A} (kind : TxKind) (m : M (World P G) A) :
  silent m -> runs kind 0 m.
Proof.
  intros Hm w w' res Hrun. destruct (Hm _ _ _ Hrun) as [Hc Hf].
  exists []. rewrite app_nil_r. repeat split; [done|solve_kinds|done|done].
Qed.

Lemma silent_bind {A B} (m : M (World P G) A) (k : A -> M (World P G) B) :
  silent m -> (forall a, silent (k a)) -> silent (m ≫= k).
Proof.
  intros Hm Hk w w' res Hrun. unfold mbind, M_bind in Hrun.
  destruct (m w) as [r1 w1] eqn:Hm1.
  destruct (Hm _ _ _ Hm1) as [Hc1 Hf1].
  destruct r1 as [a| | |]; try (injection Hrun as <- <-; done).
  destruct (Hk a _ _ _ Hrun) as [Hc2 Hf2]. split; [congruence|done].
Qed.

Lemma silent_mret {A} (a : A) : silent (mret a : M (World P G) A).
Proof. intros w w' res [= <- <-]. done. Qed.

Lemma silent_returnErr {A} (e : error) : silent (returnErr e : M (World P G) A).
Proof. intros w w' res [= <- <-]. done. Qed.

Lemma silent_panic {A} : silent (panic : M (World P G) A).
Proof. intros w w' res [= <- <-]. done. Qed.

Lemma silent_liftRes {A} (r : Res A) :
  r <> OutOfFuel -> silent (liftRes r : M (World P G) A).
Proof. intros Hr w w' res [= <- <-]. done. Qed.

Lemma silent_seedFromClock : silent (seedFromClock : M (World P G) unit).
Proof. intros w w' res [= <- <-]. done. Qed.

Lemma silent_randIntn (n : Z) : silent (randIntn n : M (World P G) Z).
Proof.
  intros w w' res. unfold randIntn, Intn.
  destruct (n <=? 0); [intros [= <- <-]; done|].
  destruct (draw (rng w) n). intros [= <- <-]. done.
Qed.

Lemma silent_encryptM (key text : list byte) :
  silent (encryptM key text : M (World P G) (list byte)).
Proof. intros w w' res [= <- <-]. done. Qed.

Lemma silent_dbHas (key : string) : silent (dbHas key : M (World P G) bool).
Proof. intros w w' res [= <- <-]. done. Qed.

Lemma silent_dbGet (key : string) :
  silent (dbGet key : M (World P G) (list byte)).
Proof.
  intros w w' res. unfold dbGet.
  destruct (chainDb w !! key); intros [= <- <-]; done.
Qed.

Lemma silent_dbPut (key : string) (v : list byte) :
  silent (dbPut key v : M (World P G) unit).
Proof. intros w w' res [= <- <-]. done. Qed.

Lemma silent_dbDelete (key : string) :
  silent (dbDelete key : M (World P G) unit).
Proof. intros w w' res [= <- <-]. done. Qed.

Lemma silent_umod (a b : Z) : silent (umod a b : M (World P G) Z).
Proof.
  intros w w' res. unfold umod. destruct (b =? 0); intros [= <- <-]; done.
Qed.

Lemma index_fuel {A} (s : list A) (i : Z) : index s i <> OutOfFuel.
Proof.
  unfold index. destruct (i <? 0); [done|]. by destruct (s !! Z.to_nat i).
Qed.

Lemma silent_RandStringByte (n : nat) :
  silent (RandStringByte n : M (World P G) (list byte)).
Proof.
  induction n as [|n IH]; [apply silent_mret|].
  cbn [RandStringByte].
  apply silent_bind; [apply silent_seedFromClock|intros _].
  apply silent_bind; [apply silent_randIntn|intros r].
  apply silent_bind; [apply silent_liftRes, index_fuel|intros c].
  apply silent_bind; [exact IH|intros rest]. apply silent_mret.
Qed.

Lemma silent_BuildTxSecretRandomize (reg : Registry) (nonce : Z)
    (randomizeAddr : Address) (epocNumber : Z) (randomizeKey : list byte) :
  silent (BuildTxSecretRandomize reg nonce randomizeAddr epocNumber
            randomizeKey : M (World P G) Transaction).
Proof.
  unfold BuildTxSecretRandomize.
  apply silent_bind; [apply silent_seedFromClock|intros _].
  apply silent_bind; [apply silent_randIntn|intros r].
  apply silent_bind; [|intros ?; apply silent_mret].
  cbn [foldlM].
  apply silent_bind; [|intros ?; apply silent_mret].
  apply silent_bind; [apply silent_encryptM|intros ?; apply silent_mret].
Qed.

Lemma silent_BuildTxOpeningRandomize (reg : Registry) (nonce : Z)
    (randomizeAddr : Address) (randomizeKey : list byte) :
  silent (BuildTxOpeningRandomize reg nonce randomizeAddr randomizeKey
          : M (World P G) Transaction).
Proof. apply silent_mret. Qed.

Lemma runs_poolGetNonce (kind : TxKind) (account : Address) :
  runs kind 0 (poolGetNonce account : M (World P G) Z).
Proof.
  intros w w' res [= <- <-]. eexists [_]. split; [reflexivity|].
  simpl_log. repeat split; [solve_kinds|lia|done].
Qed.

Lemma runs_walletSignTx (kind : TxKind) (wallet : option Wallet)
    (account : Address) (tx : Transaction) (chainID : Z) :
  runs kind 0 (walletSignTx kind wallet account tx chainID
               : M (World P G) Transaction).
Proof.
  intros w w' res. unfold walletSignTx, mbind, M_bind.
  destruct wallet as [wl|]; cbn.
  2:{ intros [= <- <-]. exists []. rewrite app_nil_r.
      split; [reflexivity|]. simpl_log.
      repeat split; [solve_kinds|lia|done]. }
  destruct (SignTx wl account tx chainID); intros [= <- <-];
    eexists [_]; (split; [reflexivity|]); simpl_log;
    (repeat split; [solve_kinds|lia|done]).
Qed.

Lemma runs_poolAddLocal (kind : TxKind) (tx : Transaction) :
  runs kind 1 (poolAddLocal kind tx : M (World P G) (option error)).
Proof.
  intros w w' res. unfold poolAddLocal.
  destruct (AddLocal (pool w) tx) as [p err]. intros [= <- <-].
  eexists [_]. split; [reflexivity|]. simpl_log.
  repeat split; [solve_kinds|lia|done].
Qed.

Lemma runs_setSecret (reg : Registry) (chainConfig : ChainConfig)
    (s2pos : S2PoSConfig) (wallet : option Wallet) (account : Address) :
  runs SecretKind 1 (setSecret reg chainConfig s2pos wallet account
                     : M (World P G) unit).
Proof.
  unfold setSecret.
  apply (runs_bind _ 0 1); [apply silent_runs, silent_RandStringByte|intros key].
  apply (runs_bind _ 0 1); [apply runs_poolGetNonce|intros nonce].
  apply (runs_bind _ 0 1);
    [apply silent_runs, silent_BuildTxSecretRandomize|intros tx].
  apply (runs_bind _ 0 1); [apply runs_walletSignTx|intros txSigned].
  apply (runs_bind _ 1 0); [apply runs_poolAddLocal|intros [err|]].
  - apply silent_runs, silent_returnErr.
  - apply silent_runs, silent_dbPut.
Qed.

Lemma runs_setOpening (reg : Registry) (chainConfig : ChainConfig)
    (wallet : option Wallet) (account : Address) :
  runs OpeningKind 1 (setOpening reg chainConfig wallet account
                      : M (World P G) unit).
Proof.
  unfold setOpening.
  apply (runs_bind _ 0 1); [apply silent_runs, silent_dbGet|intros key].
  apply (runs_bind _ 0 1); [apply runs_poolGetNonce|intros nonce].
  apply (runs_bind _ 0 1);
    [apply silent_runs, silent_BuildTxOpeningRandomize|intros tx].
  apply (runs_bind _ 0 1); [apply runs_walletSignTx|intros txSigned].
  apply (runs_bind _ 1 0); [apply runs_poolAddLocal|intros [err|]].
  - apply silent_runs, silent_returnErr.
  - apply silent_runs, silent_dbDelete.
Qed.

(** Whatever the fuel, the retry loop only signs and submits sign
    transactions and leaves the local store alone. *)
Lemma signLoop_frame (reg : Registry) (chainConfig : ChainConfig)
    (wallet : option Wallet) (account : Address) (block : Block) (fuel : nat) :
  forall (retryCount nonce : Z) (w w' : World P G) (res : Res unit),
    signLoop fuel reg chainConfig wallet account block retryCount nonce w
    = (res, w') ->
    exists evs : list Event,
      calls w' = calls w ++ evs /\
      chainDb w' = chainDb w /\
      Forall (kindOnly SignKind) evs.
Proof.
  induction fuel as [|fuel IH]; intros retryCount nonce w w' res Hrun.
  { injection Hrun as <- <-. exists []. by rewrite app_nil_r. }
  cbn [signLoop] in Hrun.
  set (tx := CreateTxSign reg (BlockNumber block) (BlockHash block) nonce
               (BlockSigners reg)) in Hrun.
  clearbody tx.
  unfold walletSignTx, mbind, M_bind in Hrun.
  destruct wallet as [wl|]; cbn in Hrun.
  2:{ injection Hrun as <- <-. exists []. by rewrite app_nil_r. }
  destruct (SignTx wl account tx (ChainId chainConfig)) as [err|txSigned];
    cbn in Hrun.
  { injection Hrun as <- <-. eexists [_].
    split; [done|]. split; [done|]. solve_kinds. }
  unfold poolAddLocal in Hrun. cbn in Hrun.
  destruct (AddLocal (pool w) txSigned) as [p [err|]] eqn:Hadd; cbn in Hrun.
  2:{ injection Hrun as <- <-. eexists [_; _].
      split; [cbn; by rewrite <- app_assoc|]. split; [done|]. solve_kinds. }
  destruct (10 <=? retryCount).
  { cbn in Hrun. injection Hrun as <- <-. eexists [_; _; _].
    split; [cbn; by rewrite <- !app_assoc|]. split; [done|]. solve_kinds. }
  apply IH in Hrun. destruct Hrun as (evs & Hcalls & Hdb & Hkinds).
  cbn in Hcalls, Hdb.
  exists (EvSignTx SignKind tx None :: EvAddLocal SignKind txSigned (Some err)
          :: EvGetNonce account (GetNonce p account) :: evs).
  rewrite <- !app_assoc in Hcalls. cbn in Hcalls.
  split; [exact Hcalls|]. split; [exact Hdb|]. solve_kinds.
Qed.

(** A successful reveal removes the persisted key. *)
Lemma setOpening_deletes (reg : Registry) (chainConfig : ChainConfig)
    (wallet : option Wallet) (account : Address) (w w' : World P G)
    (res : Res unit) (evs : list Event) :
  setOpening reg chainConfig wallet account w = (res, w') ->
  calls w' = calls w ++ evs ->
  forall tx, (tx, None) ∈ addLocals OpeningKind evs ->
             chainDb w' !! randomizeKeyName = None.
Proof.
  unfold setOpening, BuildTxOpeningRandomize, walletSignTx, poolAddLocal,
    poolGetNonce, setPool, record, dbGet, deref, mbind, M_bind, mret, M_ret.
  intros Hrun Hcalls tx Htx.
  assert (Hnil : forall l : list Event, l = l ++ evs -> evs = []).
  { intros l Hl. rewrite <- (app_nil_r l) in Hl at 1.
    by apply app_inv_head in Hl. }
  destruct (chainDb w !! randomizeKeyName) as [key|]; cbn in Hrun.
  2:{ injection Hrun as <- <-. apply Hnil in Hcalls.
      subst evs. by apply elem_of_nil in Htx. }
  destruct wallet as [wl|]; cbn in Hrun.
  2:{ injection Hrun as <- <-. cbn in Hcalls. apply app_inv_head in Hcalls.
      subst evs. by apply elem_of_nil in Htx. }
  match type of Hrun with
  | context [SignTx ?a ?b ?c ?d] =>
    destruct (SignTx a b c d) as [err|txSigned]; cbn in Hrun
  end.
  { injection Hrun as <- <-. cbn in Hcalls. rewrite <- app_assoc in Hcalls.
    apply app_inv_head in Hcalls. subst evs. by apply elem_of_nil in Htx. }
  destruct (AddLocal (pool w) txSigned) as [p [err|]]; cbn in Hrun;
    injection Hrun as <- <-; cbn in Hcalls |- *.
  - rewrite <- !app_assoc in Hcalls. apply app_inv_head in Hcalls. subst evs.
    revert Htx. simpl_log. rewrite list_elem_of_singleton. congruence.
  - apply lookup_delete_eq.
Qed.

Lemma secretBranch_openingBranch (cs : common.Constants) (exist : bool)
    (checkNumber : Z) :
  secretBranch cs exist checkNumber = true ->
  openingBranch cs exist checkNumber = false.
Proof.
  unfold secretBranch, openingBranch. destruct exist; [done|]. done.
Qed.

Lemma CreateTransactionSign_run (fuel : nat) (cs : common.Constants)
    (reg : Registry) (chainConfig : ChainConfig) (manager : Manager)
    (block : Block) (eb : Address) (s2pos : S2PoSConfig)
    (w w' : World P G) (res : Res unit) :
  S2PoS chainConfig = Some s2pos ->
  CreateTransactionSign fuel cs reg chainConfig manager block eb w = (res, w') ->
  let wallet := (findAccount manager eb).1 in
  let account := (findAccount manager eb).2 in
  let nonce := GetNonce (pool w) account in
  exists (w0 wl : World P G) (resl : Res unit) (evsSign evsRest : list Event),
    calls w0 = calls w ++ [EvGetNonce account nonce] /\
    signLoop fuel reg chainConfig wallet account block 1 nonce w0 = (resl, wl) /\
    calls wl = calls w0 ++ evsSign /\
    Forall (kindOnly SignKind) evsSign /\
    calls w' = calls wl ++ evsRest /\
    (resl <> Ok tt -> res = resl /\ evsRest = []) /\
    (res = OutOfFuel -> resl = OutOfFuel) /\
    afterSign cs block s2pos w w' evsRest.
Proof.
  intros Hs2 Hrun. unfold CreateTransactionSign in Hrun. rewrite Hs2 in Hrun.
  destruct (findAccount manager eb) as [wallet account]. cbn [fst snd].
  unfold mbind, M_bind in Hrun. cbn [poolGetNonce] in Hrun.
  unfold poolGetNonce, record, mbind, M_bind, mret, M_ret in Hrun.
  match type of Hrun with
  | context [signLoop ?f ?r ?c ?wa ?a ?b ?rc ?n ?w0] =>
    exists w0; destruct (signLoop f r c wa a b rc n w0) as [resl wl] eqn:Hloop
  end.
  exists wl, resl.
  destruct (signLoop_frame _ _ _ _ _ _ _ _ _ _ _ Hloop)
    as (evsSign & Hcl & Hdbl & Hkl).
  cbn in Hdbl.
  exists evsSign.
  assert (Hstop : forall w1 : World P G, calls w1 = calls w1 ++ []).
  { intros w1. by rewrite app_nil_r. }
  destruct resl as [[]| | |].
  2,3,4: injection Hrun as <- <-; exists []; split_and!;
         [reflexivity|reflexivity|exact Hcl|exact Hkl|apply Hstop|done|done
         |by left].
  unfold umod in Hrun.
  destruct (Epoch s2pos =? 0) eqn:Hep.
  { injection Hrun as <- <-. exists []. split_and!;
      [reflexivity|reflexivity|exact Hcl|exact Hkl|apply Hstop|done|done
      |by left]. }
  unfold dbHas, mret, M_ret in Hrun. cbv beta iota zeta in Hrun.
  rewrite Hdbl in Hrun.
  fold (checkNumberOf block s2pos) in Hrun.
  set (exist := bool_decide (is_Some (chainDb w !! randomizeKeyName))) in *.
  set (cn := checkNumberOf block s2pos) in *.
  destruct (secretBranch cs exist cn) eqn:Hsec.
  - rewrite (secretBranch_openingBranch _ _ _ Hsec) in Hrun.
    destruct (setSecret reg chainConfig s2pos wallet account wl)
      as [r2 w2] eqn:Hset.
    destruct (runs_setSecret _ _ _ _ _ _ _ _ Hset) as (evs2 & Hc2 & Hk2 & Hl2 & Hf2).
    assert (Hw' : w' = w2 /\ (res = OutOfFuel -> False)).
    { destruct r2 as [[]| | |]; injection Hrun as <- <-; done. }
    destruct Hw' as [-> Hres].
    exists evs2. split_and!;
      [reflexivity|reflexivity|exact Hcl|exact Hkl|exact Hc2|done
      |intros ?; tauto|].
    right; left. done.
  - unfold mret, M_ret in Hrun. cbv beta iota zeta in Hrun.
    destruct (openingBranch cs exist cn) eqn:Hop.
    + destruct (runs_setOpening _ _ _ _ _ _ _ Hrun)
        as (evs3 & Hc3 & Hk3 & Hl3 & Hf3).
      exists evs3. split_and!;
        [reflexivity|reflexivity|exact Hcl|exact Hkl|exact Hc3|done
        |intros ?; tauto|].
      right; right. split_and!; [done|done|done|].
      intros tx Htx. eapply setOpening_deletes; eauto.
    + injection Hrun as <- <-. exists []. split_and!;
        [reflexivity|reflexivity|exact Hcl|exact Hkl|apply Hstop|done|done
        |by left].
Qed.

(** C8. In a call of [CreateTransactionSign] a secret transaction and an
    opening transaction are never both built: among the calls made, those of
    one of the two kinds are absent, and at most one such transaction is
    submitted.  A secret transaction is built only when no [randomizeKey]
    is persisted at entry and [checkNumber], the block number modulo
    [Epoch], is positive with [EpocBlockSecret <= checkNumber <
    EpocBlockOpening] (so never while an unrevealed key is persisted); an
    opening transaction only when a key is persisted and [EpocBlockOpening
    <= checkNumber <= EpocBlockRandomize]; once the opening is accepted by
    the pool the persisted key is gone. *)
Theorem CreateTransactionSign_secret_or_opening (fuel : nat)
    (cs : common.Constants) (reg : Registry) (chainConfig : ChainConfig)
    (manager : Manager) (block : Block) (eb : Address) (w : World P G) :
  let '(res, w') :=
    CreateTransactionSign fuel cs reg chainConfig manager block eb w in
  exists evs : list Event,
    calls w' = calls w ++ evs /\
    hasKind SecretKind evs && hasKind OpeningKind evs = false /\
    (length (addLocals SecretKind evs) + length (addLocals OpeningKind evs)
     <= 1)%nat /\
    (hasKind SecretKind evs = true ->
     exists s2pos, S2PoS chainConfig = Some s2pos /\
       chainDb w !! randomizeKeyName = None /\
       0 < checkNumberOf block s2pos /\
       common.EpocBlockSecret cs <= checkNumberOf block s2pos /\
       checkNumberOf block s2pos < common.EpocBlockOpening cs) /\
    (hasKind OpeningKind evs = true ->
     exists s2pos, S2PoS chainConfig = Some s2pos /\
       is_Some (chainDb w !! randomizeKeyName) /\
       common.EpocBlockOpening cs <= checkNumberOf block s2pos /\
       checkNumberOf block s2pos <= common.EpocBlockRandomize cs) /\
    (forall tx, (tx, None) ∈ addLocals OpeningKind evs ->
                chainDb w' !! randomizeKeyName = None).
Proof.
  destruct (CreateTransactionSign fuel cs reg chainConfig manager block eb w)
    as [res w'] eqn:Hrun.
  destruct (S2PoS chainConfig) as [s2pos|] eqn:Hs2.
  2:{ unfold CreateTransactionSign in Hrun. rewrite Hs2 in Hrun.
      injection Hrun as <- <-. exists []. rewrite app_nil_r.
      split_and!; [done|done|cbn; lia|done|done|].
      intros tx Htx. by apply elem_of_nil in Htx. }
  destruct (CreateTransactionSign_run _ _ _ _ _ _ _ _ _ _ _ Hs2 Hrun)
    as (w0 & wl & resl & evsSign & evsRest & Hc0 & _ & Hcl & Hkl & Hc'
        & _ & _ & Hafter).
  exists ((EvGetNonce (findAccount manager eb).2
             (GetNonce (pool w) (findAccount manager eb).2) :: evsSign)
          ++ evsRest).
  assert (Hsign : Forall (kindOnly SignKind)
            (EvGetNonce (findAccount manager eb).2
               (GetNonce (pool w) (findAccount manager eb).2) :: evsSign))
    by solve_kinds.
  split.
  { rewrite Hc', Hcl, Hc0, <- !app_assoc. done. }
  rewrite !hasKind_app, !addLocals_app, !length_app.
  rewrite (kindOnly_hasKind SignKind SecretKind _ ltac:(done) Hsign).
  rewrite (kindOnly_hasKind SignKind OpeningKind _ ltac:(done) Hsign).
  rewrite (kindOnly_addLocals SignKind SecretKind _ ltac:(done) Hsign).
  rewrite (kindOnly_addLocals SignKind OpeningKind _ ltac:(done) Hsign).
  cbn [orb length Nat.add app].
  destruct Hafter as [-> | [(Hb & Hk & Hl) | (Hb & Hk & Hl & Hdel)]].
  - split_and!; [done|cbn; lia|done|done|].
    intros tx Htx. by apply elem_of_nil in Htx.
  - rewrite (kindOnly_hasKind SecretKind OpeningKind _ ltac:(done) Hk).
    rewrite (kindOnly_addLocals SecretKind OpeningKind _ ltac:(done) Hk).
    split_and!; [apply andb_false_r|cbn; lia| |done|].
    + intros _. exists s2pos. split; [done|].
      unfold secretBranch in Hb.
      apply andb_prop in Hb as [Hb H4]. apply andb_prop in Hb as [Hb H3].
      apply andb_prop in Hb as [H1' H2].
      apply negb_true_iff, bool_decide_eq_false in H1'.
      split; [by apply eq_None_not_Some|]. lia.
    + intros tx Htx. by apply elem_of_nil in Htx.
  - rewrite (kindOnly_hasKind OpeningKind SecretKind _ ltac:(done) Hk).
    rewrite (kindOnly_addLocals OpeningKind SecretKind _ ltac:(done) Hk).
    split_and!; [done|cbn; lia|done| |exact Hdel].
    intros _. exists s2pos. split; [done|].
    unfold openingBranch in Hb.
    apply andb_prop in Hb as [Hb H4]. apply andb_prop in Hb as [Hb H3].
    apply andb_prop in Hb as [H1' H2].
    apply bool_decide_eq_true in H1'.
    split; [done|]. lia.
Qed.

(** C9. With fuel for ten rounds the call never runs out of fuel and
    submits the sign transaction to the pool at most 10 times.  After the
    reading of the nonce at entry, the calls of the retry loop are the
    attempts in their order: each attempt is the signing transaction built
    with the nonce in force, signed by the wallet and submitted to the
    pool; a rejected submission is followed by a new reading of the
    account's nonce, which the next attempt is built with; the loop ends
    with the first accepted submission, with a refusal of the wallet, or
    after the tenth rejection, and in the last two cases the call returns
    that error and does nothing else.  So when the wallet signs every
    attempt and the pool accepts none, exactly 10 submissions are made, and
    when 10 submissions were made and all failed, the call returns the
    error of the last one. *)
Theorem CreateTransactionSign_retries (fuel : nat) (cs : common.Constants)
    (reg : Registry) (chainConfig : ChainConfig) (manager : Manager)
    (block : Block) (eb : Address) (w : World P G) :
  (10 <= fuel)%nat ->
  let wallet := (findAccount manager eb).1 in
  let account := (findAccount manager eb).2 in
  let nonce := GetNonce (pool w) account in
  let '(res, w') :=
    CreateTransactionSign fuel cs reg chainConfig manager block eb w in
  res <> OutOfFuel /\
  exists evs : list Event,
    calls w' = calls w ++ evs /\
    (length (addLocals SignKind evs) <= 10)%nat /\
    (length (addLocals SignKind evs) = 10%nat ->
     Forall failed (addLocals SignKind evs) ->
     exists tx e, last (addLocals SignKind evs) = Some (tx, Some e) /\
                  res = Err e) /\
    (is_Some (S2PoS chainConfig) ->
     exists (evsSign evsRest : list Event) (resSign : Res unit),
       evs = EvGetNonce account nonce :: evsSign ++ evsRest /\
       match wallet with
       | Some wl =>
         signAttempts reg chainConfig wl account block 1 nonce evsSign resSign
       | None => evsSign = [] /\ resSign = Panic
       end /\
       hasKind SignKind evsRest = false /\
       (resSign <> Ok tt -> evsRest = [] /\ res = resSign) /\
       (is_Some wallet ->
        (forall tx e, EvSignTx SignKind tx (Some e) ∉ evs) ->
        Forall failed (addLocals SignKind evs) ->
        length (addLocals SignKind evs) = 10%nat)).
Proof.
  intros Hfuel wallet account nonce.
  destruct (CreateTransactionSign fuel cs reg chainConfig manager block eb w)
    as [res w'] eqn:Hrun.
  destruct (S2PoS chainConfig) as [s2pos|] eqn:Hs2.
  2:{ unfold CreateTransactionSign in Hrun. rewrite Hs2 in Hrun.
      injection Hrun as <- <-. split; [done|].
      exists []. rewrite app_nil_r.
      split_and!; [done|cbn; lia|cbn; lia|]. intros [? ?]; done. }
  destruct (CreateTransactionSign_run _ _ _ _ _ _ _ _ _ _ _ Hs2 Hrun)
    as (w0 & wl & resl & evsSign & evsRest & Hc0 & Hloop & Hcl & Hkl & Hc'
        & Hstop & Hout & Hafter).
  fold wallet account nonce in Hc0, Hloop.
  pose proof Hloop as Hloop'.
  apply signLoop_post in Hloop; [|lia|cbn; lia].
  destruct Hloop as (evs1 & Hc1 & _ & _ & Hlen & _ & Hf & Hlast).
  assert (evs1 = evsSign) as ->.
  { rewrite Hcl in Hc1. by apply app_inv_head in Hc1. }
  assert (Hrest : hasKind SignKind evsRest = false
                  /\ addLocals SignKind evsRest = []).
  { destruct Hafter as [-> | [(_ & Hk & _) | (_ & Hk & _)]]; [done| |].
    - split; [eapply kindOnly_hasKind|eapply kindOnly_addLocals]; eauto; done.
    - split; [eapply kindOnly_hasKind|eapply kindOnly_addLocals]; eauto; done. }
  destruct Hrest as [Hrest1 Hrest2].
  split; [intros Hres; by apply Hf, Hout|].
  exists (EvGetNonce account nonce :: evsSign ++ evsRest).
  split; [rewrite Hc', Hcl, Hc0, <- !app_assoc; done|].
  rewrite addLocals_GetNonce, addLocals_app, Hrest2, app_nil_r.
  change (Z.to_nat (11 - 1)) with 10%nat in *.
  split; [exact Hlen|]. split.
  { intros Hl Hall. destruct (Hlast Hl Hall) as (tx & e & Hlst & Hres).
    exists tx, e. split; [exact Hlst|].
    destruct (Hstop ltac:(by rewrite Hres)) as [-> _]. exact Hres. }
  intros _. exists evsSign, evsRest, resl.
  split; [done|].
  assert (Hstop' : resl <> Ok tt -> evsRest = [] /\ res = resl).
  { intros Hne. by destruct (Hstop Hne) as [-> ->]. }
  destruct wallet as [wlt|] eqn:Hwallet.
  - apply signLoop_attempts in Hloop'; [|lia|cbn; lia].
    destruct Hloop' as (evs2 & Hc2 & Hgram & Hlive).
    assert (evs2 = evsSign) as ->.
    { rewrite Hcl in Hc2. by apply app_inv_head in Hc2. }
    split; [exact Hgram|]. split; [exact Hrest1|]. split; [exact Hstop'|].
    intros _ Hno Hall. apply Hlive; [|exact Hall].
    intros tx e Hin. apply (Hno tx e).
    apply list_elem_of_further, elem_of_app. by left.
  - rewrite signLoop_nil_wallet in Hloop' by lia.
    injection Hloop' as <- <-.
    assert (evsSign = []) as ->.
    { rewrite <- (app_nil_r (calls w0)) in Hcl at 1.
      by apply app_inv_head in Hcl. }
    split; [done|]. split; [exact Hrest1|]. split; [exact Hstop'|].
    intros [? ?]; done.
Qed.

End TransactionSignProofs.

(** ** Checkpoint rewards *)

Example GetRewardForCheckpoint_run :
  GetRewardForCheckpoint 10 sampleConstants (sampleChain (-1)) (sampleHeader 4)
    2 (mkRewardState tt 0)
  = (Ok (<[11%N := mkRewardLog 2 0]> {[12%N := mkRewardLog 1 0]}),
     mkRewardState tt 3).
Proof. vm_compute. reflexivity. Qed.

Example GetRewardForCheckpoint_run_missing :
  GetRewardForCheckpoint 10 sampleConstants (sampleChain 2) (sampleHeader 4)
    2 (mkRewardState tt 0)
  = (Panic, mkRewardState tt 0).
Proof. vm_compute. reflexivity. Qed.

Section CheckpointProofs.
Context {C R : Type} `{Engine C R}.

Lemma noErr_bind {A B} (m : M (RewardState C) A) (k : A -> M (RewardState C) B) :
  noErr m -> (forall a, noErr (k a)) -> noErr (m ≫= k).
Proof.
  intros Hm Hk st st' res Hrun e. unfold mbind, M_bind in Hrun.
  destruct (m st) as [r1 st1] eqn:Hm1.
  pose proof (Hm _ _ _ Hm1) as Hr1.
  destruct r1 as [a|e1| |]; try (injection Hrun as <- <-; done).
  - eapply Hk; eauto.
  - by destruct (Hr1 e1).
Qed.

Lemma keepsTotal_bind {A B} (m : M (RewardState C) A)
    (k : A -> M (RewardState C) B) :
  keepsTotal m -> (forall a, keepsTotal (k a)) -> keepsTotal (m ≫= k).
Proof.
  intros Hm Hk st st' res Hrun. unfold mbind, M_bind in Hrun.
  destruct (m st) as [r1 st1] eqn:Hm1.
  pose proof (Hm _ _ _ Hm1) as Hr1.
  destruct r1 as [a|e1| |]; try (injection Hrun as <- <-; done).
  rewrite <- Hr1. eapply Hk; eauto.
Qed.

Lemma noErr_mret {A} (a : A) : noErr (mret a : M (RewardState C) A).
Proof. intros st st' res [= <- <-] e. done. Qed.

Lemma keepsTotal_mret {A} (a : A) : keepsTotal (mret a : M (RewardState C) A).
Proof. intros st st' res [= <- <-]. done. Qed.

Lemma noErr_panic {A} : noErr (panic : M (RewardState C) A).
Proof. intros st st' res [= <- <-] e. done. Qed.

Lemma keepsTotal_panic {A} : keepsTotal (panic : M (RewardState C) A).
Proof. intros st st' res [= <- <-]. done. Qed.

Lemma noErr_outOfFuel {A} : noErr (outOfFuel : M (RewardState C) A).
Proof. intros st st' res [= <- <-] e. done. Qed.

Lemma keepsTotal_outOfFuel {A} : keepsTotal (outOfFuel : M (RewardState C) A).
Proof. intros st st' res [= <- <-]. done. Qed.

Lemma noErr_deref {A} (p : option A) : noErr (deref p : M (RewardState C) A).
Proof. destruct p; [apply noErr_mret|apply noErr_panic]. Qed.

Lemma keepsTotal_deref {A} (p : option A) :
  keepsTotal (deref p : M (RewardState C) A).
Proof. destruct p; [apply keepsTotal_mret|apply keepsTotal_panic]. Qed.

Lemma noErr_getCached (hash : Hash) : noErr (getCached hash).
Proof. intros st st' res [= <- <-] e. done. Qed.

Lemma keepsTotal_getCached (hash : Hash) : keepsTotal (getCached hash).
Proof. intros st st' res [= <- <-]. done. Qed.

Lemma noErr_cacheSigning (hash : Hash) (txs : list Transaction) :
  noErr (cacheSigning hash txs).
Proof.
  intros st st' res. unfold cacheSigning.
  destruct (CacheSigningTxs _ _ _). intros [= <- <-] e. done.
Qed.

Lemma keepsTotal_cacheSigning (hash : Hash) (txs : list Transaction) :
  keepsTotal (cacheSigning hash txs).
Proof.
  intros st st' res. unfold cacheSigning.
  destruct (CacheSigningTxs _ _ _). intros [= <- <-]. done.
Qed.

Lemma noErr_cacheNoneTIPSigning (header : Header) (txs : list Transaction)
    (receipts : R) : noErr (cacheNoneTIPSigning header txs receipts).
Proof.
  intros st st' res. unfold cacheNoneTIPSigning.
  destruct (CacheNoneTIPSigningTxs _ _ _ _). intros [= <- <-] e. done.
Qed.

Lemma keepsTotal_cacheNoneTIPSigning (header : Header)
    (txs : list Transaction) (receipts : R) :
  keepsTotal (cacheNoneTIPSigning header txs receipts).
Proof.
  intros st st' res. unfold cacheNoneTIPSigning.
  destruct (CacheNoneTIPSigningTxs _ _ _ _). intros [= <- <-]. done.
Qed.

Lemma noErr_collectSigner (data : gmap Hash (list Address)) (tx : Transaction) :
  noErr (collectSigner data tx : M (RewardState C) _).
Proof.
  unfold collectSigner. destruct (_ <? 32)%nat; [apply noErr_panic|].
  apply noErr_bind; [apply noErr_deref|intros ?; apply noErr_mret].
Qed.

Lemma keepsTotal_collectSigner (data : gmap Hash (list Address))
    (tx : Transaction) :
  keepsTotal (collectSigner data tx : M (RewardState C) _).
Proof.
  unfold collectSigner. destruct (_ <? 32)%nat; [apply keepsTotal_panic|].
  apply keepsTotal_bind; [apply keepsTotal_deref|intros ?; apply keepsTotal_mret].
Qed.

Lemma noErr_foldlM {A B} (f : B -> A -> M (RewardState C) B) (l : list A) :
  (forall b a, noErr (f b a)) -> forall b, noErr (foldlM f b l).
Proof.
  intros Hf. induction l as [|a l IH]; intros b; cbn [foldlM].
  - apply noErr_mret.
  - apply noErr_bind; [apply Hf|exact IH].
Qed.

Lemma keepsTotal_foldlM {A B} (f : B -> A -> M (RewardState C) B) (l : list A) :
  (forall b a, keepsTotal (f b a)) -> forall b, keepsTotal (foldlM f b l).
Proof.
  intros Hf. induction l as [|a l IH]; intros b; cbn [foldlM].
  - apply keepsTotal_mret.
  - apply keepsTotal_bind; [apply Hf|exact IH].
Qed.

Lemma noErr_walkStep (chain : ChainReader R) (i : Z) (ws : WalkState) :
  noErr (walkStep chain i ws).
Proof.
  unfold walkStep.
  apply noErr_bind; [apply noErr_deref|intros header].
  apply noErr_bind; [apply noErr_getCached|intros cached].
  apply noErr_bind; [|intros txs].
  - destruct cached; [apply noErr_mret|].
    apply noErr_bind; [apply noErr_deref|intros block].
    destruct (negb _); [apply noErr_cacheNoneTIPSigning|apply noErr_cacheSigning].
  - apply noErr_bind; [|intros ?; apply noErr_mret].
    apply noErr_foldlM. apply noErr_collectSigner.
Qed.

Lemma keepsTotal_walkStep (chain : ChainReader R) (i : Z) (ws : WalkState) :
  keepsTotal (walkStep chain i ws).
Proof.
  unfold walkStep.
  apply keepsTotal_bind; [apply keepsTotal_deref|intros header].
  apply keepsTotal_bind; [apply keepsTotal_getCached|intros cached].
  apply keepsTotal_bind; [|intros txs].
  - destruct cached; [apply keepsTotal_mret|].
    apply keepsTotal_bind; [apply keepsTotal_deref|intros block].
    destruct (negb _);
      [apply keepsTotal_cacheNoneTIPSigning|apply keepsTotal_cacheSigning].
  - apply keepsTotal_bind; [|intros ?; apply keepsTotal_mret].
    apply keepsTotal_foldlM. apply keepsTotal_collectSigner.
Qed.

Lemma noErr_walkBack (chain : ChainReader R) (startBlockNumber : Z)
    (fuel : nat) :
  forall (i : Z) (ws : WalkState),
    noErr (walkBack fuel chain i startBlockNumber ws).
Proof.
  induction fuel as [|fuel IH]; intros i ws; cbn [walkBack];
    destruct (startBlockNumber <=? i); try apply noErr_mret.
  - apply noErr_outOfFuel.
  - apply noErr_bind; [apply noErr_walkStep|intros ws'; apply IH].
Qed.

Lemma keepsTotal_walkBack (chain : ChainReader R) (startBlockNumber : Z)
    (fuel : nat) :
  forall (i : Z) (ws : WalkState),
    keepsTotal (walkBack fuel chain i startBlockNumber ws).
Proof.
  induction fuel as [|fuel IH]; intros i ws; cbn [walkBack];
    destruct (startBlockNumber <=? i); try apply keepsTotal_mret.
  - apply keepsTotal_outOfFuel.
  - apply keepsTotal_bind; [apply keepsTotal_walkStep|intros ws'; apply IH].
Qed.

Lemma noErr_walkPhase (fuel : nat) (chain : ChainReader R) (header : Header)
    (rCheckpoint : Z) : noErr (walkPhase fuel chain header rCheckpoint).
Proof.
  unfold walkPhase.
  apply noErr_bind; [apply noErr_walkBack|intros ws].
  apply noErr_bind; [apply noErr_deref|intros h].
  apply noErr_bind; [apply noErr_deref|intros ms]. apply noErr_mret.
Qed.

Lemma keepsTotal_walkPhase (fuel : nat) (chain : ChainReader R)
    (header : Header) (rCheckpoint : Z) :
  keepsTotal (walkPhase fuel chain header rCheckpoint).
Proof.
  unfold walkPhase.
  apply keepsTotal_bind; [apply keepsTotal_walkBack|intros ws].
  apply keepsTotal_bind; [apply keepsTotal_deref|intros h].
  apply keepsTotal_bind; [apply keepsTotal_deref|intros ms].
  apply keepsTotal_mret.
Qed.

Lemma noErr_tallyStep (cs : common.Constants) (chain : ChainReader R)
    (epoch : Z) (masternodes : list Address) (mapBlkHash : gmap Z Hash)
    (data : gmap Hash (list Address)) (i : Z)
    (signers : gmap Address rewardLog) :
  noErr (tallyStep cs chain epoch masternodes mapBlkHash data i signers
         : M (RewardState C) _).
Proof.
  unfold tallyStep. apply noErr_bind.
  - unfold eligibleM. destruct (epoch =? 0); [apply noErr_panic|].
    destruct (_ <? _); [apply noErr_mret|].
    destruct (_ =? 0); [apply noErr_panic|apply noErr_mret].
  - intros [|]; [|apply noErr_mret].
    destruct (0 <? _)%nat; [|apply noErr_mret].
    intros st st' res. unfold creditSigners.
    destruct (set_fold _ _ _). intros [= <- <-] e. done.
Qed.

Lemma noErr_tally (cs : common.Constants) (chain : ChainReader R)
    (epoch : Z) (masternodes : list Address) (mapBlkHash : gmap Z Hash)
    (data : gmap Hash (list Address)) (endBlockNumber : Z) (fuel : nat) :
  forall (i : Z) (signers : gmap Address rewardLog),
    noErr (tally fuel cs chain epoch masternodes mapBlkHash data i
             endBlockNumber signers : M (RewardState C) _).
Proof.
  induction fuel as [|fuel IH]; intros i signers; cbn [tally];
    destruct (i <=? endBlockNumber); try apply noErr_mret.
  - apply noErr_outOfFuel.
  - apply noErr_bind; [apply noErr_tallyStep|intros ?; apply IH].
Qed.

Lemma noErr_GetRewardForCheckpoint (fuel : nat) (cs : common.Constants)
    (chain : ChainReader R) (header : Header) (rCheckpoint : Z) :
  noErr (GetRewardForCheckpoint fuel cs chain header rCheckpoint).
Proof.
  unfold GetRewardForCheckpoint.
  apply noErr_bind; [apply noErr_walkPhase|intros [ws masternodes]].
  apply noErr_bind; [apply noErr_deref|intros s2pos]. apply noErr_tally.
Qed.

(** The loop catches up with every state the walk passes through. *)
Lemma walkBack_walkReach (chain : ChainReader R) (startBlockNumber : Z)
    (n : nat) (i j : Z) (ws ws2 : WalkState) (st st2 : RewardState C) :
  walkReach chain startBlockNumber n i ws st j ws2 st2 ->
  forall fuel : nat,
    (n <= fuel)%nat ->
    walkBack fuel chain i startBlockNumber ws st
    = walkBack (fuel - n) chain j startBlockNumber ws2 st2.
Proof.
  induction 1 as [i ws st|n i ws ws1 st st1 j ws2 st2 Hi Hstep _ IH];
    intros fuel Hfuel.
  - by rewrite Nat.sub_0_r.
  - destruct fuel as [|fuel]; [lia|].
    cbn [walkBack]. assert ((startBlockNumber <=? i) = true) as ->
      by (apply Z.leb_le; lia).
    unfold mbind, M_bind. rewrite Hstep.
    rewrite IH by lia. done.
Qed.

Lemma walkStep_missing (chain : ChainReader R) (j : Z) (ws : WalkState)
    (st : RewardState C) :
  missingAt chain j ws st -> walkStep chain j ws st = (Panic, st).
Proof.
  unfold walkStep, mbind, M_bind.
  intros [Hhdr | (header & Hhdr & Hcache & Hblk)]; rewrite Hhdr; cbn; [done|].
  rewrite Hcache, Hblk. done.
Qed.

(** C2 (amended). [GetRewardForCheckpoint] never returns an error value.
    When the walk-back, after any number of completed rounds, reaches a
    block number for which the reader has no header (or, the signing
    transactions not being cached, no block), and likewise when the header
    of the previous checkpoint is missing after the last round, the
    computation aborts by a panic on the nil value: no signer map is
    returned and the counter behind [totalSigner] is as it was at entry. *)
Theorem GetRewardForCheckpoint_missing_aborts (fuel : nat)
    (cs : common.Constants) (chain : ChainReader R) (header : Header)
    (rCheckpoint : Z) (st : RewardState C) :
  let startBlockNumber := startBlockNumberOf header rCheckpoint in
  (forall e,
     (GetRewardForCheckpoint fuel cs chain header rCheckpoint st).1 <> Err e) /\
  forall (n : nat) (j : Z) (ws : WalkState) (st1 : RewardState C),
    walkReach chain startBlockNumber n (walkFromOf header rCheckpoint)
      (mkWalkState header ∅ ∅) st j ws st1 ->
    (startBlockNumber <= j /\ missingAt chain j ws st1) \/
    (j < startBlockNumber /\
     GetHeader chain (ParentHash (wHeader ws))
       (prevCheckpointOf header rCheckpoint) = None) ->
    (n < fuel)%nat ->
    exists st',
      GetRewardForCheckpoint fuel cs chain header rCheckpoint st = (Panic, st') /\
      totalSigner st' = totalSigner st.
Proof.
  intros startBlockNumber. split.
  { intros e.
    destruct (GetRewardForCheckpoint fuel cs chain header rCheckpoint st)
      as [res st'] eqn:Hrun.
    eapply noErr_GetRewardForCheckpoint; eauto. }
  intros n j ws st1 Hreach Hmiss Hfuel.
  assert (Hwalk : exists st',
            walkPhase fuel chain header rCheckpoint st = (Panic, st')).
  { unfold walkPhase. fold startBlockNumber. unfold mbind at 1, M_bind at 1.
    rewrite (walkBack_walkReach _ _ _ _ _ _ _ _ _ Hreach fuel) by lia.
    destruct Hmiss as [[Hj Hmiss] | [Hj Hmiss]].
    - destruct (fuel - n)%nat as [|fuel'] eqn:Hf; [lia|].
      cbn [walkBack]. assert ((startBlockNumber <=? j) = true) as ->
        by (apply Z.leb_le; lia).
      unfold mbind, M_bind. rewrite (walkStep_missing _ _ _ _ Hmiss). eauto.
    - assert (Hexit : walkBack (fuel - n) chain j startBlockNumber ws st1
                      = (Ok ws, st1)).
      { destruct (fuel - n)%nat; cbn [walkBack];
          (assert ((startBlockNumber <=? j) = false) as ->
             by (apply Z.leb_gt; lia)); done. }
      rewrite Hexit. unfold mbind, M_bind. rewrite Hmiss. cbn. eauto. }
  destruct Hwalk as [st' Hwalk]. exists st'. split.
  - unfold GetRewardForCheckpoint, mbind, M_bind. by rewrite Hwalk.
  - eapply keepsTotal_walkPhase; eauto.
Qed.

Lemma u64_id (z : Z) : 0 <= z < 2 ^ 64 -> u64 z = z.
Proof. intros Hz. unfold u64. by apply Z.mod_small. Qed.

Lemma u64_succ (z : Z) : u64 (u64 z + 1) = u64 (z + 1).
Proof. unfold u64. by rewrite Zplus_mod_idemp_l. Qed.

Lemma elem_of_filterSigners_gen (masternodes addrs : list Address)
    (acc : gset Address) (a : Address) :
  a ∈ foldl (fun addrSigners masternode =>
               if existsb (fun addr => bool_decide (addr = masternode)) addrs
               then {[masternode]} ∪ addrSigners
               else addrSigners)
            acc masternodes
  <-> a ∈ acc \/ (a ∈ masternodes /\ a ∈ addrs).
Proof.
  revert acc. induction masternodes as [|m ms IH]; intros acc; cbn [foldl].
  - rewrite elem_of_nil. tauto.
  - rewrite IH, elem_of_cons.
    destruct (existsb _ addrs) eqn:Hex.
    + apply existsb_exists in Hex as (x & Hx & Heq).
      apply bool_decide_eq_true in Heq. subst x.
      apply list_elem_of_In in Hx.
      rewrite elem_of_union, elem_of_singleton.
      intuition (subst; auto).
    + assert (Hm : m ∉ addrs).
      { intros Hin. apply list_elem_of_In in Hin.
        assert (existsb (fun addr => bool_decide (addr = m)) addrs = true)
          as Htrue; [|congruence].
        apply existsb_exists. exists m. split; [done|].
        by apply bool_decide_eq_true. }
      intuition (subst; auto; tauto).
Qed.

Lemma elem_of_filterSigners (masternodes addrs : list Address) (a : Address) :
  a ∈ filterSigners masternodes addrs <-> a ∈ masternodes /\ a ∈ addrs.
Proof.
  unfold filterSigners. rewrite elem_of_filterSigners_gen.
  rewrite elem_of_empty. tauto.
Qed.

Lemma elem_of_creditedSet (cs : common.Constants) (chain : ChainReader R)
    (epoch : Z) (masternodes : list Address) (ws : WalkState) (i : Z)
    (a : Address) :
  a ∈ creditedSet cs chain epoch masternodes ws i
  <-> credited cs chain epoch masternodes ws i a = true.
Proof.
  unfold creditedSet. rewrite elem_of_list_to_set, list_elem_of_filter.
  split; [tauto|]. intros Hc. split; [done|].
  unfold credited in Hc. apply andb_prop in Hc as [Hc _].
  apply andb_prop in Hc as [_ Hc]. by apply bool_decide_eq_true in Hc.
Qed.

Lemma set_fold_creditSigner (X : gset Address)
    (signers : gmap Address rewardLog) (total : Z) :
  let r := set_fold creditSigner (signers, total) X in
  (forall a, r.1 !! a = if decide (a ∈ X) then Some (bump (signers !! a))
                        else signers !! a) /\
  r.2 = Nat.iter (size X) (fun t => u64 (t + 1)) total.
Proof.
  cbv zeta. revert X.
  apply (set_fold_ind_L
    (fun (r : gmap Address rewardLog * Z) (Y : gset Address) =>
       (forall a, r.1 !! a = if decide (a ∈ Y) then Some (bump (signers !! a))
                             else signers !! a) /\
       r.2 = Nat.iter (size Y) (fun t => u64 (t + 1)) total)).
  - split; [|by rewrite size_empty].
    intros a. destruct (decide (a ∈ ∅)) as [Hin|_]; [|done].
    by apply elem_of_empty in Hin.
  - intros x Y [s t] Hx [IH1 IH2]. cbn [fst snd] in *. split.
    + intros a. cbn [creditSigner fst].
      assert (Hsx : s !! x = signers !! x).
      { rewrite IH1. by destruct (decide (x ∈ Y)). }
      destruct (decide (a = x)) as [->|Hne].
      * destruct (decide (x ∈ {[x]} ∪ Y)) as [_|Hn]; [|set_solver].
        rewrite Hsx. unfold bump.
        destruct (signers !! x); by rewrite lookup_insert_eq.
      * assert (Hsa : (match s !! x with
                       | Some rLog =>
                         <[x := mkRewardLog (u64 (Sign rLog + 1)) (Reward rLog)]> s
                       | None => <[x := mkRewardLog 1 0]> s
                       end) !! a = s !! a).
        { destruct (s !! x); by rewrite lookup_insert_ne. }
        rewrite Hsa, IH1.
        destruct (decide (a ∈ Y)) as [Hy|Hy],
                 (decide (a ∈ {[x]} ∪ Y)) as [Hxy|Hxy]; try done.
        -- destruct Hxy. apply elem_of_union. by right.
        -- apply elem_of_union in Hxy as [Hxy|Hxy]; [|done].
           by apply elem_of_singleton in Hxy.
    + cbn [creditSigner snd].
      rewrite size_union by (apply disjoint_singleton_l; exact Hx).
      rewrite size_singleton.
      change (1 + size Y)%nat with (S (size Y)).
      by rewrite Nat.iter_succ, IH2.
Qed.

Lemma iter_u64_succ (n : nat) (total : Z) :
  0 <= total < 2 ^ 64 ->
  Nat.iter n (fun t => u64 (t + 1)) total = u64 (total + Z.of_nat n).
Proof.
  intros Ht. induction n as [|n IH].
  - cbn. by rewrite Z.add_0_r, u64_id.
  - rewrite Nat.iter_succ, IH, u64_succ. f_equal. lia.
Qed.

Lemma creditSigners_run (X : gset Address) (signers : gmap Address rewardLog)
    (st : RewardState C) :
  creditSigners X signers st
  = (Ok (set_fold creditSigner (signers, totalSigner st) X).1,
     mkRewardState (engine st)
       (set_fold creditSigner (signers, totalSigner st) X).2).
Proof. unfold creditSigners. by destruct (set_fold _ _ _). Qed.

Lemma creditedSet_not_eligible (cs : common.Constants) (chain : ChainReader R)
    (epoch : Z) (masternodes : list Address) (ws : WalkState) (i : Z) :
  eligible cs chain epoch i = false ->
  creditedSet cs chain epoch masternodes ws i = ∅.
Proof.
  intros He. apply set_eq. intros a.
  rewrite elem_of_creditedSet, elem_of_empty. unfold credited. rewrite He.
  cbn. split; [discriminate|tauto].
Qed.

Lemma creditedSet_eligible (cs : common.Constants) (chain : ChainReader R)
    (epoch : Z) (masternodes : list Address) (ws : WalkState) (i : Z) :
  eligible cs chain epoch i = true ->
  creditedSet cs chain epoch masternodes ws i
  = filterSigners masternodes
      (default [] (wData ws !! default zeroHash (wMapBlkHash ws !! i))).
Proof.
  intros He. apply set_eq. intros a.
  rewrite elem_of_creditedSet, elem_of_filterSigners.
  unfold credited. rewrite He. cbn [andb].
  rewrite andb_true_iff, !bool_decide_eq_true. done.
Qed.

Lemma filterSigners_nil (masternodes : list Address) :
  filterSigners masternodes [] = ∅.
Proof.
  apply set_eq. intros a.
  rewrite elem_of_filterSigners, elem_of_nil, elem_of_empty. tauto.
Qed.

Lemma eligibleM_run (cs : common.Constants) (chain : ChainReader R)
    (epoch i : Z) (st : RewardState C) :
  epoch <> 0 -> common.MergeSignRange cs <> 0 -> i64 i = i ->
  eligibleM cs chain epoch i st = (Ok (eligible cs chain epoch i), st).
Proof.
  intros He Hm Hi. unfold eligibleM, eligible.
  assert ((epoch =? 0) = false) as -> by (by apply Z.eqb_neq).
  destruct (i mod epoch <? common.MergeSignRange cs); [done|].
  assert ((common.MergeSignRange cs =? 0) = false) as ->
    by (by apply Z.eqb_neq).
  by rewrite Hi.
Qed.

Lemma tallyStep_run (cs : common.Constants) (chain : ChainReader R)
    (epoch : Z) (masternodes : list Address) (ws : WalkState) (i : Z)
    (signers : gmap Address rewardLog) (st : RewardState C) :
  epoch <> 0 -> common.MergeSignRange cs <> 0 -> i64 i = i ->
  tallyStep cs chain epoch masternodes (wMapBlkHash ws) (wData ws) i signers st
  = (Ok (set_fold creditSigner (signers, totalSigner st)
           (creditedSet cs chain epoch masternodes ws i)).1,
     mkRewardState (engine st)
       (set_fold creditSigner (signers, totalSigner st)
          (creditedSet cs chain epoch masternodes ws i)).2).
Proof.
  intros He Hm Hi. unfold tallyStep, mbind, M_bind.
  rewrite eligibleM_run by done.
  destruct (eligible cs chain epoch i) eqn:Hel.
  - rewrite (creditedSet_eligible _ _ _ _ _ _ Hel).
    destruct (default [] _) as [|x addrs] eqn:Haddrs; cbn [length Nat.ltb Nat.leb].
    + rewrite filterSigners_nil, set_fold_empty. by destruct st.
    + apply creditSigners_run.
  - rewrite (creditedSet_not_eligible _ _ _ _ _ _ Hel), set_fold_empty.
    by destruct st.
Qed.

Lemma tally_run (cs : common.Constants) (chain : ChainReader R)
    (epoch : Z) (masternodes : list Address) (ws : WalkState)
    (endBlockNumber : Z) (n : nat) :
  epoch <> 0 -> common.MergeSignRange cs <> 0 -> endBlockNumber < 2 ^ 63 ->
  forall (fuel : nat) (i : Z) (signers : gmap Address rewardLog)
         (st : RewardState C),
    (n <= fuel)%nat -> 0 <= i -> i + Z.of_nat n = endBlockNumber + 1 ->
    tally fuel cs chain epoch masternodes (wMapBlkHash ws) (wData ws) i
      endBlockNumber signers st
    = (Ok (creditBlocks cs chain epoch masternodes ws (seqZ i (Z.of_nat n))
             (signers, totalSigner st)).1,
       mkRewardState (engine st)
         (creditBlocks cs chain epoch masternodes ws (seqZ i (Z.of_nat n))
            (signers, totalSigner st)).2).
Proof.
  intros He Hm Hend.
  induction n as [|n IH]; intros fuel i signers st Hfuel Hi Hn.
  - assert ((i <=? endBlockNumber) = false) as Hexit by (apply Z.leb_gt; lia).
    destruct fuel; cbn [tally]; rewrite Hexit; by destruct st.
  - destruct fuel as [|fuel]; [lia|]. cbn [tally].
    assert ((i <=? endBlockNumber) = true) as -> by (apply Z.leb_le; lia).
    unfold mbind, M_bind.
    rewrite tallyStep_run by (try done; apply i64_id; lia).
    rewrite u64_id by lia.
    rewrite IH by (cbn; lia).
    rewrite (seqZ_cons i) by lia.
    replace (Z.pred (Z.of_nat (S n))) with (Z.of_nat n) by lia.
    replace (Z.succ i) with (i + 1) by lia.
    unfold creditBlocks. cbn [foldl engine totalSigner].
    by destruct (set_fold creditSigner _ _).
Qed.

Lemma bump_signerLog (k : nat) :
  Z.of_nat k + 1 < 2 ^ 64 -> Some (bump (signerLog k)) = signerLog (k + 1).
Proof.
  intros Hk. destruct k as [|k]; [done|].
  unfold signerLog, bump. replace (S k + 1)%nat with (S (S k)) by lia.
  cbn [Sign Reward]. rewrite u64_id by lia. do 2 f_equal. lia.
Qed.

Lemma length_creditedIn_cons (cs : common.Constants) (chain : ChainReader R)
    (epoch : Z) (masternodes : list Address) (ws : WalkState) (i : Z)
    (blocks : list Z) (a : Address) :
  length (creditedIn cs chain epoch masternodes ws (i :: blocks) a)
  = ((if decide (a ∈ creditedSet cs chain epoch masternodes ws i)
      then 1 else 0)
     + length (creditedIn cs chain epoch masternodes ws blocks a))%nat.
Proof.
  unfold creditedIn. rewrite filter_cons.
  pose proof (elem_of_creditedSet cs chain epoch masternodes ws i a) as Hiff.
  destruct (decide (credited cs chain epoch masternodes ws i a = true)),
           (decide (a ∈ creditedSet cs chain epoch masternodes ws i));
    try done; tauto.
Qed.

Lemma creditBlocks_cons (cs : common.Constants) (chain : ChainReader R)
    (epoch : Z) (masternodes : list Address) (ws : WalkState) (i : Z)
    (blocks : list Z) (acc : gmap Address rewardLog * Z) :
  creditBlocks cs chain epoch masternodes ws (i :: blocks) acc
  = creditBlocks cs chain epoch masternodes ws blocks
      (set_fold creditSigner acc (creditedSet cs chain epoch masternodes ws i)).
Proof. reflexivity. Qed.

Lemma creditTotal_cons (cs : common.Constants) (chain : ChainReader R)
    (epoch : Z) (masternodes : list Address) (ws : WalkState) (i : Z)
    (blocks : list Z) :
  creditTotal cs chain epoch masternodes ws (i :: blocks)
  = Z.of_nat (size (creditedSet cs chain epoch masternodes ws i))
    + creditTotal cs chain epoch masternodes ws blocks.
Proof. reflexivity. Qed.

(** The credits of a list of blocks, counted per signer and in total. *)
Lemma creditBlocks_spec (cs : common.Constants) (chain : ChainReader R)
    (epoch : Z) (masternodes : list Address) (ws : WalkState)
    (blocks : list Z) :
  forall (signers : gmap Address rewardLog) (total : Z) (c : Address -> nat),
    0 <= total < 2 ^ 64 ->
    (forall a, signers !! a = signerLog (c a)) ->
    (forall a, Z.of_nat (c a) + Z.of_nat (length blocks) < 2 ^ 64) ->
    (forall a,
       (creditBlocks cs chain epoch masternodes ws blocks (signers, total)).1
         !! a
       = signerLog
           (c a + length (creditedIn cs chain epoch masternodes ws blocks a))) /\
    (creditBlocks cs chain epoch masternodes ws blocks (signers, total)).2
    = u64 (total + creditTotal cs chain epoch masternodes ws blocks).
Proof.
  induction blocks as [|i blocks IH]; intros signers total c Ht Hs Hb.
  - cbn. split; [|by rewrite Z.add_0_r, u64_id].
    intros a. by rewrite Nat.add_0_r.
  - rewrite creditBlocks_cons, creditTotal_cons.
    set (X := creditedSet cs chain epoch masternodes ws i).
    destruct (set_fold_creditSigner X signers total) as [H1 H2].
    destruct (set_fold creditSigner (signers, total) X) as [s1 t1].
    cbn [fst snd] in H1, H2.
    rewrite iter_u64_succ in H2 by done.
    destruct (IH s1 t1
                (fun a => (c a + if decide (a ∈ X) then 1 else 0)%nat))
      as [IH1 IH2].
    + rewrite H2. unfold u64. apply Z.mod_pos_bound. lia.
    + intros a. rewrite H1, Hs. destruct (decide (a ∈ X)).
      * apply bump_signerLog. specialize (Hb a). cbn [length] in Hb. lia.
      * by rewrite Nat.add_0_r.
    + intros a. specialize (Hb a). cbn [length] in Hb.
      destruct (decide (a ∈ X)); lia.
    + split.
      * intros a. rewrite IH1, length_creditedIn_cons. fold X. f_equal. lia.
      * rewrite IH2, H2.
        unfold u64. rewrite Zplus_mod_idemp_l. f_equal. lia.
Qed.

Lemma window_numbers (header : Header) (rCheckpoint : Z) :
  0 < rCheckpoint -> 2 * rCheckpoint <= Number header ->
  Number header < 2 ^ 63 ->
  prevCheckpointOf header rCheckpoint = Number header - 2 * rCheckpoint /\
  startBlockNumberOf header rCheckpoint
  = Number header - 2 * rCheckpoint + 1 /\
  endBlockNumberOf header rCheckpoint = Number header - rCheckpoint /\
  walkFromOf header rCheckpoint = Number header - 1.
Proof.
  intros Hr Hn Hmax.
  assert (H63 : 2 ^ 63 < 2 ^ 64) by done.
  unfold endBlockNumberOf, walkFromOf, startBlockNumberOf, prevCheckpointOf,
    numberOf.
  rewrite Z.abs_eq by lia.
  rewrite (u64_id (Number header)) by lia.
  rewrite (u64_id (rCheckpoint * 2)) by lia.
  rewrite (u64_id (Number header - rCheckpoint * 2)) by lia.
  rewrite (u64_id (Number header - rCheckpoint * 2 + 1)) by lia.
  rewrite (u64_id (Number header - rCheckpoint * 2 + 1 + rCheckpoint)) by lia.
  rewrite (u64_id (Number header - rCheckpoint * 2 + 1 + rCheckpoint - 1)) by lia.
  rewrite (u64_id (Number header - rCheckpoint * 2 + rCheckpoint * 2)) by lia.
  rewrite (u64_id (Number header - rCheckpoint * 2 + rCheckpoint * 2 - 1)) by lia.
  lia.
Qed.

(** C7. With [prevCheckpoint = headerNumber - 2 * rCheckpoint] (no
    wrap-around: [0 < rCheckpoint], [2 * rCheckpoint <= headerNumber <
    2^63]), once the walk-back has returned, the call returns a signer map
    and a counter that tally credit over the blocks of the window
    [prevCheckpoint + 1, prevCheckpoint + rCheckpoint] and over no other
    block: a signer's count is the number of window blocks it is credited
    for, the counter grows by the number of credits, and a block [i] of the
    window credits a masternode only if [i mod epoch < MergeSignRange], or
    [i mod MergeSignRange = 0], or [IsTIP2019 i] is false, and a signing
    transaction naming the hash of block [i] is from that masternode. *)
Theorem GetRewardForCheckpoint_window (fuel : nat) (cs : common.Constants)
    (chain : ChainReader R) (header : Header) (rCheckpoint : Z)
    (st st1 : RewardState C) (ws : WalkState) (masternodes : list Address)
    (s2pos : S2PoSConfig) :
  0 < rCheckpoint -> 2 * rCheckpoint <= Number header ->
  Number header < 2 ^ 63 ->
  0 <= totalSigner st < 2 ^ 64 ->
  S2PoS (Config chain) = Some s2pos -> Epoch s2pos <> 0 ->
  common.MergeSignRange cs <> 0 ->
  (Z.to_nat rCheckpoint <= fuel)%nat ->
  walkPhase fuel chain header rCheckpoint st = (Ok (ws, masternodes), st1) ->
  let prevCheckpoint := Number header - 2 * rCheckpoint in
  let epoch := Epoch s2pos in
  let window := seqZ (prevCheckpoint + 1) rCheckpoint in
  prevCheckpointOf header rCheckpoint = prevCheckpoint /\
  startBlockNumberOf header rCheckpoint = prevCheckpoint + 1 /\
  endBlockNumberOf header rCheckpoint = prevCheckpoint + rCheckpoint /\
  (exists (signers : gmap Address rewardLog) (st2 : RewardState C),
     GetRewardForCheckpoint fuel cs chain header rCheckpoint st
     = (Ok signers, st2) /\
     (forall a,
        signers !! a
        = signerLog
            (length (creditedIn cs chain epoch masternodes ws window a))) /\
     totalSigner st2
     = u64 (totalSigner st
            + creditTotal cs chain epoch masternodes ws window)) /\
  (forall (a : Address) (i : Z),
     i ∈ creditedIn cs chain epoch masternodes ws window a <->
     prevCheckpoint + 1 <= i <= prevCheckpoint + rCheckpoint /\
     (i mod epoch < common.MergeSignRange cs \/
      i mod common.MergeSignRange cs = 0 \/
      IsTIP2019 (Config chain) i = false) /\
     a ∈ masternodes /\
     a ∈ default [] (wData ws !! default zeroHash (wMapBlkHash ws !! i))).
Proof.
  intros Hr Hn Hmax Ht Hs2 Hep Hmsr Hfuel Hwalk prevCheckpoint epoch window.
  destruct (window_numbers header rCheckpoint Hr Hn Hmax)
    as (Hprev & Hstart & Hend & _).
  fold prevCheckpoint in Hprev, Hstart.
  split; [exact Hprev|]. split; [exact Hstart|].
  split; [rewrite Hend; unfold prevCheckpoint; lia|].
  split.
  - unfold GetRewardForCheckpoint, mbind, M_bind.
    rewrite Hwalk, Hs2. cbn [deref mret M_ret].
    rewrite Hstart, Hend.
    rewrite (tally_run cs chain epoch masternodes ws
               (Number header - rCheckpoint) (Z.to_nat rCheckpoint))
      by (try done; unfold prevCheckpoint; lia).
    rewrite Z2Nat.id by lia. fold window.
    rewrite (keepsTotal_walkPhase _ _ _ _ _ _ _ Hwalk).
    destruct (creditBlocks_spec cs chain epoch masternodes ws window ∅
                (totalSigner st) (fun _ => O) Ht) as [Hsig Htot].
    + intros a. by rewrite lookup_empty.
    + intros a. unfold window. rewrite length_seqZ. lia.
    + eexists _, _. split; [reflexivity|]. split; [exact Hsig|exact Htot].
  - intros a i. unfold creditedIn, window.
    rewrite list_elem_of_filter, elem_of_seqZ. unfold credited, eligible.
    rewrite !andb_true_iff, !orb_true_iff, !bool_decide_eq_true.
    rewrite Z.ltb_lt, Z.eqb_eq, negb_true_iff. fold epoch.
    split; intros; intuition lia.
Qed.

End CheckpointProofs.

(** C2 as stated fails: on a chain whose reader has nothing for block 2 the
    walk-back from checkpoint 4 meets the missing header in its second
    round, and the call panics; it does not return an error. *)
Lemma GetRewardForCheckpoint_missing_no_error :
  GetHeader (sampleChain 2) (ParentHash (sampleHeader 3)) 2 = None /\
  GetRewardForCheckpoint 10 sampleConstants (sampleChain 2) (sampleHeader 4)
    2 (mkRewardState tt 0) = (Panic, mkRewardState tt 0) /\
  forall e,
    (GetRewardForCheckpoint 10 sampleConstants (sampleChain 2) (sampleHeader 4)
       2 (mkRewardState tt 0)).1 <> Err e.
Proof.
  split; [reflexivity|]. split; [vm_compute; reflexivity|].
  intros e. vm_compute. discriminate.
Qed.

Lemma GetRewardForCheckpoint_missing_aborts_witness :
  exists st',
    GetRewardForCheckpoint 10 sampleConstants (sampleChain 2) (sampleHeader 4)
      2 (mkRewardState tt 0) = (Panic, st') /\
    totalSigner st' = 0.
Proof.
  destruct (GetRewardForCheckpoint_missing_aborts 10 sampleConstants
              (sampleChain 2) (sampleHeader 4) 2 (mkRewardState tt 0))
    as [_ Habort].
  apply (Habort 1%nat 2
           (mkWalkState (sampleHeader 3) {[3 := sampleHash 3]}
              (<[sampleHash 2 := [11%N; 11%N; 99%N]]> ∅))
           (mkRewardState tt 0)).
  - eapply walkReach_step; [vm_compute; discriminate|vm_compute; reflexivity|].
    apply walkReach_here.
  - left. split; [vm_compute; discriminate|]. left. reflexivity.
  - lia.
Defined.

Lemma GetRewardForCheckpoint_window_witness :
  exists (signers : gmap Address rewardLog) (st2 : RewardState unit),
    GetRewardForCheckpoint 10 sampleConstants (sampleChain (-1))
      (sampleHeader 4) 2 (mkRewardState tt 0) = (Ok signers, st2) /\
    signers !! 11%N = Some (mkRewardLog 2 0) /\
    signers !! 12%N = Some (mkRewardLog 1 0) /\
    signers !! 13%N = None /\
    totalSigner st2 = 3.
Proof.
  edestruct (GetRewardForCheckpoint_window 10 sampleConstants
               (sampleChain (-1)) (sampleHeader 4) 2 (mkRewardState tt 0))
    as (_ & _ & _ & (signers & st2 & Hrun & Hsig & Htot) & _).
  - lia.
  - vm_compute; discriminate.
  - vm_compute; reflexivity.
  - cbn [totalSigner]; lia.
  - reflexivity.
  - vm_compute; discriminate.
  - vm_compute; discriminate.
  - vm_compute; lia.
  - vm_compute; reflexivity.
  - exists signers, st2. split; [exact Hrun|].
    rewrite !Hsig, Htot. vm_compute. repeat split.
Defined.

(** The block at position 805 of its epoch, with nothing persisted: the
    theorem applied to the commit of a secret. *)
Lemma CreateTransactionSign_secret_or_opening_witness :
  exists (res : Res unit) (w' : World (nat * Z) Z),
    CreateTransactionSign 10 sampleConstants sampleRegistry sampleChainConfig
      sampleManager (sampleBlock 805) 7%N (sampleWorld 2 ∅) = (res, w') /\
    hasKind SecretKind (calls w') && hasKind OpeningKind (calls w') = false /\
    (length (addLocals SecretKind (calls w'))
     + length (addLocals OpeningKind (calls w')) <= 1)%nat.
Proof.
  pose proof (CreateTransactionSign_secret_or_opening 10 sampleConstants
                sampleRegistry sampleChainConfig sampleManager (sampleBlock 805)
                7%N (sampleWorld 2 ∅)) as Hthm.
  destruct (CreateTransactionSign 10 sampleConstants sampleRegistry
              sampleChainConfig sampleManager (sampleBlock 805) 7%N
              (sampleWorld 2 ∅)) as [res w'].
  destruct Hthm as (evs & Hcalls & Hone & Hlen & _).
  cbn in Hcalls. subst evs.
  exists res, w'. split; [reflexivity|]. split; [exact Hone|exact Hlen].
Defined.

(** A pool that rejects ten submissions: the theorem applied with fuel for
    ten rounds. *)
Lemma CreateTransactionSign_retries_witness :
  exists (res : Res unit) (w' : World (nat * Z) Z),
    CreateTransactionSign 10 sampleConstants sampleRegistry sampleChainConfig
      sampleManager (sampleBlock 5) 7%N (sampleWorld 10 ∅) = (res, w') /\
    res <> OutOfFuel /\
    (length (addLocals SignKind (calls w')) <= 10)%nat /\
    (length (addLocals SignKind (calls w')) = 10%nat ->
     Forall failed (addLocals SignKind (calls w')) ->
     exists tx e, last (addLocals SignKind (calls w')) = Some (tx, Some e) /\
                  res = Err e) /\
    exists (evsSign evsRest : list Event) (resSign : Res unit),
      calls w' = EvGetNonce 7%N 5 :: evsSign ++ evsRest /\
      signAttempts sampleRegistry sampleChainConfig sampleWallet 7%N
        (sampleBlock 5) 1 5 evsSign resSign /\
      (resSign <> Ok tt -> evsRest = [] /\ res = resSign).
Proof.
  pose proof (CreateTransactionSign_retries 10 sampleConstants sampleRegistry
                sampleChainConfig sampleManager (sampleBlock 5) 7%N
                (sampleWorld 10 ∅) ltac:(lia)) as Hthm.
  cbv zeta in Hthm.
  destruct (CreateTransactionSign 10 sampleConstants sampleRegistry
              sampleChainConfig sampleManager (sampleBlock 5) 7%N
              (sampleWorld 10 ∅)) as [res w'].
  destruct Hthm as (Hfuel & evs & Hcalls & Hlen & Hlast & Hsign).
  cbn in Hcalls. subst evs.
  exists res, w'. split; [reflexivity|]. split; [exact Hfuel|].
  split; [exact Hlen|]. split; [exact Hlast|].
  destruct Hsign as (evsSign & evsRest & resSign & Hevs & Hgram & _ & Hstop & _);
    [by eexists|].
  exists evsSign, evsRest, resSign.
  split; [exact Hevs|]. split; [exact Hgram|exact Hstop].
Defined.

(** * Further properties *)

(** ** Sums of rewards and of sign counts *)

Lemma sumRewards_insert (m : gmap Address Z) (k : Address) (v : Z) :
  m !! k = None -> sumRewards (<[k := v]> m) = v + sumRewards m.
Proof.
  intros Hk. unfold sumRewards.
  apply (map_fold_insert_L (fun (_ : Address) (v acc : Z) => v + acc));
    [intros; lia|done].
Qed.

Lemma sumRewards_delete (m : gmap Address Z) (k : Address) (v : Z) :
  m !! k = Some v -> sumRewards m = v + sumRewards (delete k m).
Proof.
  intros Hk. rewrite <- (insert_delete_id m k v Hk) at 1.
  apply sumRewards_insert, lookup_delete_eq.
Qed.

Lemma sumRewards_zero (m : gmap Address Z) :
  (forall a v, m !! a = Some v -> v = 0) -> sumRewards m = 0.
Proof.
  induction m as [|k v m Hk IH] using map_ind; intros Hz; [done|].
  rewrite sumRewards_insert by done.
  rewrite (Hz k v) by apply lookup_insert_eq.
  rewrite IH; [done|]. intros a w Ha. apply (Hz a).
  rewrite lookup_insert_ne; [done|]. intros ->. congruence.
Qed.

Lemma sumRewards_fmap (f : rewardLog -> Z) (c : Z)
    (signers : gmap Address rewardLog) :
  (forall rLog, f rLog = c * Sign rLog) ->
  sumRewards (f <$> signers) = c * sumSigns signers.
Proof.
  intros Hf.
  induction signers as [|k v m Hk IH] using map_ind.
  - rewrite fmap_empty. unfold sumRewards, sumSigns.
    rewrite !map_fold_empty. lia.
  - rewrite fmap_insert, sumRewards_insert by (by rewrite lookup_fmap, Hk).
    unfold sumSigns.
    rewrite (map_fold_insert_L (fun (_ : Address) rLog acc => Sign rLog + acc))
      by (intros; lia || done).
    fold (sumSigns m). rewrite IH, Hf. lia.
Qed.

(** The rewards [CalculateRewardForSigner] hands out add up to the
    per-signature share times the sum of the sign counts.  When the counts
    add up to [totalSigner], as they do for the tally of a checkpoint, the
    rewards never exceed [chainReward], and what is left undistributed, the
    remainder of the division, is less than [totalSigner].  With
    [totalSigner = 0] nobody is rewarded and the signers' logs are left as
    they were. *)
Theorem CalculateRewardForSigner_sum (chainReward totalSigner : Z)
    (signers : gmap Address rewardLog) :
  0 < totalSigner ->
  CalculateRewardForSigner chainReward signers 0 = (Ok ∅, signers) /\
  exists resultSigners,
    (CalculateRewardForSigner chainReward signers totalSigner).1
    = Ok resultSigners /\
    sumRewards resultSigners = chainReward / totalSigner * sumSigns signers /\
    (sumSigns signers = totalSigner ->
     sumRewards resultSigners = chainReward - chainReward mod totalSigner /\
     chainReward - totalSigner < sumRewards resultSigners <= chainReward).
Proof.
  intros Hpos. split; [reflexivity|].
  unfold CalculateRewardForSigner.
  assert ((0 <? totalSigner) = true) as -> by lia.
  pose proof (CalculateRewardForSigner_fold chainReward totalSigner signers
                signers) as Hfold. cbv zeta in Hfold.
  destruct (map_fold _ _ signers) as [res logs]; simpl in Hfold.
  destruct Hfold as [H1 _].
  exists res. split; [reflexivity|].
  assert (res = calcReward chainReward totalSigner <$> signers) as ->.
  { apply map_eq. intros a. by rewrite H1, lookup_fmap. }
  rewrite (sumRewards_fmap _ (chainReward / totalSigner)) by done.
  split; [done|]. intros ->.
  pose proof (Z.div_mod chainReward totalSigner ltac:(lia)) as Hdm.
  pose proof (Z.mod_pos_bound chainReward totalSigner Hpos) as Hmod.
  split; lia.
Qed.

Lemma CalculateRewardForSigner_sum_witness :
  exists resultSigners,
    (CalculateRewardForSigner 10
       (<[1%N := mkRewardLog 3 0]> {[2%N := mkRewardLog 1 0]}) 4).1
    = Ok resultSigners /\
    sumRewards resultSigners = 8.
Proof.
  destruct (CalculateRewardForSigner_sum 10 4
              (<[1%N := mkRewardLog 3 0]> {[2%N := mkRewardLog 1 0]}))
    as (_ & res & Heq & Hsum & _); [lia|].
  exists res. split; [exact Heq|]. rewrite Hsum. vm_compute. reflexivity.
Defined.

Lemma sumRewards_single (m : gmap Address Z) (k : Address) (t : Z) :
  m !! k = Some t ->
  (forall a v, m !! a = Some v -> a = k \/ v = 0) ->
  sumRewards m = t.
Proof.
  intros Hk Hz. rewrite (sumRewards_delete m k t Hk).
  rewrite sumRewards_zero; [lia|].
  intros a v Ha. destruct (decide (k = a)) as [->|Hne].
  - by rewrite lookup_delete_eq in Ha.
  - rewrite lookup_delete_ne in Ha by done.
    destruct (Hz a v Ha); [congruence|done].
Qed.

(** The split made for the holders of a masternode is a split of the
    reward: [CalculateRewardForHolders] reports no error, the balances add
    up to the foundation share plus, unless the foundation wallet is the
    masternode itself, the tier share, and for a reward that is not negative
    and a foundation percentage between 0 and 50 the balances are not
    negative in sum and never add up to more than the reward. *)
Theorem CalculateRewardForHolders_conserves (cs : common.Constants)
    (foundationWalletAddr : Address) (state : StateDB) (signer : Address)
    (calcReward blockNumber : Z) :
  0 <= calcReward -> 0 <= common.RewardFoundationPercent cs <= 50 ->
  exists balances : gmap Address Z,
    CalculateRewardForHolders cs foundationWalletAddr state signer calcReward
      blockNumber = Ok balances /\
    sumRewards balances
    = calcReward * common.RewardFoundationPercent cs / 100
      + (if decide (signer = foundationWalletAddr) then 0
         else calcReward
              * (if GetCandidateCap state signer =? targetValue
                 then 50 else 40) / 100) /\
    0 <= sumRewards balances <= calcReward.
Proof.
  intros HR Hfp. unfold CalculateRewardForHolders.
  destruct (GetRewardBalancesRate_unfold cs foundationWalletAddr state signer
              calcReward blockNumber) as (bal & Heq & Hm & _ & Hz).
  eexists; split; [exact Heq|].
  set (F := calcReward * common.RewardFoundationPercent cs / 100).
  set (T := calcReward
            * (if GetCandidateCap state signer =? targetValue then 50 else 40)
            / 100) in *.
  assert (Hsum : sumRewards (<[foundationWalletAddr := F]> bal)
                 = F + (if decide (signer = foundationWalletAddr) then 0 else T)).
  { rewrite <- insert_delete_eq, sumRewards_insert by apply lookup_delete_eq.
    f_equal. destruct (decide (signer = foundationWalletAddr)) as [->|Hne].
    - apply sumRewards_zero. intros a v Ha.
      destruct (decide (foundationWalletAddr = a)) as [->|Hna].
      + by rewrite lookup_delete_eq in Ha.
      + rewrite lookup_delete_ne in Ha by done.
        destruct (Hz a v Ha); [congruence|done].
    - apply (sumRewards_single _ signer).
      + by rewrite lookup_delete_ne.
      + intros a v Ha. apply (Hz a v).
        destruct (decide (foundationWalletAddr = a)) as [->|Hna].
        * by rewrite lookup_delete_eq in Ha.
        * by rewrite lookup_delete_ne in Ha. }
  split; [exact Hsum|]. rewrite Hsum.
  assert (HF : 0 <= F /\ F * 100 <= calcReward * common.RewardFoundationPercent cs).
  { unfold F. split; [apply Z.div_pos; nia|].
    pose proof (Z.mul_div_le (calcReward * common.RewardFoundationPercent cs)
                  100 ltac:(lia)). lia. }
  assert (HT : 0 <= T /\ T * 100 <= calcReward * 50).
  { unfold T. destruct (_ =? targetValue).
    - split; [apply Z.div_pos; lia|].
      pose proof (Z.mul_div_le (calcReward * 50) 100 ltac:(lia)). lia.
    - split; [apply Z.div_pos; lia|].
      pose proof (Z.mul_div_le (calcReward * 40) 100 ltac:(lia)). lia. }
  destruct (decide (signer = foundationWalletAddr)); nia.
Qed.

Lemma CalculateRewardForHolders_conserves_witness :
  exists balances : gmap Address Z,
    CalculateRewardForHolders sampleConstants 3%N sampleVoterState 1%N 1000 200
    = Ok balances /\
    sumRewards balances = 500.
Proof.
  destruct (CalculateRewardForHolders_conserves sampleConstants 3%N
              sampleVoterState 1%N 1000 200)
    as (bal & Heq & Hsum & _); [lia|vm_compute; split; discriminate|].
  exists bal. split; [exact Heq|]. rewrite Hsum. vm_compute. reflexivity.
Defined.

Lemma sumSigns_insert (m : gmap Address rewardLog) (k : Address)
    (rLog : rewardLog) :
  m !! k = None -> sumSigns (<[k := rLog]> m) = Sign rLog + sumSigns m.
Proof.
  intros Hk. unfold sumSigns.
  apply (map_fold_insert_L (fun (_ : Address) rLog acc => Sign rLog + acc));
    [intros; lia|done].
Qed.

Lemma sumSigns_update (m : gmap Address rewardLog) (k : Address)
    (old rLog : rewardLog) :
  m !! k = Some old ->
  sumSigns (<[k := rLog]> m) = Sign rLog - Sign old + sumSigns m.
Proof.
  intros Hk. rewrite <- (insert_delete_id m k old Hk) at 2.
  rewrite <- insert_delete_eq.
  rewrite !sumSigns_insert by apply lookup_delete_eq. lia.
Qed.

Lemma size_list_to_set_le (l : list Address) :
  (size (list_to_set l : gset Address) <= length l)%nat.
Proof.
  induction l as [|a l IH]; cbn [list_to_set length].
  - by rewrite size_empty.
  - rewrite size_union_alt, size_singleton.
    assert (Hsub : (list_to_set l : gset Address) ∖ {[a]} ⊆ list_to_set l).
    { intros x Hx. apply elem_of_difference in Hx. tauto. }
    apply subseteq_size in Hsub. lia.
Qed.

Section CheckpointSums.
Context {C R : Type} `{Engine C R}.

(** The credits of one block keep the sign counts and the counter in step:
    counted from [total0], the counter is the sum of the sign counts. *)
Lemma set_fold_creditSigner_sum (total0 : Z) (X : gset Address)
    (signers : gmap Address rewardLog) (total : Z) :
  (forall a rLog, signers !! a = Some rLog -> 0 <= Sign rLog <= total - total0) ->
  sumSigns signers = total - total0 -> 0 <= total0 <= total ->
  total + Z.of_nat (size X) < 2 ^ 64 ->
  let r := set_fold creditSigner (signers, total) X in
  (forall a rLog, r.1 !! a = Some rLog -> 0 <= Sign rLog <= r.2 - total0) /\
  sumSigns r.1 = r.2 - total0 /\
  r.2 = total + Z.of_nat (size X).
Proof.
  intros Hs Hsum Ht. cbv zeta. revert X.
  apply (set_fold_ind_L
    (fun (r : gmap Address rewardLog * Z) (Y : gset Address) =>
       total + Z.of_nat (size Y) < 2 ^ 64 ->
       (forall a rLog, r.1 !! a = Some rLog -> 0 <= Sign rLog <= r.2 - total0) /\
       sumSigns r.1 = r.2 - total0 /\
       r.2 = total + Z.of_nat (size Y))).
  - intros _. rewrite size_empty. cbn [fst snd]. split; [done|]. lia.
  - intros x Y [s t] Hx IH Hb.
    rewrite size_union in Hb by (apply disjoint_singleton_l; exact Hx).
    rewrite size_union by (apply disjoint_singleton_l; exact Hx).
    rewrite size_singleton in *.
    destruct IH as (IH1 & IH2 & IH3); [lia|]. cbn [fst snd] in *.
    cbn [creditSigner fst snd].
    rewrite (u64_id (t + 1)) by lia.
    destruct (s !! x) as [old|] eqn:Hsx; cbn [fst snd].
    + pose proof (IH1 x old Hsx) as Hold.
      rewrite (u64_id (Sign old + 1)) by lia.
      split; [|split; [|lia]].
      * intros a rLog Ha. destruct (decide (x = a)) as [->|Hne].
        -- rewrite lookup_insert_eq in Ha. injection Ha as <-. cbn. lia.
        -- rewrite lookup_insert_ne in Ha by done.
           specialize (IH1 a rLog Ha). lia.
      * rewrite (sumSigns_update s x old) by done. cbn. lia.
    + split; [|split; [|lia]].
      * intros a rLog Ha. destruct (decide (x = a)) as [->|Hne].
        -- rewrite lookup_insert_eq in Ha. injection Ha as <-. cbn. lia.
        -- rewrite lookup_insert_ne in Ha by done.
           specialize (IH1 a rLog Ha). lia.
      * rewrite sumSigns_insert by done. cbn. lia.
Qed.

Lemma size_creditedSet (cs : common.Constants) (chain : ChainReader R)
    (epoch : Z) (masternodes : list Address) (ws : WalkState) (i : Z) :
  (size (creditedSet cs chain epoch masternodes ws i) <= length masternodes)%nat.
Proof.
  unfold creditedSet. etrans; [apply size_list_to_set_le|].
  apply length_filter.
Qed.

Lemma creditBlocks_sum (cs : common.Constants) (chain : ChainReader R)
    (epoch : Z) (masternodes : list Address) (ws : WalkState) (total0 : Z)
    (blocks : list Z) :
  forall (signers : gmap Address rewardLog) (total : Z),
    (forall a rLog, signers !! a = Some rLog -> 0 <= Sign rLog <= total - total0) ->
    sumSigns signers = total - total0 -> 0 <= total0 <= total ->
    total + Z.of_nat (length blocks) * Z.of_nat (length masternodes) < 2 ^ 64 ->
    let r := creditBlocks cs chain epoch masternodes ws blocks (signers, total) in
    sumSigns r.1 = r.2 - total0 /\
    total <= r.2
    <= total + Z.of_nat (length blocks) * Z.of_nat (length masternodes).
Proof.
  induction blocks as [|i blocks IH]; intros signers total Hs Hsum Ht Hb;
    cbv zeta.
  - cbn. split; [done|]. lia.
  - rewrite creditBlocks_cons.
    pose proof (size_creditedSet cs chain epoch masternodes ws i) as Hsz.
    cbn [length] in Hb.
    destruct (set_fold_creditSigner_sum total0
                (creditedSet cs chain epoch masternodes ws i) signers total
                Hs Hsum Ht) as (H1 & H2 & H3); [nia|].
    destruct (set_fold creditSigner (signers, total) _) as [s1 t1].
    cbn [fst snd] in H1, H2, H3.
    destruct (IH s1 t1 H1 H2) as [IH1 IH2]; [lia|nia|].
    split; [exact IH1|]. cbn [length]. nia.
Qed.

(** The map and the counter [GetRewardForCheckpoint] returns agree: with no
    wrap-around of the block numbers ([0 < rCheckpoint], [2 * rCheckpoint <=
    headerNumber < 2^63]) and room in the counter for one credit per
    masternode and block of the window, the counter behind [totalSigner]
    grows by exactly the sum of the sign counts of the returned map, and by
    at most [rCheckpoint] times the number of masternodes. *)
Theorem GetRewardForCheckpoint_counts_agree (fuel : nat)
    (cs : common.Constants) (chain : ChainReader R) (header : Header)
    (rCheckpoint : Z) (st st1 : RewardState C) (ws : WalkState)
    (masternodes : list Address) (s2pos : S2PoSConfig) :
  0 < rCheckpoint -> 2 * rCheckpoint <= Number header ->
  Number header < 2 ^ 63 ->
  0 <= totalSigner st ->
  totalSigner st + rCheckpoint * Z.of_nat (length masternodes) < 2 ^ 64 ->
  S2PoS (Config chain) = Some s2pos -> Epoch s2pos <> 0 ->
  common.MergeSignRange cs <> 0 ->
  (Z.to_nat rCheckpoint <= fuel)%nat ->
  walkPhase fuel chain header rCheckpoint st = (Ok (ws, masternodes), st1) ->
  exists (signers : gmap Address rewardLog) (st2 : RewardState C),
    GetRewardForCheckpoint fuel cs chain header rCheckpoint st
    = (Ok signers, st2) /\
    totalSigner st2 = totalSigner st + sumSigns signers /\
    0 <= sumSigns signers <= rCheckpoint * Z.of_nat (length masternodes).
Proof.
  intros Hr Hn Hmax Ht0 Hroom Hs2 Hep Hmsr Hfuel Hwalk.
  destruct (window_numbers header rCheckpoint Hr Hn Hmax)
    as (_ & Hstart & Hend & _).
  unfold GetRewardForCheckpoint, mbind, M_bind.
  rewrite Hwalk, Hs2. cbn [deref mret M_ret].
  rewrite Hstart, Hend.
  rewrite (tally_run cs chain (Epoch s2pos) masternodes ws
             (Number header - rCheckpoint) (Z.to_nat rCheckpoint))
    by (try done; lia).
  rewrite (keepsTotal_walkPhase _ _ _ _ _ _ _ Hwalk).
  rewrite Z2Nat.id by lia.
  destruct (creditBlocks_sum cs chain (Epoch s2pos) masternodes ws
              (totalSigner st)
              (seqZ (Number header - 2 * rCheckpoint + 1) rCheckpoint)
              ∅ (totalSigner st)) as [Hsum Hbound].
  - intros a rLog Ha. by rewrite lookup_empty in Ha.
  - unfold sumSigns. rewrite map_fold_empty. lia.
  - lia.
  - rewrite length_seqZ, Z2Nat.id by lia. lia.
  - rewrite length_seqZ, Z2Nat.id in Hbound by lia.
    eexists _, _. split; [reflexivity|]. cbn [totalSigner]. lia.
Qed.

End CheckpointSums.

Lemma GetRewardForCheckpoint_counts_agree_witness :
  exists (signers : gmap Address rewardLog) (st2 : RewardState unit),
    GetRewardForCheckpoint 10 sampleConstants (sampleChain (-1))
      (sampleHeader 4) 2 (mkRewardState tt 5) = (Ok signers, st2) /\
    totalSigner st2 = 5 + sumSigns signers.
Proof.
  edestruct (GetRewardForCheckpoint_counts_agree 10 sampleConstants
               (sampleChain (-1)) (sampleHeader 4) 2 (mkRewardState tt 5))
    as (signers & st2 & Hrun & Htot & _).
  - lia.
  - vm_compute; discriminate.
  - vm_compute; reflexivity.
  - cbn [totalSigner]; lia.
  - shelve.
  - reflexivity.
  - vm_compute; discriminate.
  - vm_compute; discriminate.
  - vm_compute; lia.
  - vm_compute; reflexivity.
  - exists signers, st2. split; [exact Hrun|exact Htot].
  Unshelve. vm_compute. reflexivity.
Defined.

(** ** The M2 shuffle, continued *)

Lemma i64_add_l (a b : Z) : i64 (i64 a + b) = i64 (a + b).
Proof.
  unfold i64. f_equal.
  replace ((a + 2 ^ 63) mod 2 ^ 64 - 2 ^ 63 + b + 2 ^ 63)
    with ((a + 2 ^ 63) mod 2 ^ 64 + b) by lia.
  rewrite Zplus_mod_idemp_l. f_equal. lia.
Qed.

Lemma fillSlice_lookup (n : nat) (step : Z) :
  forall (start : Z) (i : nat),
    (i < n)%nat ->
    fillSlice n (i64 start) step !! i = Some (i64 (start + Z.of_nat i * step)).
Proof.
  induction n as [|n IH]; intros start i Hi; [lia|].
  cbn [fillSlice]. destruct i as [|i].
  - cbn. do 2 f_equal. lia.
  - cbn [lookup list_lookup]. rewrite i64_add_l.
    change (fillSlice n (i64 (start + step)) step !! i
            = Some (i64 (start + Z.of_nat (S i) * step))).
    rewrite IH by lia. do 2 f_equal. lia.
Qed.

Lemma length_fillSlice (n : nat) (start step : Z) :
  length (fillSlice n start step) = n.
Proof.
  revert start. induction n as [|n IH]; intros start; [done|].
  cbn [fillSlice length]. by rewrite IH.
Qed.

(** [NewSlice] is the arithmetic progression from [start] by [step], in
    int64 arithmetic: [end] fixes only the number of elements, [end -
    start], whatever the step.  The allocation panics when [end] is below
    [start] (a negative length) and when the elements take more than the
    allocator grants. *)
Theorem NewSlice_progression `{Heap} (start end_ step : Z) :
  - 2 ^ 63 <= start < 2 ^ 63 -> - 2 ^ 63 <= end_ - start < 2 ^ 63 ->
  (end_ < start \/ Z.of_N maxAlloc < 8 * (end_ - start) ->
   NewSlice start end_ step = Panic) /\
  (start <= end_ -> 8 * (end_ - start) <= Z.of_N maxAlloc ->
   exists s : list Z,
     NewSlice start end_ step = Ok s /\
     length s = Z.to_nat (end_ - start) /\
     forall i : nat,
       (i < Z.to_nat (end_ - start))%nat ->
       s !! i = Some (i64 (start + Z.of_nat i * step))).
Proof.
  intros Hs He. split.
  - intros Hlen. apply NewSlice_Panic. rewrite (i64_id (end_ - start)) by done.
    lia.
  - intros Hle Hmax.
    rewrite NewSlice_Ok by (rewrite (i64_id (end_ - start)) by done; lia).
    rewrite (i64_id (end_ - start)) by done.
    eexists; split; [reflexivity|]. split; [apply length_fillSlice|].
    intros i Hi.
    pose proof (fillSlice_lookup (Z.to_nat (end_ - start)) step start i Hi)
      as Hnth.
    by rewrite (i64_id start) in Hnth.
Qed.

Lemma NewSlice_progression_witness :
  NewSlice 5 3 1 = Panic /\
  NewSlice 0 (2 ^ 61) 1 = Panic /\
  exists s : list Z,
    NewSlice 3 6 7 = Ok s /\ length s = 3%nat /\ s !! 2%nat = Some 17.
Proof.
  split; [|split].
  - apply (NewSlice_progression 5 3 1); lia.
  - apply (NewSlice_progression 0 (2 ^ 61) 1); [lia|lia|].
    right. vm_compute. reflexivity.
  - destruct (NewSlice_progression 3 6 7) as [_ Hok]; [lia|lia|].
    destruct Hok as (s & Heq & Hlen & Hnth); [lia|vm_compute; discriminate|].
    exists s. split; [exact Heq|]. split; [exact Hlen|].
    apply (Hnth 2%nat). vm_compute. lia.
Defined.


(** The working slice of the shuffle holds, at every position, either the
    position itself or a number beyond the slice; what a round moves to
    the result therefore never is the round's own index. *)
Lemma shuffleLoop_no_fixpoint {G} `{RandSourceOk G} (k : nat) :
  forall (g : G) (bv out : list Z),
    length bv = k -> (k <= length out)%nat ->
    (forall (p : nat) (v : Z),
       bv !! p = Some v -> v = Z.of_nat p \/ Z.of_nat k <= v) ->
    (k = 1%nat -> forall v, bv !! 0%nat = Some v -> 1 <= v) ->
    exists out' g',
      shuffleLoop k g bv out = Ok (out', g') /\
      drop k out' = drop k out /\
      forall (i : nat) (v : Z),
        (i < k)%nat -> out' !! i = Some v -> v <> Z.of_nat i.
Proof.
  induction k as [|k' IH]; intros g bv out Hlen Hout Hinv Hone.
  - exists out, g. simpl. split; [done|]. split; [done|]. lia.
  - cbn [shuffleLoop]. rewrite Hlen.
    set (bl := if Z.of_nat (S k') - 1 <=? 1 then 1 else Z.of_nat (S k') - 1).
    assert (Hbl : 0 < bl)
      by (unfold bl; destruct (Z.leb_spec (Z.of_nat (S k') - 1) 1); lia).
    unfold Intn. assert ((bl <=? 0) = false) as -> by (apply Z.leb_gt; lia).
    pose proof (draw_range g bl Hbl) as Hrange.
    destruct (draw g bl) as [ri g1]; simpl in Hrange. cbn.
    set (r := Z.to_nat ri).
    assert (Hri : ri = Z.of_nat r) by (unfold r; lia).
    assert (Hr : (r < S k')%nat).
    { unfold bl in Hrange. destruct (Z.leb_spec (Z.of_nat (S k') - 1) 1); lia. }
    assert (Hrk : r = k' -> k' = O).
    { unfold bl in Hrange. destruct (Z.leb_spec (Z.of_nat (S k') - 1) 1); lia. }
    destruct (lookup_lt_is_Some_2 bv r) as [temp Htemp]; [lia|].
    destruct (lookup_lt_is_Some_2 bv k') as [bvi Hbvi]; [lia|].
    rewrite Hri, (index_Ok _ _ _ Htemp). cbn.
    rewrite (index_Ok _ _ _ Hbvi). cbn.
    rewrite (assign_Ok bv r) by lia. cbn.
    rewrite (assign_Ok (<[r := bvi]> bv) k') by (rewrite length_insert; lia). cbn.
    rewrite (assign_Ok out k') by lia. cbn.
    destruct (shuffle_step_Permutation bv k' r temp bvi Hlen Hr Hrk Htemp Hbvi)
      as [Hlen' _].
    set (bv' := take k' (<[k' := temp]> (<[r := bvi]> bv))
                ++ drop (S k') (<[k' := temp]> (<[r := bvi]> bv))) in *.
    assert (Hbv' : forall (p : nat) (v : Z),
              bv' !! p = Some v ->
              (p < k')%nat /\ (if decide (p = r) then v = bvi else bv !! p = Some v)).
    { intros p v Hp.
      assert (Hpk : (p < k')%nat).
      { apply lookup_lt_Some in Hp. lia. }
      split; [done|]. unfold bv' in Hp.
      rewrite lookup_app_l in Hp by (rewrite length_take, !length_insert; lia).
      rewrite lookup_take_lt in Hp by done.
      rewrite list_lookup_insert_ne in Hp by lia.
      destruct (decide (p = r)) as [->|Hne].
      - rewrite list_lookup_insert_eq in Hp by lia. congruence.
      - by rewrite list_lookup_insert_ne in Hp. }
    destruct (IH g1 bv' (<[k' := temp]> out) Hlen')
      as (out' & g' & Heq & Hdrop & Hfix).
    + rewrite length_insert. lia.
    + intros p v Hp. destruct (Hbv' p v Hp) as [Hpk Hv].
      destruct (decide (p = r)) as [->|Hne].
      * subst v. destruct (Hinv k' bvi Hbvi); lia.
      * destruct (Hinv p v Hv); lia.
    + intros -> v Hv. destruct (Hbv' 0%nat v Hv) as [_ Hv'].
      assert (r = 0%nat) as -> by lia.
      rewrite decide_True in Hv' by done. subst v.
      destruct (Hinv 1%nat bvi Hbvi); lia.
    + exists out', g'. split; [exact Heq|].
      assert (Hk' : out' !! k' = Some temp).
      { rewrite <- (Nat.add_0_r k'), <- lookup_drop, Hdrop, lookup_drop,
          Nat.add_0_r.
        apply list_lookup_insert_eq. lia. }
      split.
      * replace (S k') with (k' + 1)%nat by lia.
        rewrite <- (drop_drop out'), Hdrop, drop_drop.
        by rewrite drop_insert_lt by lia.
      * intros i v Hi Hv. destruct (decide (i = k')) as [->|Hne].
        -- assert (v = temp) as -> by congruence.
           destruct (decide (k' = O)) as [->|Hk0].
           ++ assert (r = 0%nat) as Hr0 by lia. rewrite Hr0 in Htemp.
              specialize (Hone eq_refl temp Htemp). lia.
           ++ assert (r <> k') by (intros E; apply Hk0, Hrk, E).
              destruct (Hinv r temp Htemp); lia.
        -- apply Hfix; [lia|done].
Qed.

(** No position of the M2 list is assigned its own index: for two or more
    signers (a count whose slices the allocator grants) the shuffle never
    leaves a number of [0, n) in its place, so the entry at index [i]
    always differs from [i]. *)
Theorem GenM2FromRandomize_no_fixpoint {G} `{RandSourceOk G} `{Heap} (g : G)
    (randomizes : list Z) (n : Z) :
  2 <= n < 2 ^ 63 -> 8 * n <= Z.of_N maxAlloc ->
  exists (out : list Z) (g' : G),
    GenM2FromRandomize g randomizes n = Ok (out, g') /\
    forall (i : nat) (v : Z), out !! i = Some v -> v <> Z.of_nat i.
Proof.
  intros Hn Hmax. unfold GenM2FromRandomize.
  rewrite NewSlice_Ok by (rewrite Z.sub_0_r, i64_id; lia).
  rewrite Z.sub_0_r, i64_id by lia.
  rewrite makeslice_Ok by lia. cbn.
  rewrite fillSlice_seqZ by lia. rewrite Z2Nat.id by lia.
  destruct (shuffleLoop_Permutation (length (seqZ 0 n))
              (seedState (sumRandomizes randomizes)) (seqZ 0 n)
              (replicate (Z.to_nat n) 0))
    as (out1 & g1 & Heq1 & Hlen1 & _);
    [done|by rewrite length_seqZ, length_replicate|].
  destruct (shuffleLoop_no_fixpoint (length (seqZ 0 n))
              (seedState (sumRandomizes randomizes)) (seqZ 0 n)
              (replicate (Z.to_nat n) 0))
    as (out & g' & Heq & _ & Hfix).
  - done.
  - by rewrite length_seqZ, length_replicate.
  - intros p v Hp. apply lookup_seqZ in Hp. lia.
  - rewrite length_seqZ. lia.
  - exists out, g'. split; [exact Heq|].
    intros i v Hv. apply (Hfix i v); [|done].
    apply lookup_lt_Some in Hv.
    assert (out = out1) as -> by congruence.
    rewrite Hlen1, length_replicate in Hv. by rewrite length_seqZ.
Qed.

Lemma GenM2FromRandomize_no_fixpoint_witness :
  exists (out : list Z) (g' : Z),
    GenM2FromRandomize (0 : Z) [3; 4] 5 = Ok (out, g') /\
    out !! 4%nat <> Some 4.
Proof.
  destruct (GenM2FromRandomize_no_fixpoint (0 : Z) [3; 4] 5)
    as (out & g' & Heq & Hfix); [lia|vm_compute; discriminate|].
  exists out, g'. split; [exact Heq|].
  intros Hv. by apply (Hfix 4%nat 4 Hv).
Defined.

(** The shuffle never returns an error.  It panics exactly when the count
    is negative or its slices take more than the allocator grants; it
    returns the empty list for no signer, and otherwise a list of
    [lenSigners] entries. *)
Theorem GenM2FromRandomize_edges {G} `{RandSourceOk G} `{Heap} (g : G)
    (randomizes : list Z) (lenSigners : Z) :
  - 2 ^ 63 <= lenSigners < 2 ^ 63 ->
  (lenSigners < 0 \/ Z.of_N maxAlloc < 8 * lenSigners ->
   GenM2FromRandomize g randomizes lenSigners = Panic) /\
  (lenSigners = 0 ->
   GenM2FromRandomize g randomizes lenSigners
   = Ok ([], seedState (sumRandomizes randomizes))) /\
  (0 <= lenSigners -> 8 * lenSigners <= Z.of_N maxAlloc ->
   exists (out : list Z) (g' : G),
     GenM2FromRandomize g randomizes lenSigners = Ok (out, g') /\
     length out = Z.to_nat lenSigners) /\
  (forall e : error, GenM2FromRandomize g randomizes lenSigners <> Err e).
Proof.
  intros Hn.
  assert (Hbad : lenSigners < 0 \/ Z.of_N maxAlloc < 8 * lenSigners ->
                 GenM2FromRandomize g randomizes lenSigners = Panic).
  { intros Hlen. unfold GenM2FromRandomize.
    rewrite NewSlice_Panic by (rewrite Z.sub_0_r, i64_id; lia). done. }
  assert (Hgood : 0 <= lenSigners -> 8 * lenSigners <= Z.of_N maxAlloc ->
                  exists (out : list Z) (g' : G),
                    GenM2FromRandomize g randomizes lenSigners = Ok (out, g') /\
                    length out = Z.to_nat lenSigners).
  { intros Hpos Hmax. unfold GenM2FromRandomize.
    rewrite NewSlice_Ok by (rewrite Z.sub_0_r, i64_id; lia).
    rewrite Z.sub_0_r, i64_id by lia.
    rewrite makeslice_Ok by lia. cbn.
    destruct (shuffleLoop_Permutation
                (length (fillSlice (Z.to_nat lenSigners) 0 1))
                (seedState (sumRandomizes randomizes))
                (fillSlice (Z.to_nat lenSigners) 0 1)
                (replicate (Z.to_nat lenSigners) 0))
      as (out & g' & Heq & Hlen & _);
      [done|by rewrite length_fillSlice, length_replicate|].
    exists out, g'. split; [exact Heq|].
    by rewrite Hlen, length_replicate. }
  split; [exact Hbad|]. split; [|split; [exact Hgood|]].
  - intros ->. unfold GenM2FromRandomize.
    rewrite NewSlice_Ok by (rewrite Z.sub_0_r, i64_id; lia).
    rewrite makeslice_Ok by lia. reflexivity.
  - intros e He.
    destruct (Z_lt_le_dec lenSigners 0) as [Hneg|Hpos];
      [rewrite Hbad in He by lia; done|].
    destruct (Z_lt_le_dec (Z.of_N maxAlloc) (8 * lenSigners)) as [Hbig|Hfit];
      [rewrite Hbad in He by lia; done|].
    destruct (Hgood Hpos Hfit) as (out & g' & Heq & _). congruence.
Qed.

Lemma GenM2FromRandomize_edges_witness :
  GenM2FromRandomize (0 : Z) [3; 4] (- 1) = Panic /\
  GenM2FromRandomize (0 : Z) [1] (2 ^ 61) = Panic /\
  GenM2FromRandomize (0 : Z) [3; 4] 0 = Ok ([], 7).
Proof.
  destruct (GenM2FromRandomize_edges (0 : Z) [3; 4] (- 1)) as (Hneg & _);
    [lia|].
  destruct (GenM2FromRandomize_edges (0 : Z) [1] (2 ^ 61)) as (Hbig & _);
    [lia|].
  destruct (GenM2FromRandomize_edges (0 : Z) [3; 4] 0) as (_ & Hzero & _);
    [lia|].
  split; [apply Hneg; lia|]. split; [|apply Hzero; reflexivity].
  apply Hbig. right. vm_compute. reflexivity.
Defined.

(** ** Helpers on the global generator *)

Lemma swap_Permutation {A} (l : list A) (i r : nat) (x y : A) :
  l !! i = Some x -> l !! r = Some y ->
  <[r := x]> (<[i := y]> l) ≡ₚ l.
Proof.
  intros Hi Hr.
  assert (Hr' : <[i := y]> l !! r = Some y).
  { destruct (decide (i = r)) as [->|Hne].
    - apply list_lookup_insert_eq. by apply lookup_lt_Some in Hi.
    - by rewrite list_lookup_insert_ne. }
  apply (Permutation_app_inv_r [y]).
  rewrite (insert_snoc_Permutation _ _ _ x Hr').
  by apply insert_snoc_Permutation.
Qed.

Lemma length_letterBytes : Z.of_nat (length letterBytes) = 61.
Proof. reflexivity. Qed.

Lemma letterBytes_nonzero : 0 ∉ letterBytes.
Proof. apply (bool_decide_unpack _). by vm_compute. Qed.

Section GeneratorProofs.
Context {P G : Type} `{RandSourceOk G}.

Lemma shuffleRounds_Permutation (k : nat) :
  forall (i : nat) (l : list Z) (w : World P G),
    (i + k < length l)%nat ->
    exists (out : list Z) (g : G),
      shuffleRounds k (Z.of_nat i) l w
      = (Ok out,
         mkWorld (pool w) (chainDb w) g (clock w) (ticks w + k)
           (cryptoReader w) (calls w)) /\
      out ≡ₚ l.
Proof.
  induction k as [|k IH]; intros i l w Hik.
  - exists l, (rng w). cbn. rewrite Nat.add_0_r. by destruct w.
  - cbn [shuffleRounds].
    unfold mbind, M_bind, seedFromClock, randIntn, Intn.
    cbn [rng pool chainDb clock ticks cryptoReader calls].
    assert ((Z.of_nat (length l) <=? 0) = false) as ->
      by (apply Z.leb_gt; lia).
    pose proof (draw_range (seedState (clock w (ticks w)))
                  (Z.of_nat (length l)) ltac:(lia)) as Hrange.
    destruct (draw (seedState (clock w (ticks w))) (Z.of_nat (length l)))
      as [ri g1]. cbn [fst] in Hrange.
    set (r := Z.to_nat ri).
    assert (Hri : ri = Z.of_nat r) by (unfold r; lia).
    destruct (lookup_lt_is_Some_2 l i) as [x Hx]; [lia|].
    destruct (lookup_lt_is_Some_2 l r) as [y Hy]; [lia|].
    unfold liftRes. rewrite Hri, (index_Ok _ _ _ Hx), (index_Ok _ _ _ Hy).
    rewrite (assign_Ok l i) by lia.
    rewrite (assign_Ok (<[i := y]> l) r) by (rewrite length_insert; lia).
    replace (Z.of_nat i + 1) with (Z.of_nat (S i)) by lia.
    match goal with
    | |- context [shuffleRounds k _ ?l' ?w'] =>
      destruct (IH (S i) l' w') as (out & g & Heq & Hperm)
    end.
    { rewrite !length_insert. lia. }
    exists out, g. rewrite Heq.
    cbn [rng pool chainDb clock ticks cryptoReader calls].
    split; [f_equal; f_equal; lia|].
    rewrite Hperm. by apply swap_Permutation.
Qed.

(** [Shuffle] returns a rearrangement of its argument, for every length,
    the empty slice included: no draw is made out of range and no index is
    out of bounds.  It reads the clock once per round, [len(slice) - 1]
    times, and touches nothing but the generator. *)
Theorem Shuffle_Permutation (slice : list Z) (w : World P G) :
  exists (out : list Z) (g : G),
    Shuffle slice w
    = (Ok out,
       mkWorld (pool w) (chainDb w) g (clock w)
         (ticks w + (length slice - 1)) (cryptoReader w) (calls w)) /\
    out ≡ₚ slice.
Proof.
  unfold Shuffle. destruct slice as [|a slice].
  - exists [], (rng w). cbn. rewrite Nat.add_0_r. by destruct w.
  - apply (shuffleRounds_Permutation _ 0%nat). cbn [length]. lia.
Qed.

Lemma letterAt_letter (t : Z) : letterAt t ∈ letterBytes /\ letterAt t <> 0.
Proof.
  unfold letterAt. rewrite length_letterBytes.
  pose proof (draw_range (seedState t) 61 ltac:(lia)) as Hrange.
  destruct (lookup_lt_is_Some_2 letterBytes
              (Z.to_nat (draw (seedState t) 61).1)) as [c Hc].
  { change (length letterBytes) with 61%nat. lia. }
  rewrite Hc. cbn [default]. unfold id.
  apply list_elem_of_lookup_2 in Hc. split; [done|].
  intros ->. revert Hc. apply letterBytes_nonzero.
Qed.

Lemma RandStringByte_run (n : nat) :
  forall w : World P G,
    exists g : G,
      RandStringByte n w
      = (Ok (letterAt <$> readings w n),
         mkWorld (pool w) (chainDb w) g (clock w) (ticks w + n)
           (cryptoReader w) (calls w)).
Proof.
  induction n as [|n IH]; intros w.
  - exists (rng w). cbn. rewrite Nat.add_0_r. by destruct w.
  - cbn [RandStringByte].
    unfold mbind, M_bind, seedFromClock, randIntn, Intn.
    cbn [rng pool chainDb clock ticks cryptoReader calls].
    rewrite length_letterBytes. cbn [Z.leb Z.compare].
    pose proof (draw_range (seedState (clock w (ticks w))) 61 ltac:(lia))
      as Hrange.
    assert (Hletter : letterAt (clock w (ticks w))
                      = default 0 (letterBytes
                          !! Z.to_nat (draw (seedState (clock w (ticks w))) 61).1))
      by reflexivity.
    destruct (draw (seedState (clock w (ticks w))) 61) as [ri g1].
    cbn [fst] in Hrange, Hletter.
    destruct (lookup_lt_is_Some_2 letterBytes (Z.to_nat ri)) as [c Hc].
    { change (length letterBytes) with 61%nat. lia. }
    rewrite Hc in Hletter. cbn [default] in Hletter.
    assert (Hidx : index letterBytes ri = Ok c).
    { rewrite <- (Z2Nat.id ri) by lia. by apply index_Ok. }
    unfold liftRes. rewrite Hidx.
    match goal with
    | |- context [RandStringByte n ?w'] => destruct (IH w') as [g Heq]
    end.
    exists g. rewrite Heq.
    cbn [rng pool chainDb clock ticks cryptoReader calls mret M_ret].
    unfold mret, M_ret. f_equal; [|f_equal; lia].
    f_equal. unfold readings.
    cbn [rng pool chainDb clock ticks cryptoReader calls seq fmap list_fmap].
    rewrite Nat.add_0_r, Hletter. unfold id. f_equal.
    rewrite <- fmap_S_seq, <- !list_fmap_compose.
    apply list_fmap_ext. intros _ j _. cbn. do 2 f_equal. lia.
Qed.



End GeneratorProofs.

(** ** Decimal numbers *)

Lemma bytesOfString_String (a : ascii) (s : string) :
  bytesOfString (String a s) = Z.of_N (N_of_ascii a) :: bytesOfString s.
Proof. reflexivity. Qed.

Ltac digit_step :=
  rewrite bytesOfString_String; cbn [digitsValue];
  match goal with
  | |- context [Z.of_N (N_of_ascii ?a)] =>
    let c := eval vm_compute in (Z.of_N (N_of_ascii a)) in
    change (Z.of_N (N_of_ascii a)) with c
  end;
  cbn [Z.leb Z.compare Pos.compare Pos.compare_cont andb].

Lemma digitsValue_of_uint_acc (u : Decimal.uint) :
  forall p : positive,
    digitsValue (Z.pos p) (bytesOfString (NilEmpty.string_of_uint u))
    = Some (Z.pos (Pos.of_uint_acc u p)).
Proof.
  induction u as [|u IH|u IH|u IH|u IH|u IH|u IH|u IH|u IH|u IH|u IH];
    intros p; [done|..];
    cbn [NilEmpty.string_of_uint Pos.of_uint_acc]; digit_step;
    rewrite <- IH; f_equal; lia.
Qed.

Lemma digitsValue_of_uint (u : Decimal.uint) :
  digitsValue 0 (bytesOfString (NilEmpty.string_of_uint u))
  = Some (Z.of_N (Pos.of_uint u)).
Proof.
  induction u as [|u IH|u IH|u IH|u IH|u IH|u IH|u IH|u IH|u IH|u IH];
    [done|exact IH|..];
    cbn [NilEmpty.string_of_uint Pos.of_uint]; digit_step;
    apply digitsValue_of_uint_acc.
Qed.

(** The digits of a positive number: at least one, the first of them not a
    zero, none of them a sign. *)
Lemma to_uint_head (p : positive) :
  exists (c : Z) (rest : list byte),
    bytesOfString (NilEmpty.string_of_uint (Pos.to_uint p)) = c :: rest /\
    49 <= c <= 57.
Proof.
  pose proof (DecimalPos.Unsigned.to_of (Pos.to_uint p)) as Hnorm.
  rewrite DecimalPos.Unsigned.of_to in Hnorm. cbn [N.to_uint] in Hnorm.
  pose proof (DecimalPos.Unsigned.to_uint_nonzero p) as Hnz.
  pose proof (DecimalPos.Unsigned.to_uint_nonnil p) as Hnn.
  destruct (Pos.to_uint p) as [|u|u|u|u|u|u|u|u|u|u] eqn:Hu;
    [done| |cbn [NilEmpty.string_of_uint]; rewrite bytesOfString_String;
            eexists _, _; split; [reflexivity|vm_compute; split; discriminate]..].
  exfalso. unfold Decimal.unorm in Hnorm.
  destruct (Decimal.nzhead (Decimal.D0 u)) eqn:Hh; try congruence.
  subst. by eapply DecimalFacts.nzhead_nonzero.
Qed.

Lemma digitsValue_lower (s : list byte) :
  forall acc v : Z,
    0 <= acc -> digitsValue acc s = Some v ->
    acc * 10 ^ Z.of_nat (length s) <= v.
Proof.
  induction s as [|c s IH]; intros acc v Hacc Hv; cbn in Hv.
  - injection Hv as <-. cbn. lia.
  - destruct ((48 <=? c) && (c <=? 57)) eqn:Hc; [|done].
    apply andb_prop in Hc as [Hc1 Hc2].
    apply IH in Hv; [|lia].
    cbn [length]. rewrite Nat2Z.inj_succ, Z.pow_succ_r by lia.
    assert (0 <= 10 ^ Z.of_nat (length s)) by (apply Z.pow_nonneg; lia).
    nia.
Qed.

Lemma bigString_pos (p : positive) :
  bigString (Z.pos p)
  = bytesOfString (NilEmpty.string_of_uint (Pos.to_uint p)).
Proof.
  unfold bigString. cbn [Z.to_int NilZero.string_of_int].
  unfold NilZero.string_of_uint.
  pose proof (DecimalPos.Unsigned.to_uint_nonnil p).
  by destruct (Pos.to_uint p).
Qed.

Lemma bigString_neg (p : positive) :
  bigString (Z.neg p) = 45 :: bigString (Z.pos p).
Proof.
  rewrite bigString_pos. unfold bigString.
  cbn [Z.to_int NilZero.string_of_int]. rewrite bytesOfString_String.
  f_equal. unfold NilZero.string_of_uint.
  pose proof (DecimalPos.Unsigned.to_uint_nonnil p).
  by destruct (Pos.to_uint p).
Qed.

Lemma digitsValue_bigString (p : positive) :
  digitsValue 0 (bigString (Z.pos p)) = Some (Z.pos p).
Proof.
  rewrite bigString_pos, digitsValue_of_uint.
  by rewrite DecimalPos.Unsigned.of_to.
Qed.

(** Reading back a number printed in decimal. *)
Lemma Atoi_bigString (n : Z) :
  - 2 ^ 63 <= n < 2 ^ 63 -> Atoi (bigString n) = Ok n.
Proof.
  intros Hn. destruct n as [|p|p].
  - reflexivity.
  - pose proof (digitsValue_bigString p) as Hv. rewrite bigString_pos in *.
    destruct (to_uint_head p) as (c & rest & Hs & Hc). rewrite Hs in *.
    unfold Atoi.
    assert ((c =? 43) = false) as -> by lia.
    assert ((c =? 45) = false) as -> by lia.
    rewrite Hv.
    assert (((Z.pos p <? - 2 ^ 63) || (2 ^ 63 <=? Z.pos p)) = false) as ->;
      [|done].
    apply orb_false_intro; lia.
  - pose proof (digitsValue_bigString p) as Hv. rewrite bigString_neg.
    rewrite bigString_pos in *.
    destruct (to_uint_head p) as (c & rest & Hs & Hc). rewrite Hs in *.
    unfold Atoi. cbn [Z.eqb Pos.eqb].
    rewrite Hv.
    assert (((- Z.pos p <? - 2 ^ 63) || (2 ^ 63 <=? - Z.pos p)) = false) as ->;
      [|done].
    apply orb_false_intro; lia.
Qed.

(** A number below [10 ^ k] is printed with at most [k] digits. *)
Lemma length_bigString (n : Z) (k : nat) :
  0 <= n < 10 ^ Z.of_nat k -> (1 <= k)%nat -> (length (bigString n) <= k)%nat.
Proof.
  intros Hn Hk. destruct n as [|p|p]; [cbn; lia| |lia].
  pose proof (digitsValue_bigString p) as Hv. rewrite bigString_pos in *.
  destruct (to_uint_head p) as (c & rest & Hs & Hc). rewrite Hs in *.
  cbn [digitsValue] in Hv.
  assert (((48 <=? c) && (c <=? 57)) = true) as Hd
    by (apply andb_true_intro; lia).
  rewrite Hd in Hv. apply digitsValue_lower in Hv; [|lia].
  cbn [length].
  destruct (decide (length rest < k)%nat) as [|Hge]; [lia|].
  assert (10 ^ Z.of_nat k <= 10 ^ Z.of_nat (length rest))
    by (apply Z.pow_le_mono_r; lia).
  nia.
Qed.

Lemma bytesOfString_bytes (s : string) : Forall isByte (bytesOfString s).
Proof.
  unfold bytesOfString. apply Forall_fmap, Forall_forall. intros a _. cbn.
  pose proof (N_ascii_bounded a). unfold isByte. lia.
Qed.

Lemma bigString_digits (n : Z) :
  0 <= n -> Forall (fun c => 48 <= c <= 57) (bigString n).
Proof.
  intros Hn. destruct n as [|p|p]; [|clear Hn|lia].
  { change (bigString 0) with [48]. constructor; [lia|constructor]. }
  rewrite bigString_pos. generalize (Pos.to_uint p). intros u.
  induction u; cbn [NilEmpty.string_of_uint];
    [constructor|rewrite bytesOfString_String; constructor;
                 [vm_compute; split; discriminate|assumption]..].
Qed.

(** ** The randomize secrets *)

Lemma Atoi_range (s : list byte) (n : Z) :
  Atoi s = Ok n -> - 2 ^ 63 <= n < 2 ^ 63.
Proof.
  unfold Atoi.
  destruct (match s with
            | [] => (false, s)
            | c :: s' => if c =? 43 then (false, s')
                         else if c =? 45 then (true, s') else (false, s)
            end) as [neg digits].
  destruct digits as [|d digits]; [done|].
  destruct (digitsValue 0 (d :: digits)) as [v|]; [|done].
  cbv zeta.
  destruct ((_ <? _) || (_ <=? _)) eqn:Hr; [done|].
  intros [= <-]. apply orb_false_elim in Hr as [H1 H2]. lia.
Qed.

Lemma decryptRound_run `{CryptoLib} (opening : list byte) (random : Z)
    (secret : list byte) :
  decryptRound opening random secret
  = Ok (default random (revealed opening secret)).
Proof.
  unfold decryptRound, revealed, isInt.
  destruct (Atoi (Decrypt opening (TrimLeft secret [0]))) as [n| | |] eqn:Hn;
    try done.
  cbn. by rewrite (i64_id n) by (by eapply Atoi_range).
Qed.

Lemma decryptRounds_run `{CryptoLib} (opening : list byte)
    (secrets : list (list byte)) :
  forall random : Z,
    decryptRounds opening random secrets
    = Ok (default random (last (omap (revealed opening) secrets))).
Proof.
  induction secrets as [|secret secrets IH]; intros random; [done|].
  cbn [decryptRounds]. rewrite decryptRound_run.
  unfold mbind, Res_bind. rewrite IH. f_equal.
  change (omap (revealed opening) (secret :: secrets))
    with (match revealed opening secret with
          | Some n => n :: omap (revealed opening) secrets
          | None => omap (revealed opening) secrets
          end).
  destruct (revealed opening secret) as [n|]; [|done].
  destruct (omap (revealed opening) secrets) as [|m ms]; [done|].
  rewrite last_cons_cons.
  destruct (last (m :: ms)) eqn:Hl; [done|]. by apply last_None in Hl.
Qed.

Lemma DecryptRandomize_run `{CryptoLib} (secrets : list (list byte))
    (opening : list byte) :
  DecryptRandomizeFromSecretsAndOpening secrets opening
  = Ok (default 0 (last (omap (revealed opening) secrets))).
Proof.
  unfold DecryptRandomizeFromSecretsAndOpening.
  destruct secrets as [|secret secrets]; [done|].
  cbn [length Nat.ltb Nat.leb]. apply decryptRounds_run.
Qed.

(** [DecryptRandomizeFromSecretsAndOpening] never returns an error: the
    conversion it guards with [isInt] cannot fail where it is made.  The
    number returned is the one revealed by the last secret that decrypts,
    under the opening, to a decimal integer; secrets that do not (a text
    that is not base64, too short for the cipher, or not a number) are
    passed over, and with no such secret, or no secret at all, the result
    is 0. *)
Theorem DecryptRandomizeFromSecretsAndOpening_last `{CryptoLib}
    (secrets : list (list byte)) (opening : list byte) :
  DecryptRandomizeFromSecretsAndOpening secrets opening
  = Ok (default 0 (last (omap (revealed opening) secrets))) /\
  DecryptRandomizeFromSecretsAndOpening [] opening = Ok 0 /\
  (Forall (fun secret => revealed opening secret = None) secrets ->
   DecryptRandomizeFromSecretsAndOpening secrets opening = Ok 0).
Proof.
  pose proof (DecryptRandomize_run secrets opening) as Hrun.
  split; [exact Hrun|]. split; [done|].
  intros Hnone. rewrite Hrun. clear Hrun.
  assert (omap (revealed opening) secrets = []) as ->; [|done].
  induction Hnone as [|secret secrets Hs _ IH]; [done|].
  change (omap (revealed opening) (secret :: secrets))
    with (match revealed opening secret with
          | Some n => n :: omap (revealed opening) secrets
          | None => omap (revealed opening) secrets
          end).
  by rewrite Hs.
Qed.

Lemma TrimLeft_replicate (k : nat) (e : list byte) :
  TrimLeft (replicate k 0 ++ e) [0] = TrimLeft e [0].
Proof.
  induction k as [|k IH]; [done|].
  cbn [replicate app TrimLeft].
  rewrite bool_decide_eq_true_2 by (apply list_elem_of_singleton; done).
  exact IH.
Qed.

Lemma TrimLeft_LeftPadBytes (e : list byte) (l : nat) :
  Forall (fun c => c <> 0) e -> TrimLeft (LeftPadBytes e l) [0] = e.
Proof.
  intros He.
  assert (Hid : TrimLeft e [0] = e).
  { destruct He as [|c e Hc He]; [done|]. cbn [TrimLeft].
    rewrite bool_decide_eq_false_2; [done|].
    by intros ->%list_elem_of_singleton. }
  unfold LeftPadBytes. destruct (l <=? length e)%nat; [exact Hid|].
  by rewrite TrimLeft_replicate.
Qed.

Section RandomizeSecrets.
Context `{CryptoLib} {Hcrypto : CryptoLibOk} {Hbase64 : Base64Ok}.

(** What [Encrypt] makes of a text when the key is accepted and the reader
    delivers an initialization vector. *)
Lemma Encrypt_run (reader key text : list byte) :
  length key = 16%nat \/ length key = 24%nat \/ length key = 32%nat ->
  (BlockSize <= length reader)%nat ->
  Forall isByte text -> Forall isByte reader ->
  let iv := take BlockSize reader in
  let ciphertext := iv ++ NewCFB (aesEncryptBlock key) false iv text in
  Encrypt reader key text = EncodeToString ciphertext /\
  Forall isByte ciphertext /\
  length ciphertext = (BlockSize + length text)%nat /\
  Decrypt key (Encrypt reader key text) = text.
Proof.
  intros Hkey Hlong Htext Hreader iv ciphertext.
  assert (Hiv : length iv = BlockSize) by (unfold iv; rewrite length_take; lia).
  assert (Hbytes : Forall isByte ciphertext).
  { apply Forall_app; split; [by apply Forall_take|].
    apply XORKeyStream_bytes; auto using aesEncryptBlock_bytes.
    apply Forall_replicate. unfold isByte; lia. }
  assert (Hbody : forall (src out next : list byte) (decrypt : bool) (u : nat),
            length (XORKeyStream (aesEncryptBlock key) decrypt out next u src)
            = length src).
  { induction src as [|s src IH]; intros out next decrypt u; [done|].
    cbn [XORKeyStream]. destruct (u =? BlockSize)%nat; cbn [length];
      by rewrite IH. }
  assert (Henc : Encrypt reader key text = EncodeToString ciphertext).
  { unfold Encrypt. rewrite (NewCipher_valid key Hkey). unfold ReadFull.
    destruct (Nat.ltb_spec (length reader) BlockSize); [lia|done]. }
  split; [exact Henc|]. split; [exact Hbytes|].
  split; [unfold ciphertext, NewCFB; by rewrite length_app, Hiv, Hbody|].
  rewrite Henc. unfold Decrypt. rewrite (NewCipher_valid key Hkey).
  rewrite (decode_encode _ Hbytes).
  unfold ciphertext at 1. rewrite length_app, Hiv.
  destruct (Nat.ltb_spec
              (BlockSize + length (NewCFB (aesEncryptBlock key) false iv text))
              BlockSize) as [Hlt|_]; [lia|].
  unfold ciphertext.
  rewrite take_app_length' by done. rewrite drop_app_length' by done.
  apply XORKeyStream_roundtrip.
Qed.

Lemma Encrypt_reveals (reader key : list byte) (n : Z) :
  length key = 16%nat \/ length key = 24%nat \/ length key = 32%nat ->
  (BlockSize <= length reader)%nat -> Forall isByte reader ->
  0 <= n < 10 ^ 8 ->
  let secret := LeftPadBytes (Encrypt reader key (bigString n)) 32 in
  length secret = 32%nat /\
  DecryptRandomizeFromSecretsAndOpening [secret] key = Ok n.
Proof.
  intros Hkey Hlong Hreader Hn secret.
  assert (Htext : Forall isByte (bigString n)) by apply bytesOfString_bytes.
  destruct (Encrypt_run reader key (bigString n) Hkey Hlong Htext Hreader)
    as (Henc & Hbytes & Hlen & Hdec).
  pose proof (length_bigString n 8 Hn ltac:(lia)) as Hdigits.
  assert (Hshort : (length (Encrypt reader key (bigString n)) <= 32)%nat).
  { rewrite Henc, encode_length, Hlen. unfold BlockSize.
    assert (Hdiv : ((16 + length (bigString n) + 2) / 3 < 9)%nat)
      by (apply Nat.Div0.div_lt_upper_bound; lia).
    lia. }
  assert (Hnz : Forall (fun c => c <> 0) (Encrypt reader key (bigString n))).
  { rewrite Henc. by apply encode_nonzero. }
  split.
  - unfold secret, LeftPadBytes.
    destruct (Nat.leb_spec 32 (length (Encrypt reader key (bigString n))));
      [lia|].
    rewrite length_app, length_replicate. lia.
  - rewrite DecryptRandomize_run.
    change (omap (revealed key) [secret])
      with (match revealed key secret with
            | Some n => [n]
            | None => []
            end).
    unfold revealed, secret.
    rewrite TrimLeft_LeftPadBytes by done.
    rewrite Hdec, Atoi_bigString by lia. done.
Qed.

(** A committed number is revealed by its key: the secret made of a number
    below 10^8 (the encryption of its decimal digits, left-padded) is
    exactly 32 bytes long, and [DecryptRandomizeFromSecretsAndOpening],
    given that secret and the key as opening, returns the number. *)
Theorem DecryptRandomize_Encrypt (reader key : list byte) (n : Z) :
  length key = 16%nat \/ length key = 24%nat \/ length key = 32%nat ->
  (BlockSize <= length reader)%nat -> Forall isByte reader ->
  0 <= n < 10 ^ 8 ->
  let secret := LeftPadBytes (Encrypt reader key (bigString n)) 32 in
  length secret = 32%nat /\
  DecryptRandomizeFromSecretsAndOpening [secret] key = Ok n.
Proof. apply Encrypt_reveals. Qed.

End RandomizeSecrets.

Lemma enc6_nonzero (v : Z) : 0 <= v -> enc6 v <> 0.
Proof.
  intros Hv. unfold enc6.
  destruct (Z.ltb_spec v 26); [lia|]. destruct (Z.ltb_spec v 52); [lia|].
  destruct (Z.ltb_spec v 62); [lia|]. destruct (Z.eqb_spec v 62); lia.
Qed.

Lemma length_base64Encode (n : nat) :
  forall bs : list byte,
    (length bs <= n)%nat ->
    length (base64Encode bs) = (4 * ((length bs + 2) / 3))%nat.
Proof.
  induction n as [|n IH]; intros bs Hlen.
  { destruct bs; [done|cbn in Hlen; lia]. }
  destruct bs as [|a [|b [|c rest]]]; [done|done|done|].
  cbn [base64Encode length]. rewrite IH by (cbn in Hlen; lia).
  replace (S (S (S (length rest))) + 2)%nat
    with (length rest + 2 + 1 * 3)%nat by lia.
  rewrite Nat.div_add by done. lia.
Qed.

Lemma base64Encode_nonzero (n : nat) :
  forall bs : list byte,
    (length bs <= n)%nat -> Forall isByte bs ->
    Forall (fun c => c <> 0) (base64Encode bs).
Proof.
  induction n as [|n IH]; intros bs Hlen Hbs.
  { destruct bs; [constructor|cbn in Hlen; lia]. }
  destruct bs as [|a [|b [|c rest]]]; [constructor| | |].
  - apply Forall_cons_1 in Hbs as [Ha _]. unfold isByte in Ha.
    cbn [base64Encode].
    repeat (constructor; [first [apply enc6_nonzero; divmod_lia|lia]|]).
    constructor.
  - apply Forall_cons_1 in Hbs as [Ha Hbs].
    apply Forall_cons_1 in Hbs as [Hb _]. unfold isByte in Ha, Hb.
    cbn [base64Encode].
    repeat (constructor; [first [apply enc6_nonzero; divmod_lia|lia]|]).
    constructor.
  - apply Forall_cons_1 in Hbs as [Ha Hbs].
    apply Forall_cons_1 in Hbs as [Hb Hbs].
    apply Forall_cons_1 in Hbs as [Hc Hbs]. unfold isByte in Ha, Hb, Hc.
    cbn [base64Encode].
    repeat (constructor; [apply enc6_nonzero; divmod_lia|]).
    apply IH; [cbn in Hlen; lia|done].
Qed.

#[global] Instance sampleCrypto_base64 : Base64Ok.
Proof.
  split.
  - intros bs. by apply (length_base64Encode (length bs)).
  - intros bs Hbs. by apply (base64Encode_nonzero (length bs)).
Qed.

Lemma DecryptRandomize_Encrypt_witness :
  length (LeftPadBytes (Encrypt sampleReader sampleKey (bigString 42)) 32)
  = 32%nat /\
  DecryptRandomizeFromSecretsAndOpening
    [LeftPadBytes (Encrypt sampleReader sampleKey (bigString 42)) 32]
    sampleKey = Ok 42.
Proof.
  apply (DecryptRandomize_Encrypt sampleReader sampleKey 42).
  - left. reflexivity.
  - vm_compute. lia.
  - repeat constructor; unfold isByte; lia.
  - lia.
Defined.

Example DecryptRandomizeFromSecretsAndOpening_run :
  DecryptRandomizeFromSecretsAndOpening
    [LeftPadBytes (Encrypt sampleReader sampleKey (bigString 7)) 32;
     replicate 32 0;
     LeftPadBytes (Encrypt sampleReader sampleKey (bigString 42)) 32;
     LeftPadBytes (Encrypt sampleReader sampleKey (bytesOfString "x1")) 32]
    sampleKey = Ok 42.
Proof. vm_compute. reflexivity. Qed.

(** ** The transaction builders *)

Lemma LeftPadBytes_full (b : list byte) (l : nat) :
  length b = l -> LeftPadBytes b l = b.
Proof. intros <-. unfold LeftPadBytes. by rewrite Nat.leb_refl. Qed.

(** A signing transaction names its block where the reward tally looks for
    it: the payload [CreateTxSign] builds ends with the 32 bytes of the
    block hash, so the tally, which files a signing transaction under the
    trailing 32 bytes of its payload, credits the sender of the signed
    transaction for exactly that block. *)
Theorem CreateTxSign_collectSigner {C : Type} (reg : Registry)
    (blockNumber : Z) (blockHash : Hash) (nonce : Z) (blockSigner : Address)
    (signed : Transaction) (from : Address)
    (data : gmap Hash (list Address)) (st : RewardState C) :
  length blockHash = 32%nat ->
  txData signed
  = txData (CreateTxSign reg blockNumber blockHash nonce blockSigner) ->
  txFrom signed = Some from ->
  BytesToHash (drop (length (txData signed) - 32) (txData signed)) = blockHash /\
  collectSigner data signed st
  = (Ok (<[blockHash := default [] (data !! blockHash) ++ [from]]> data), st).
Proof.
  intros Hlen Hdata Hfrom.
  assert (Htail : drop (length (txData signed) - 32) (txData signed)
                  = blockHash).
  { rewrite Hdata. cbn [CreateTxSign NewTransaction txData].
    rewrite (LeftPadBytes_full blockHash) by done.
    rewrite length_app, Hlen, Nat.add_sub.
    by rewrite drop_app_length. }
  assert (Hhash : BytesToHash blockHash = blockHash).
  { unfold BytesToHash. rewrite Hlen, Nat.sub_diag, drop_0.
    by apply LeftPadBytes_full. }
  split; [by rewrite Htail|].
  unfold collectSigner.
  assert ((length (txData signed) <? 32)%nat = false) as ->.
  { apply Nat.ltb_ge. rewrite Hdata. cbn [CreateTxSign NewTransaction txData].
    rewrite length_app, (LeftPadBytes_full blockHash), Hlen by done. lia. }
  rewrite Htail, Hhash, Hfrom. reflexivity.
Qed.

Lemma CreateTxSign_collectSigner_witness :
  collectSigner ∅
    (mkTransaction 5 136%N 0 200000 0
       (txData (CreateTxSign sampleRegistry 3 (sampleHash 3) 5 136%N))
       (Some 11%N))
    (mkRewardState tt 0)
  = (Ok {[sampleHash 3 := [11%N]]}, mkRewardState tt 0).
Proof.
  destruct (CreateTxSign_collectSigner sampleRegistry 3 (sampleHash 3) 5 136%N
              (mkTransaction 5 136%N 0 200000 0
                 (txData (CreateTxSign sampleRegistry 3 (sampleHash 3) 5 136%N))
                 (Some 11%N))
              11%N ∅ (mkRewardState tt 0)) as [_ Hrun];
    [reflexivity|reflexivity|reflexivity|].
  exact Hrun.
Defined.

Section BuilderProofs.
Context {P G : Type} `{RandSourceOk G} `{CryptoLib}.

Lemma BuildTxSecretRandomize_run (reg : Registry) (nonce : Z)
    (randomizeAddr : Address) (epocNumber : Z) (randomizeKey : list byte)
    (w : World P G) :
  0 < i64 epocNumber ->
  let drawn := draw (seedState (clock w (ticks w))) (i64 epocNumber) in
  BuildTxSecretRandomize reg nonce randomizeAddr epocNumber randomizeKey w
  = (Ok (NewTransaction nonce randomizeAddr 0 200000 0
           (((HexSetSecret reg ++ LeftPadBytes (bigBytes 32) 32)
             ++ LeftPadBytes (bigBytes 1) 32)
            ++ LeftPadBytes
                 (Encrypt (cryptoReader w) randomizeKey (bigString (i64 drawn.1)))
                 32)),
     mkWorld (pool w) (chainDb w) drawn.2 (clock w) (S (ticks w))
       (match NewCipher randomizeKey with
        | Some _ => drop BlockSize (cryptoReader w)
        | None => cryptoReader w
        end) (calls w)).
Proof.
  intros Hep. cbv zeta.
  unfold BuildTxSecretRandomize, mbind, M_bind, seedFromClock, randIntn, Intn.
  cbn [rng pool chainDb clock ticks cryptoReader calls].
  assert ((i64 epocNumber <=? 0) = false) as -> by lia.
  destruct (draw (seedState (clock w (ticks w))) (i64 epocNumber))
    as [secretNumb g1].
  reflexivity.
Qed.

(** [BuildTxSecretRandomize] never returns an error, so the check its
    caller makes of the error cannot fire; it panics exactly when the
    epoch, taken as an int, is not positive (a draw from an empty range),
    and returns a transaction otherwise. *)
Theorem BuildTxSecretRandomize_edges (reg : Registry) (nonce : Z)
    (randomizeAddr : Address) (epocNumber : Z) (randomizeKey : list byte)
    (w : World P G) :
  let res :=
    (BuildTxSecretRandomize reg nonce randomizeAddr epocNumber randomizeKey w).1
  in
  (i64 epocNumber <= 0 -> res = Panic) /\
  (0 < i64 epocNumber ->
   exists tx, res = Ok tx /\ txNonce tx = nonce /\ txTo tx = randomizeAddr /\
              txAmount tx = 0 /\ txGasLimit tx = 200000 /\ txGasPrice tx = 0) /\
  (forall e, res <> Err e) /\ res <> OutOfFuel.
Proof.
  cbv zeta. destruct (Z.lt_ge_cases 0 (i64 epocNumber)) as [Hpos|Hneg].
  - rewrite (BuildTxSecretRandomize_run _ _ _ _ _ _ Hpos). cbn [fst].
    split; [lia|]. split; [|done].
    intros _. eexists; split; [reflexivity|]. done.
  - assert (Hrun : (BuildTxSecretRandomize reg nonce randomizeAddr epocNumber
                      randomizeKey w).1 = Panic).
    { unfold BuildTxSecretRandomize, mbind, M_bind, seedFromClock, randIntn,
        Intn.
      cbn [rng pool chainDb clock ticks cryptoReader calls].
      by assert ((i64 epocNumber <=? 0) = true) as -> by lia. }
    rewrite Hrun. split; [done|]. split; [lia|done].
Qed.

End BuilderProofs.

Section CommitProofs.
Context {P G : Type} `{RandSourceOk G} `{CryptoLib}
  {Hcrypto : CryptoLibOk} {Hbase64 : Base64Ok}.

Lemma BuildTxSecretRandomize_secret (reg : Registry) (nonce : Z)
    (randomizeAddr : Address) (epocNumber : Z) (randomizeKey : list byte)
    (w : World P G) :
  0 < epocNumber <= 10 ^ 8 ->
  length randomizeKey = 16%nat \/ length randomizeKey = 24%nat
  \/ length randomizeKey = 32%nat ->
  (BlockSize <= length (cryptoReader w))%nat ->
  Forall isByte (cryptoReader w) ->
  exists (tx : Transaction) (w' : World P G) (secretNumb : Z)
         (secret : list byte),
    BuildTxSecretRandomize reg nonce randomizeAddr epocNumber randomizeKey w
    = (Ok tx, w') /\
    0 <= secretNumb < epocNumber /\
    txData tx
    = HexSetSecret reg ++ LeftPadBytes (bigBytes 32) 32
      ++ LeftPadBytes (bigBytes 1) 32 ++ secret /\
    length secret = 32%nat /\
    DecryptRandomizeFromSecretsAndOpening [secret] randomizeKey
    = Ok secretNumb /\
    txTo tx = randomizeAddr /\ txAmount tx = 0.
Proof.
  intros Hep Hkey Hlong Hreader.
  assert (Hi : i64 epocNumber = epocNumber) by (apply i64_id; lia).
  rewrite BuildTxSecretRandomize_run by lia. rewrite Hi.
  pose proof (draw_range (seedState (clock w (ticks w))) epocNumber
                ltac:(lia)) as Hrange.
  set (secretNumb := (draw (seedState (clock w (ticks w))) epocNumber).1) in *.
  rewrite (i64_id secretNumb) by lia.
  destruct (Encrypt_reveals (cryptoReader w) randomizeKey secretNumb Hkey
              Hlong Hreader ltac:(lia)) as [Hlen Hreveal].
  eexists _, _, secretNumb, _. split; [reflexivity|].
  split; [exact Hrange|]. split; [|split_and!; done].
  cbn [NewTransaction txData]. by rewrite <- !app_assoc.
Qed.

(** The secret transaction commits to a number of the epoch that its key
    reveals: for an epoch of at most 10^8 blocks, a key the cipher accepts
    and a reader that delivers an initialization vector, the payload
    [BuildTxSecretRandomize] builds is the method selector, the words 32
    and 1, and one secret of exactly 32 bytes, from which
    [DecryptRandomizeFromSecretsAndOpening], given the key as opening,
    recovers a number drawn from [0, epoch). *)
Theorem BuildTxSecretRandomize_commits (reg : Registry) (nonce : Z)
    (randomizeAddr : Address) (epocNumber : Z) (randomizeKey : list byte)
    (w : World P G) :
  0 < epocNumber <= 10 ^ 8 ->
  length randomizeKey = 16%nat \/ length randomizeKey = 24%nat
  \/ length randomizeKey = 32%nat ->
  (BlockSize <= length (cryptoReader w))%nat ->
  Forall isByte (cryptoReader w) ->
  exists (tx : Transaction) (w' : World P G) (secretNumb : Z)
         (secret : list byte),
    BuildTxSecretRandomize reg nonce randomizeAddr epocNumber randomizeKey w
    = (Ok tx, w') /\
    0 <= secretNumb < epocNumber /\
    txData tx
    = HexSetSecret reg ++ LeftPadBytes (bigBytes 32) 32
      ++ LeftPadBytes (bigBytes 1) 32 ++ secret /\
    length secret = 32%nat /\
    DecryptRandomizeFromSecretsAndOpening [secret] randomizeKey
    = Ok secretNumb.
Proof.
  intros Hep Hkey Hlong Hreader.
  destruct (BuildTxSecretRandomize_secret reg nonce randomizeAddr epocNumber
              randomizeKey w Hep Hkey Hlong Hreader)
    as (tx & w' & n & secret & Hrun & Hn & Hdata & Hlen & Hreveal & _).
  by exists tx, w', n, secret.
Qed.

End CommitProofs.

Lemma BuildTxSecretRandomize_commits_witness :
  exists (tx : Transaction) (w' : World (nat * Z) Z) (secretNumb : Z)
         (secret : list byte),
    BuildTxSecretRandomize sampleRegistry 5 144%N 900 (replicate 32 97)
      (sampleWorld 0 ∅) = (Ok tx, w') /\
    0 <= secretNumb < 900 /\
    length secret = 32%nat /\
    DecryptRandomizeFromSecretsAndOpening [secret] (replicate 32 97)
    = Ok secretNumb.
Proof.
  destruct (BuildTxSecretRandomize_commits sampleRegistry 5 144%N 900
              (replicate 32 97) (sampleWorld 0 ∅))
    as (tx & w' & n & secret & Hrun & Hn & _ & Hlen & Hreveal).
  - lia.
  - right; right. reflexivity.
  - vm_compute. lia.
  - apply Forall_replicate. unfold isByte. lia.
  - exists tx, w', n, secret. done.
Defined.

(** ** The signing protocol, continued *)

Lemma bind_Ok {S A B} (m : M S A) (k : A -> M S B) (s s1 : S) (a : A) :
  m s = (Ok a, s1) -> (m ≫= k) s = k a s1.
Proof. intros Hm. unfold mbind, M_bind. by rewrite Hm. Qed.

Lemma bind_Panic {S A B} (m : M S A) (k : A -> M S B) (s s1 : S) :
  m s = (Panic, s1) -> (m ≫= k) s = (Panic, s1).
Proof. intros Hm. unfold mbind, M_bind. by rewrite Hm. Qed.

Lemma bind_Ok_inv {S A B} (m : M S A) (k : A -> M S B) (s s' : S) (b : B) :
  (m ≫= k) s = (Ok b, s') ->
  exists (a : A) (s1 : S), m s = (Ok a, s1) /\ k a s1 = (Ok b, s').
Proof.
  unfold mbind, M_bind. destruct (m s) as [[a|e| |] s1]; try done. eauto.
Qed.

Lemma app_eq_self {A} (l evs : list A) : l = l ++ evs -> evs = [].
Proof.
  intros Hl. rewrite <- (app_nil_r l) in Hl at 1.
  by apply app_inv_head in Hl.
Qed.

Section SignProtocol.
Context {P G : Type} `{TxPool P} `{RandSourceOk G} `{CryptoLib}.

(** The retry loop touches the pool and the record of calls only, and
    every transaction it hands to the wallet is the signing transaction of
    the block. *)
Lemma signLoop_trace (reg : Registry) (chainConfig : ChainConfig)
    (wallet : option Wallet) (account : Address) (block : Block) (fuel : nat) :
  forall (retryCount nonce : Z) (w w' : World P G) (res : Res unit),
    signLoop fuel reg chainConfig wallet account block retryCount nonce w
    = (res, w') ->
    exists evs : list Event,
      calls w' = calls w ++ evs /\
      chainDb w' = chainDb w /\ rng w' = rng w /\ clock w' = clock w /\
      ticks w' = ticks w /\ cryptoReader w' = cryptoReader w /\
      Forall (kindOnly SignKind) evs /\
      (wallet = None -> evs = [] /\ (fuel <> O -> res = Panic)) /\
      (forall kind tx failed,
         EvSignTx kind tx failed ∈ evs ->
         exists n, tx = CreateTxSign reg (BlockNumber block) (BlockHash block)
                          n (BlockSigners reg)) /\
      ((exists tx, (tx, None) ∈ addLocals SignKind evs) <-> res = Ok tt).
Proof.
  induction fuel as [|fuel IH]; intros retryCount nonce w w' res Hrun.
  { injection Hrun as <- <-. exists []. rewrite app_nil_r.
    split_and!; try done.
    - intros k tx f Hin. by apply elem_of_nil in Hin.
    - split; [intros [tx Hin]; by apply elem_of_nil in Hin|done]. }
  cbn [signLoop] in Hrun.
  set (tx := CreateTxSign reg (BlockNumber block) (BlockHash block) nonce
               (BlockSigners reg)) in Hrun.
  assert (Htx : exists n, tx = CreateTxSign reg (BlockNumber block)
                                 (BlockHash block) n (BlockSigners reg))
    by (by exists nonce).
  clearbody tx.
  unfold walletSignTx, mbind, M_bind in Hrun.
  destruct wallet as [wl|]; cbn in Hrun.
  2:{ injection Hrun as <- <-. exists []. rewrite app_nil_r.
      split_and!; try done.
      - intros k tx' f Hin. by apply elem_of_nil in Hin.
      - split; [intros [tx' Hin]; by apply elem_of_nil in Hin|done]. }
  destruct (SignTx wl account tx (ChainId chainConfig)) as [err|txSigned];
    cbn in Hrun.
  { injection Hrun as <- <-. eexists [_].
    split_and!; try done.
    - apply List.Forall_cons; [by left|apply List.Forall_nil].
    - intros k tx' f Hin. apply list_elem_of_singleton in Hin.
      by injection Hin as _ <- _.
    - split; [intros [tx' Hin]; by apply elem_of_nil in Hin|done]. }
  unfold poolAddLocal in Hrun. cbn in Hrun.
  destruct (AddLocal (pool w) txSigned) as [p [err|]] eqn:Hadd; cbn in Hrun.
  2:{ injection Hrun as <- <-. eexists [_; _].
      split_and!; try done.
      - cbn. by rewrite <- app_assoc.
      - repeat (apply List.Forall_cons; [by left|]). apply List.Forall_nil.
      - intros k tx' f Hin. apply elem_of_cons in Hin as [Hin|Hin].
        + by injection Hin as _ <- _.
        + by apply list_elem_of_singleton in Hin.
      - split; [done|]. intros _. exists txSigned.
        cbn. rewrite bool_decide_eq_true_2 by done. apply list_elem_of_here. }
  assert (Hhead : forall evs : list Event,
            (forall kind tx' failed,
               EvSignTx kind tx' failed ∈ evs ->
               exists n, tx' = CreateTxSign reg (BlockNumber block)
                                 (BlockHash block) n (BlockSigners reg)) ->
            forall kind tx' failed,
              EvSignTx kind tx' failed
              ∈ EvSignTx SignKind tx None
                :: EvAddLocal SignKind txSigned (Some err)
                :: EvGetNonce account (GetNonce p account) :: evs ->
              exists n, tx' = CreateTxSign reg (BlockNumber block)
                                (BlockHash block) n (BlockSigners reg)).
  { intros evs Hevs k tx' f Hin.
    apply elem_of_cons in Hin as [Hin|Hin]; [by injection Hin as _ <- _|].
    apply elem_of_cons in Hin as [Hin|Hin]; [done|].
    apply elem_of_cons in Hin as [Hin|Hin]; [done|]. eauto. }
  destruct (10 <=? retryCount).
  { cbn in Hrun. injection Hrun as <- <-. eexists [_; _; _].
    split_and!; try done.
    - cbn. by rewrite <- !app_assoc.
    - repeat (apply List.Forall_cons; [first [by left|by right]|]).
      apply List.Forall_nil.
    - apply Hhead. intros k tx' f Hin. by apply elem_of_nil in Hin.
    - split; [|done]. intros [tx' Hin]. cbn in Hin.
      rewrite bool_decide_eq_true_2 in Hin by done.
      apply list_elem_of_singleton in Hin. done. }
  apply IH in Hrun.
  destruct Hrun as (evs & Hcalls & Hdb & Hrng & Hclock & Hticks & Hreader
                    & Hkinds & _ & Htxs & Hacc).
  cbn in Hcalls, Hdb, Hrng, Hclock, Hticks, Hreader.
  exists (EvSignTx SignKind tx None :: EvAddLocal SignKind txSigned (Some err)
          :: EvGetNonce account (GetNonce p account) :: evs).
  rewrite <- !app_assoc in Hcalls. cbn in Hcalls.
  split_and!; try done.
  - repeat (apply List.Forall_cons; [first [by left|by right]|]). done.
  - by apply Hhead.
  - rewrite <- Hacc. cbn. rewrite bool_decide_eq_true_2 by done.
    split; intros [tx' Hin]; exists tx'.
    + apply elem_of_cons in Hin as [Hin|Hin]; [done|exact Hin].
    + by apply list_elem_of_further.
Qed.

Lemma poolGetNonce_run (account : Address) (w : World P G) :
  poolGetNonce account w
  = (Ok (GetNonce (pool w) account),
     mkWorld (pool w) (chainDb w) (rng w) (clock w) (ticks w) (cryptoReader w)
       (calls w ++ [EvGetNonce account (GetNonce (pool w) account)])).
Proof. reflexivity. Qed.

(** The run of [CreateTransactionSign], split at the end of the retry
    loop. *)
Lemma CreateTransactionSign_tail (fuel : nat) (cs : common.Constants)
    (reg : Registry) (chainConfig : ChainConfig) (manager : Manager)
    (block : Block) (eb : Address) (s2pos : S2PoSConfig)
    (w w' : World P G) (res : Res unit) :
  S2PoS chainConfig = Some s2pos ->
  CreateTransactionSign fuel cs reg chainConfig manager block eb w = (res, w') ->
  let wallet := (findAccount manager eb).1 in
  let account := (findAccount manager eb).2 in
  let nonce := GetNonce (pool w) account in
  let w0 := mkWorld (pool w) (chainDb w) (rng w) (clock w) (ticks w)
              (cryptoReader w) (calls w ++ [EvGetNonce account nonce]) in
  exists (wl : World P G) (resl : Res unit),
    signLoop fuel reg chainConfig wallet account block 1 nonce w0 = (resl, wl) /\
    match resl with
    | Ok _ =>
      if Epoch s2pos =? 0 then (res, w') = (Panic, wl)
      else
        let exist := bool_decide (is_Some (chainDb wl !! randomizeKeyName)) in
        let checkNumber := checkNumberOf block s2pos in
        if secretBranch cs exist checkNumber
        then setSecret reg chainConfig s2pos wallet account wl = (res, w')
        else if openingBranch cs exist checkNumber
             then setOpening reg chainConfig wallet account wl = (res, w')
             else (res, w') = (Ok tt, wl)
    | _ => res = resl /\ w' = wl
    end.
Proof.
  intros Hs2 Hrun. unfold CreateTransactionSign in Hrun. rewrite Hs2 in Hrun.
  destruct (findAccount manager eb) as [wallet account]. cbn [fst snd].
  rewrite (bind_Ok _ _ _ _ _ (poolGetNonce_run account w)) in Hrun.
  unfold mbind at 1, M_bind at 1 in Hrun.
  match type of Hrun with
  | context [signLoop ?f ?r ?c ?wa ?a ?b ?rc ?n ?w0] =>
    destruct (signLoop f r c wa a b rc n w0) as [resl wl] eqn:Hloop
  end.
  exists wl, resl. split; [reflexivity|].
  destruct resl as [[]| | |]; try (by injection Hrun as <- <-).
  unfold umod in Hrun.
  destruct (Epoch s2pos =? 0) eqn:Hep.
  { by injection Hrun as <- <-. }
  unfold mbind at 1, M_bind at 1, mret at 1, M_ret at 1 in Hrun.
  unfold mbind at 1, M_bind at 1, dbHas in Hrun.
  cbv beta iota in Hrun.
  fold (checkNumberOf block s2pos) in Hrun. cbv zeta.
  set (exist := bool_decide (is_Some (chainDb wl !! randomizeKeyName))) in *.
  set (cn := checkNumberOf block s2pos) in *.
  destruct (secretBranch cs exist cn) eqn:Hsec.
  - rewrite (secretBranch_openingBranch _ _ _ Hsec) in Hrun.
    unfold mbind, M_bind in Hrun.
    destruct (setSecret reg chainConfig s2pos wallet account wl)
      as [[[]| | |] w2]; by injection Hrun as <- <-.
  - unfold mbind at 1, M_bind at 1, mret at 1, M_ret at 1 in Hrun.
    cbv beta iota in Hrun.
    destruct (openingBranch cs exist cn); [exact Hrun|].
    by injection Hrun as <- <-.
Qed.

Lemma walletSignTx_cases (kind : TxKind) (wallet : option Wallet)
    (account : Address) (tx : Transaction) (chainID : Z) (w : World P G) :
  let logged failed :=
    mkWorld (pool w) (chainDb w) (rng w) (clock w) (ticks w) (cryptoReader w)
      (calls w ++ [EvSignTx kind tx failed]) in
  (wallet = None /\
   walletSignTx kind wallet account tx chainID w = (Panic, w)) \/
  (exists err,
     walletSignTx kind wallet account tx chainID w
     = (Err err, logged (Some err))) \/
  (exists txSigned,
     walletSignTx kind wallet account tx chainID w
     = (Ok txSigned, logged None)).
Proof.
  cbv zeta. unfold walletSignTx, mbind, M_bind.
  destruct wallet as [wl|]; cbn; [|by left].
  destruct (SignTx wl account tx chainID) as [err|txSigned]; cbn;
    right; [left|right]; eauto.
Qed.

(** The commit of a secret: the calls it makes, the transaction it hands
    to the wallet, and what becomes of the local store. *)
Lemma setSecret_trace (reg : Registry) (chainConfig : ChainConfig)
    (s2pos : S2PoSConfig) (wallet : option Wallet) (account : Address)
    (w w' : World P G) (res : Res unit) :
  setSecret reg chainConfig s2pos wallet account w = (res, w') ->
  let key := letterAt <$> readings w 32 in
  exists evs : list Event,
    calls w' = calls w ++ evs /\
    Forall (kindOnly SecretKind) evs /\
    (forall kind tx failed,
       EvSignTx kind tx failed ∈ evs ->
       exists (nonce : Z) (w1 w2 : World P G),
         cryptoReader w1 = cryptoReader w /\
         BuildTxSecretRandomize reg nonce (RandomizeSMC reg) (Epoch s2pos)
           key w1 = (Ok tx, w2)) /\
    (((exists tx, (tx, None) ∈ addLocals SecretKind evs) /\ res = Ok tt /\
      chainDb w' = <[randomizeKeyName := key]> (chainDb w)) \/
     ((forall tx, (tx, None) ∉ addLocals SecretKind evs) /\ res <> Ok tt /\
      chainDb w' = chainDb w)).
Proof.
  intros Hrun key. unfold setSecret in Hrun.
  destruct (RandStringByte_run 32 w) as [g1 Hkey]. fold key in Hkey.
  rewrite (bind_Ok _ _ _ _ _ Hkey) in Hrun.
  rewrite (bind_Ok _ _ _ _ _ (poolGetNonce_run _ _)) in Hrun.
  cbn [pool chainDb rng clock ticks cryptoReader calls] in Hrun.
  set (nonce := GetNonce (pool w) account) in *.
  unfold mbind at 1, M_bind at 1 in Hrun.
  match type of Hrun with
  | context [BuildTxSecretRandomize ?r ?n ?a ?e ?k ?wa] =>
    set (w1 := wa) in *;
    destruct (BuildTxSecretRandomize r n a e k w1) as [rb wb] eqn:Hbuild
  end.
  assert (Hframe : calls wb = calls w1 /\ chainDb wb = chainDb w1
                   /\ pool wb = pool w1
                   /\ (forall tx, rb = Ok tx -> True)
                   /\ (rb = Panic \/ exists tx, rb = Ok tx)).
  { destruct (Z.lt_ge_cases 0 (i64 (Epoch s2pos))) as [Hpos|Hneg].
    - rewrite BuildTxSecretRandomize_run in Hbuild by done.
      injection Hbuild as <- <-. split_and!; try done. right. eauto.
    - unfold BuildTxSecretRandomize, mbind, M_bind, seedFromClock, randIntn,
        Intn in Hbuild.
      cbn [rng pool chainDb clock ticks cryptoReader calls] in Hbuild.
      assert ((i64 (Epoch s2pos) <=? 0) = true) as Hle by lia.
      rewrite Hle in Hbuild. injection Hbuild as <- <-.
      split_and!; try done. by left. }
  destruct Hframe as (Hcb & Hdb & Hpb & _ & Hrb).
  unfold w1 in Hcb, Hdb, Hpb.
  cbn [pool chainDb rng clock ticks cryptoReader calls] in Hcb, Hdb, Hpb.
  assert (Hnone : forall tx, (tx, None) ∉ addLocals SecretKind
                                 [EvGetNonce account nonce]).
  { intros tx Hin. by apply elem_of_nil in Hin. }
  destruct Hrb as [-> | [tx ->]].
  { injection Hrun as <- <-. exists [EvGetNonce account nonce].
    split_and!; try done.
    - apply List.Forall_cons; [by right|apply List.Forall_nil].
    - intros k tx f Hin. by apply list_elem_of_singleton in Hin.
    - right. by rewrite Hdb. }
  assert (Hbuilt : exists (n : Z) (w1 w2 : World P G),
            cryptoReader w1 = cryptoReader w /\
            BuildTxSecretRandomize reg n (RandomizeSMC reg) (Epoch s2pos) key
              w1 = (Ok tx, w2)).
  { exists nonce, w1, wb. split; [reflexivity|exact Hbuild]. }
  clear Hbuild.
  destruct (walletSignTx_cases SecretKind wallet account tx
              (ChainId chainConfig) wb)
    as [[_ Hsign] | [[err Hsign] | [txSigned Hsign]]]; cbv zeta in Hsign.
  - rewrite (bind_Panic _ _ _ _ Hsign) in Hrun. injection Hrun as <- <-.
    exists [EvGetNonce account nonce].
    split_and!; try done.
    + apply List.Forall_cons; [by right|apply List.Forall_nil].
    + intros k tx' f Hin. by apply list_elem_of_singleton in Hin.
    + right. by rewrite Hdb.
  - unfold mbind at 1, M_bind at 1 in Hrun. rewrite Hsign in Hrun.
    injection Hrun as <- <-.
    exists [EvGetNonce account nonce; EvSignTx SecretKind tx (Some err)].
    cbn [pool chainDb rng clock ticks cryptoReader calls].
    split_and!.
    + by rewrite Hcb, <- app_assoc.
    + apply List.Forall_cons; [by right|].
      apply List.Forall_cons; [by left|apply List.Forall_nil].
    + intros k tx' f Hin. apply elem_of_cons in Hin as [Hin|Hin]; [done|].
      apply list_elem_of_singleton in Hin. by injection Hin as _ <- _.
    + right. split_and!; [|done|by rewrite Hdb].
      intros tx' Hin. by apply elem_of_nil in Hin.
  - rewrite (bind_Ok _ _ _ _ _ Hsign) in Hrun.
    unfold poolAddLocal, setPool, record, mbind, M_bind, mret, M_ret in Hrun.
    cbn [pool chainDb rng clock ticks cryptoReader calls] in Hrun.
    destruct (AddLocal (pool wb) txSigned) as [p [err|]];
      cbn [pool chainDb rng clock ticks cryptoReader calls returnErr dbPut]
        in Hrun;
      injection Hrun as <- <-;
      cbn [pool chainDb rng clock ticks cryptoReader calls].
    + exists [EvGetNonce account nonce; EvSignTx SecretKind tx None;
              EvAddLocal SecretKind txSigned (Some err)].
      split_and!.
      * by rewrite Hcb, <- !app_assoc.
      * apply List.Forall_cons; [by right|].
        repeat (apply List.Forall_cons; [by left|]). apply List.Forall_nil.
      * intros k tx' f Hin. apply elem_of_cons in Hin as [Hin|Hin]; [done|].
        apply elem_of_cons in Hin as [Hin|Hin];
          [by injection Hin as _ <- _|].
        by apply list_elem_of_singleton in Hin.
      * right. split_and!; [|done|by rewrite Hdb].
        intros tx' Hin. cbn in Hin.
        apply list_elem_of_singleton in Hin. done.
    + exists [EvGetNonce account nonce; EvSignTx SecretKind tx None;
              EvAddLocal SecretKind txSigned None].
      split_and!.
      * by rewrite Hcb, <- !app_assoc.
      * apply List.Forall_cons; [by right|].
        repeat (apply List.Forall_cons; [by left|]). apply List.Forall_nil.
      * intros k tx' f Hin. apply elem_of_cons in Hin as [Hin|Hin]; [done|].
        apply elem_of_cons in Hin as [Hin|Hin];
          [by injection Hin as _ <- _|].
        by apply list_elem_of_singleton in Hin.
      * left. split_and!; [|done|by rewrite Hdb].
        exists txSigned. cbn. apply list_elem_of_here.
Qed.

(** The reveal of the opening: the calls it makes, the transaction it
    hands to the wallet, and what becomes of the local store. *)
Lemma setOpening_trace (reg : Registry) (chainConfig : ChainConfig)
    (wallet : option Wallet) (account : Address)
    (w w' : World P G) (res : Res unit) :
  setOpening reg chainConfig wallet account w = (res, w') ->
  exists evs : list Event,
    calls w' = calls w ++ evs /\
    Forall (kindOnly OpeningKind) evs /\
    (forall kind tx failed,
       EvSignTx kind tx failed ∈ evs ->
       exists key : list byte,
         chainDb w !! randomizeKeyName = Some key /\
         tx = NewTransaction (GetNonce (pool w) account) (RandomizeSMC reg) 0
                200000 0 (HexSetOpening reg ++ key)) /\
    (((exists tx, (tx, None) ∈ addLocals OpeningKind evs) /\ res = Ok tt /\
      chainDb w' = delete randomizeKeyName (chainDb w)) \/
     ((forall tx, (tx, None) ∉ addLocals OpeningKind evs) /\ res <> Ok tt /\
      chainDb w' = chainDb w)).
Proof.
  intros Hrun. unfold setOpening in Hrun.
  unfold mbind at 1, M_bind at 1, dbGet in Hrun.
  destruct (chainDb w !! randomizeKeyName) as [key|] eqn:Hkey.
  2:{ injection Hrun as <- <-. exists []. rewrite app_nil_r.
      split_and!; try done.
      - intros k tx f Hin. by apply elem_of_nil in Hin.
      - right. split_and!; try done. intros tx Hin.
        by apply elem_of_nil in Hin. }
  rewrite (bind_Ok _ _ _ _ _ (poolGetNonce_run _ _)) in Hrun.
  set (nonce := GetNonce (pool w) account) in *.
  unfold BuildTxOpeningRandomize in Hrun.
  unfold mbind at 1, M_bind at 1, mret at 1, M_ret at 1 in Hrun.
  cbv beta iota zeta in Hrun.
  set (tx := NewTransaction nonce (RandomizeSMC reg) 0 200000 0
               (HexSetOpening reg ++ key)) in *.
  match type of Hrun with
  | context [walletSignTx ?k ?wa ?a ?t ?c] =>
    match type of Hrun with
    | (_ ≫= _) ?wb = _ =>
      destruct (walletSignTx_cases k wa a t c wb)
        as [[_ Hsign] | [[err Hsign] | [txSigned Hsign]]]; cbv zeta in Hsign
    end
  end.
  - rewrite (bind_Panic _ _ _ _ Hsign) in Hrun. injection Hrun as <- <-.
    exists [EvGetNonce account nonce].
    split_and!; try done.
    + apply List.Forall_cons; [by right|apply List.Forall_nil].
    + intros k tx' f Hin. by apply list_elem_of_singleton in Hin.
    + right. split_and!; try done. intros tx' Hin.
      by apply elem_of_nil in Hin.
  - unfold mbind at 1, M_bind at 1 in Hrun. rewrite Hsign in Hrun.
    injection Hrun as <- <-.
    exists [EvGetNonce account nonce; EvSignTx OpeningKind tx (Some err)].
    cbn [pool chainDb rng clock ticks cryptoReader calls].
    split_and!.
    + by rewrite <- app_assoc.
    + apply List.Forall_cons; [by right|].
      apply List.Forall_cons; [by left|apply List.Forall_nil].
    + intros k tx' f Hin. apply elem_of_cons in Hin as [Hin|Hin]; [done|].
      apply list_elem_of_singleton in Hin. injection Hin as _ -> _.
      exists key; split; [first [reflexivity|exact Hkey]|reflexivity].
    + right. split_and!; try done. intros tx' Hin.
      by apply elem_of_nil in Hin.
  - rewrite (bind_Ok _ _ _ _ _ Hsign) in Hrun.
    unfold poolAddLocal, setPool, record, mbind, M_bind, mret, M_ret in Hrun.
    cbn [pool chainDb rng clock ticks cryptoReader calls] in Hrun.
    destruct (AddLocal (pool w) txSigned) as [p [err|]];
      cbn [pool chainDb rng clock ticks cryptoReader calls returnErr dbDelete]
        in Hrun;
      injection Hrun as <- <-;
      cbn [pool chainDb rng clock ticks cryptoReader calls].
    + exists [EvGetNonce account nonce; EvSignTx OpeningKind tx None;
              EvAddLocal OpeningKind txSigned (Some err)].
      split_and!.
      * by rewrite <- !app_assoc.
      * apply List.Forall_cons; [by right|].
        repeat (apply List.Forall_cons; [by left|]). apply List.Forall_nil.
      * intros k tx' f Hin. apply elem_of_cons in Hin as [Hin|Hin]; [done|].
        apply elem_of_cons in Hin as [Hin|Hin];
          [injection Hin as _ -> _; exists key; split; [first [reflexivity|exact Hkey]|reflexivity]|].
        by apply list_elem_of_singleton in Hin.
      * right. split_and!; try done.
        intros tx' Hin. cbn in Hin.
        apply list_elem_of_singleton in Hin. done.
    + exists [EvGetNonce account nonce; EvSignTx OpeningKind tx None;
              EvAddLocal OpeningKind txSigned None].
      split_and!.
      * by rewrite <- !app_assoc.
      * apply List.Forall_cons; [by right|].
        repeat (apply List.Forall_cons; [by left|]). apply List.Forall_nil.
      * intros k tx' f Hin. apply elem_of_cons in Hin as [Hin|Hin]; [done|].
        apply elem_of_cons in Hin as [Hin|Hin];
          [injection Hin as _ -> _; exists key; split; [first [reflexivity|exact Hkey]|reflexivity]|].
        by apply list_elem_of_singleton in Hin.
      * left. split_and!; try done.
        exists txSigned. cbn. apply list_elem_of_here.
Qed.

(** A run of [CreateTransactionSign] with a consensus configuration, as
    far as it does not depend on the generator: the reading of the nonce,
    the calls of the retry loop, and the kind of what follows. *)
Lemma CreateTransactionSign_phases (fuel : nat) (cs : common.Constants)
    (reg : Registry) (chainConfig : ChainConfig) (manager : Manager)
    (block : Block) (eb : Address) (s2pos : S2PoSConfig)
    (w w' : World P G) (res : Res unit) :
  S2PoS chainConfig = Some s2pos ->
  CreateTransactionSign fuel cs reg chainConfig manager block eb w = (res, w') ->
  let account := (findAccount manager eb).2 in
  let exist := bool_decide (is_Some (chainDb w !! randomizeKeyName)) in
  let checkNumber := checkNumberOf block s2pos in
  exists evsSign evsRest : list Event,
    calls w'
    = calls w
      ++ EvGetNonce account (GetNonce (pool w) account) :: evsSign ++ evsRest /\
    Forall (kindOnly SignKind) evsSign /\
    (forall kind tx failed,
       EvSignTx kind tx failed ∈ evsSign ->
       exists n, tx = CreateTxSign reg (BlockNumber block) (BlockHash block)
                        n (BlockSigners reg)) /\
    ((evsRest = [] /\ chainDb w' = chainDb w /\
      (((forall tx, (tx, None) ∉ addLocals SignKind evsSign) /\ res <> Ok tt) \/
       ((exists tx, (tx, None) ∈ addLocals SignKind evsSign) /\
        Epoch s2pos = 0 /\ res = Panic) \/
       ((exists tx, (tx, None) ∈ addLocals SignKind evsSign) /\
        Epoch s2pos <> 0 /\ secretBranch cs exist checkNumber = false /\
        openingBranch cs exist checkNumber = false /\ res = Ok tt))) \/
     ((exists tx, (tx, None) ∈ addLocals SignKind evsSign) /\
      Epoch s2pos <> 0 /\ secretBranch cs exist checkNumber = true /\
      Forall (kindOnly SecretKind) evsRest) \/
     ((exists tx, (tx, None) ∈ addLocals SignKind evsSign) /\
      Epoch s2pos <> 0 /\ openingBranch cs exist checkNumber = true /\
      Forall (kindOnly OpeningKind) evsRest /\
      (forall kind tx failed,
         EvSignTx kind tx failed ∈ evsRest ->
         exists key0 : list byte,
           chainDb w !! randomizeKeyName = Some key0 /\
           txData tx = HexSetOpening reg ++ key0 /\
           txTo tx = RandomizeSMC reg /\ txAmount tx = 0))).
Proof.
  intros Hs2 Hrun account exist checkNumber.
  destruct (CreateTransactionSign_tail _ _ _ _ _ _ _ _ _ _ _ Hs2 Hrun)
    as (wl & resl & Hloop & Htail).
  fold account in Hloop, Htail.
  destruct (signLoop_trace _ _ _ _ _ _ _ _ _ _ _ Hloop)
    as (evsSign & Hcl & Hdb & Hrng & Hclock & Hticks & Hreader & Hkinds & _
        & Htxs & Hacc).
  cbn [pool chainDb rng clock ticks cryptoReader calls] in *.
  exists evsSign.
  assert (Hcalls0 : calls wl
                    = calls w ++ EvGetNonce account (GetNonce (pool w) account)
                      :: evsSign ++ []).
  { by rewrite Hcl, <- app_assoc, app_nil_r. }
  assert (Hfail : resl <> Ok tt ->
            forall tx, (tx, None) ∉ addLocals SignKind evsSign).
  { intros Hne tx Hin. apply Hne, Hacc. eauto. }
  destruct resl as [[]| | |].
  2,3,4: destruct Htail as [-> ->]; exists [];
         (split; [exact Hcalls0|]); (split; [exact Hkinds|]);
         (split; [exact Htxs|]); left;
         (split; [done|]); (split; [exact Hdb|]); left;
         (split; [by apply Hfail|done]).
  assert (Hok : exists tx, (tx, None) ∈ addLocals SignKind evsSign)
    by (by apply Hacc).
  destruct (Epoch s2pos =? 0) eqn:Hep.
  { injection Htail as -> ->. exists [].
    split; [exact Hcalls0|]. split; [exact Hkinds|]. split; [exact Htxs|].
    left. split; [done|]. split; [exact Hdb|]. right; left.
    split; [exact Hok|]. split; [by apply Z.eqb_eq|done]. }
  apply Z.eqb_neq in Hep. cbv zeta in Htail. rewrite Hdb in Htail.
  fold exist checkNumber in Htail.
  destruct (secretBranch cs exist checkNumber) eqn:Hsec.
  - destruct (runs_setSecret _ _ _ _ _ _ _ _ Htail)
      as (evsRest & Hc & Hk & _).
    exists evsRest. split; [by rewrite Hc, Hcl, <- !app_assoc|].
    split; [exact Hkinds|]. split; [exact Htxs|].
    right; left. done.
  - destruct (openingBranch cs exist checkNumber) eqn:Hop.
    + destruct (setOpening_trace _ _ _ _ _ _ _ Htail)
        as (evsRest & Hc & Hk & Hbuilt & Hstore).
      rewrite Hdb in *.
      exists evsRest. split; [by rewrite Hc, Hcl, <- !app_assoc|].
      split; [exact Hkinds|]. split; [exact Htxs|].
      right; right. split_and!; try done.
      intros k tx f Hin. destruct (Hbuilt k tx f Hin) as (key0 & Hk0 & ->).
      exists key0. done.
    + injection Htail as -> ->. exists [].
      split; [exact Hcalls0|]. split; [exact Hkinds|]. split; [exact Htxs|].
      left. split; [done|]. split; [exact Hdb|]. right; right. done.
Qed.

(** A run of [CreateTransactionSign] with a consensus configuration: the
    reading of the nonce, the calls of the retry loop, and the calls of
    what follows, which is nothing, the commit of a secret or the reveal
    of the opening. *)
Lemma CreateTransactionSign_trace (fuel : nat) (cs : common.Constants)
    (reg : Registry) (chainConfig : ChainConfig) (manager : Manager)
    (block : Block) (eb : Address) (s2pos : S2PoSConfig)
    (w w' : World P G) (res : Res unit) :
  S2PoS chainConfig = Some s2pos ->
  CreateTransactionSign fuel cs reg chainConfig manager block eb w = (res, w') ->
  let account := (findAccount manager eb).2 in
  let exist := bool_decide (is_Some (chainDb w !! randomizeKeyName)) in
  let checkNumber := checkNumberOf block s2pos in
  let key := letterAt <$> readings w 32 in
  exists evsSign evsRest : list Event,
    calls w'
    = calls w
      ++ EvGetNonce account (GetNonce (pool w) account) :: evsSign ++ evsRest /\
    Forall (kindOnly SignKind) evsSign /\
    (forall kind tx failed,
       EvSignTx kind tx failed ∈ evsSign ->
       exists n, tx = CreateTxSign reg (BlockNumber block) (BlockHash block)
                        n (BlockSigners reg)) /\
    ((evsRest = [] /\ chainDb w' = chainDb w /\
      (((forall tx, (tx, None) ∉ addLocals SignKind evsSign) /\ res <> Ok tt) \/
       ((exists tx, (tx, None) ∈ addLocals SignKind evsSign) /\
        Epoch s2pos = 0 /\ res = Panic) \/
       ((exists tx, (tx, None) ∈ addLocals SignKind evsSign) /\
        Epoch s2pos <> 0 /\ secretBranch cs exist checkNumber = false /\
        openingBranch cs exist checkNumber = false /\ res = Ok tt))) \/
     ((exists tx, (tx, None) ∈ addLocals SignKind evsSign) /\
      Epoch s2pos <> 0 /\ secretBranch cs exist checkNumber = true /\
      Forall (kindOnly SecretKind) evsRest /\
      (forall kind tx failed,
         EvSignTx kind tx failed ∈ evsRest ->
         exists (nonce : Z) (w1 w2 : World P G),
           cryptoReader w1 = cryptoReader w /\
           BuildTxSecretRandomize reg nonce (RandomizeSMC reg) (Epoch s2pos)
             key w1 = (Ok tx, w2)) /\
      (((exists tx, (tx, None) ∈ addLocals SecretKind evsRest) /\
        res = Ok tt /\
        chainDb w' = <[randomizeKeyName := key]> (chainDb w)) \/
       ((forall tx, (tx, None) ∉ addLocals SecretKind evsRest) /\
        res <> Ok tt /\ chainDb w' = chainDb w))) \/
     ((exists tx, (tx, None) ∈ addLocals SignKind evsSign) /\
      Epoch s2pos <> 0 /\ openingBranch cs exist checkNumber = true /\
      Forall (kindOnly OpeningKind) evsRest /\
      (forall kind tx failed,
         EvSignTx kind tx failed ∈ evsRest ->
         exists key0 : list byte,
           chainDb w !! randomizeKeyName = Some key0 /\
           txData tx = HexSetOpening reg ++ key0 /\
           txTo tx = RandomizeSMC reg /\ txAmount tx = 0) /\
      (((exists tx, (tx, None) ∈ addLocals OpeningKind evsRest) /\
        res = Ok tt /\
        chainDb w' = delete randomizeKeyName (chainDb w)) \/
       ((forall tx, (tx, None) ∉ addLocals OpeningKind evsRest) /\
        res <> Ok tt /\ chainDb w' = chainDb w)))).
Proof.
  intros Hs2 Hrun account exist checkNumber key.
  destruct (CreateTransactionSign_tail _ _ _ _ _ _ _ _ _ _ _ Hs2 Hrun)
    as (wl & resl & Hloop & Htail).
  fold account in Hloop, Htail.
  destruct (signLoop_trace _ _ _ _ _ _ _ _ _ _ _ Hloop)
    as (evsSign & Hcl & Hdb & Hrng & Hclock & Hticks & Hreader & Hkinds & _
        & Htxs & Hacc).
  cbn [pool chainDb rng clock ticks cryptoReader calls] in *.
  exists evsSign.
  assert (Hcalls0 : calls wl
                    = calls w ++ EvGetNonce account (GetNonce (pool w) account)
                      :: evsSign ++ []).
  { by rewrite Hcl, <- app_assoc, app_nil_r. }
  assert (Hfail : resl <> Ok tt ->
            forall tx, (tx, None) ∉ addLocals SignKind evsSign).
  { intros Hne tx Hin. apply Hne, Hacc. eauto. }
  destruct resl as [[]| | |].
  2,3,4: destruct Htail as [-> ->]; exists [];
         (split; [exact Hcalls0|]); (split; [exact Hkinds|]);
         (split; [exact Htxs|]); left;
         (split; [done|]); (split; [exact Hdb|]); left;
         (split; [by apply Hfail|done]).
  assert (Hok : exists tx, (tx, None) ∈ addLocals SignKind evsSign)
    by (by apply Hacc).
  destruct (Epoch s2pos =? 0) eqn:Hep.
  { injection Htail as -> ->. exists [].
    split; [exact Hcalls0|]. split; [exact Hkinds|]. split; [exact Htxs|].
    left. split; [done|]. split; [exact Hdb|]. right; left.
    split; [exact Hok|]. split; [by apply Z.eqb_eq|done]. }
  apply Z.eqb_neq in Hep. cbv zeta in Htail. rewrite Hdb in Htail.
  fold exist checkNumber in Htail.
  destruct (secretBranch cs exist checkNumber) eqn:Hsec.
  - destruct (setSecret_trace _ _ _ _ _ _ _ _ Htail)
      as (evsRest & Hc & Hk & Hbuilt & Hstore).
    assert (Hkey : letterAt <$> readings wl 32 = key).
    { unfold key, readings. by rewrite Hclock, Hticks. }
    rewrite Hkey, Hdb in *. rewrite Hreader in Hbuilt.
    exists evsRest. split; [by rewrite Hc, Hcl, <- !app_assoc|].
    split; [exact Hkinds|]. split; [exact Htxs|].
    right; left. done.
  - destruct (openingBranch cs exist checkNumber) eqn:Hop.
    + destruct (setOpening_trace _ _ _ _ _ _ _ Htail)
        as (evsRest & Hc & Hk & Hbuilt & Hstore).
      rewrite Hdb in *.
      exists evsRest. split; [by rewrite Hc, Hcl, <- !app_assoc|].
      split; [exact Hkinds|]. split; [exact Htxs|].
      right; right. split_and!; try done.
      intros k tx f Hin. destruct (Hbuilt k tx f Hin) as (key0 & Hk0 & ->).
      exists key0. done.
    + injection Htail as -> ->. exists [].
      split; [exact Hcalls0|]. split; [exact Hkinds|]. split; [exact Htxs|].
      left. split; [done|]. split; [exact Hdb|]. right; right. done.
Qed.

Lemma not_kind_elem (kind kind' : TxKind) (evs : list Event)
    (tx : Transaction) (failed : option error) :
  kind <> kind' -> Forall (kindOnly kind) evs ->
  EvSignTx kind' tx failed ∉ evs.
Proof.
  intros Hne Hall Hin. rewrite Forall_forall in Hall.
  destruct (Hall _ Hin) as [Hk|Hk]; cbn in Hk; congruence.
Qed.

(** Every transaction the call hands to the wallet as a signing
    transaction is the signing transaction of this block: addressed to the
    block-signer contract, with no value, its payload the method selector,
    the block number and the block hash; the attempts differ in their
    nonce only. *)
Theorem CreateTransactionSign_signs_block (fuel : nat) (cs : common.Constants)
    (reg : Registry) (chainConfig : ChainConfig) (manager : Manager)
    (block : Block) (eb : Address) (w : World P G) :
  let '(res, w') :=
    CreateTransactionSign fuel cs reg chainConfig manager block eb w in
  exists evs : list Event,
    calls w' = calls w ++ evs /\
    forall (tx : Transaction) (failed : option error),
      EvSignTx SignKind tx failed ∈ evs ->
      exists nonce : Z,
        tx = CreateTxSign reg (BlockNumber block) (BlockHash block) nonce
               (BlockSigners reg) /\
        txTo tx = BlockSigners reg /\ txAmount tx = 0 /\
        txData tx
        = HexSignMethod reg ++ LeftPadBytes (bigBytes (BlockNumber block)) 32
          ++ LeftPadBytes (BlockHash block) 32.
Proof.
  destruct (CreateTransactionSign fuel cs reg chainConfig manager block eb w)
    as [res w'] eqn:Hrun.
  destruct (S2PoS chainConfig) as [s2pos|] eqn:Hs2.
  2:{ unfold CreateTransactionSign in Hrun. rewrite Hs2 in Hrun.
      injection Hrun as <- <-. exists []. rewrite app_nil_r.
      split; [done|]. intros tx f Hin. by apply elem_of_nil in Hin. }
  destruct (CreateTransactionSign_phases _ _ _ _ _ _ _ _ _ _ _ Hs2 Hrun)
    as (evsSign & evsRest & Hcalls & Hkinds & Htxs & Htail).
  eexists. split; [exact Hcalls|].
  intros tx f Hin.
  assert (Hsign : EvSignTx SignKind tx f ∈ evsSign).
  { apply elem_of_cons in Hin as [Hin|Hin]; [done|].
    apply elem_of_app in Hin as [Hin|Hin]; [done|]. exfalso.
    destruct Htail as [(-> & _) | [(_ & _ & _ & Hk) | (_ & _ & _ & Hk & _)]].
    - by apply elem_of_nil in Hin.
    - by eapply (not_kind_elem SecretKind SignKind).
    - by eapply (not_kind_elem OpeningKind SignKind). }
  destruct (Htxs _ _ _ Hsign) as [n ->]. exists n.
  split; [done|]. split; [done|]. split; [done|].
  cbn [CreateTxSign NewTransaction txData]. by rewrite <- app_assoc.
Qed.

(** A secret or an opening is only sent by a node that has signed: no
    transaction of either kind is built unless the signing transaction was
    accepted by the pool in the same call. *)
Theorem CreateTransactionSign_signs_first (fuel : nat) (cs : common.Constants)
    (reg : Registry) (chainConfig : ChainConfig) (manager : Manager)
    (block : Block) (eb : Address) (w : World P G) :
  let '(res, w') :=
    CreateTransactionSign fuel cs reg chainConfig manager block eb w in
  exists evs : list Event,
    calls w' = calls w ++ evs /\
    ((forall tx, (tx, None) ∉ addLocals SignKind evs) ->
     hasKind SecretKind evs = false /\ hasKind OpeningKind evs = false /\
     chainDb w' = chainDb w /\ (is_Some (S2PoS chainConfig) -> res <> Ok tt)).
Proof.
  destruct (CreateTransactionSign fuel cs reg chainConfig manager block eb w)
    as [res w'] eqn:Hrun.
  destruct (S2PoS chainConfig) as [s2pos|] eqn:Hs2.
  2:{ unfold CreateTransactionSign in Hrun. rewrite Hs2 in Hrun.
      injection Hrun as <- <-. exists []. rewrite app_nil_r.
      split; [done|]. intros _. split_and!; try done. }
  destruct (CreateTransactionSign_phases _ _ _ _ _ _ _ _ _ _ _ Hs2 Hrun)
    as (evsSign & evsRest & Hcalls & Hkinds & Htxs & Htail).
  eexists. split; [exact Hcalls|].
  intros Hnone.
  assert (Hnone' : forall tx, (tx, None) ∉ addLocals SignKind evsSign).
  { intros tx Hin. apply (Hnone tx).
    rewrite addLocals_GetNonce, addLocals_app. apply elem_of_app. by left. }
  assert (Hrest : evsRest = [] /\ chainDb w' = chainDb w /\ res <> Ok tt).
  { destruct Htail as [(-> & Hdb & Hcase)
                      | [([tx Hin] & _) | ([tx Hin] & _)]];
      [|by destruct (Hnone' tx)..].
    destruct Hcase as [[_ Hres] | [([tx Hin] & _) | ([tx Hin] & _)]];
      [done|by destruct (Hnone' tx)..]. }
  destruct Hrest as (-> & Hdb & Hres). rewrite app_nil_r.
  change (EvGetNonce ?a ?n :: evsSign) with ([EvGetNonce a n] ++ evsSign).
  rewrite !hasKind_app.
  rewrite (kindOnly_hasKind SignKind SecretKind evsSign) by done.
  rewrite (kindOnly_hasKind SignKind OpeningKind evsSign) by done.
  done.
Qed.

(** The local store under [CreateTransactionSign]: only the entry
    [randomizeKey] can change.  It is written exactly when a secret
    transaction is accepted by the pool, in a call that found no key, and
    then holds the key the secret was made with, 32 letters of the
    alphabet; it is deleted exactly when an opening transaction is
    accepted; in every other run, failed or not, the store is as it was. *)
Theorem CreateTransactionSign_store (fuel : nat) (cs : common.Constants)
    (reg : Registry) (chainConfig : ChainConfig) (manager : Manager)
    (block : Block) (eb : Address) (w : World P G) :
  let '(res, w') :=
    CreateTransactionSign fuel cs reg chainConfig manager block eb w in
  exists evs : list Event,
    calls w' = calls w ++ evs /\
    (forall k, k <> randomizeKeyName -> chainDb w' !! k = chainDb w !! k) /\
    ((exists tx, (tx, None) ∈ addLocals SecretKind evs) ->
     chainDb w !! randomizeKeyName = None /\ res = Ok tt /\
     exists key : list byte,
       chainDb w' !! randomizeKeyName = Some key /\
       length key = 32%nat /\ Forall (fun c => c ∈ letterBytes) key) /\
    ((exists tx, (tx, None) ∈ addLocals OpeningKind evs) ->
     is_Some (chainDb w !! randomizeKeyName) /\ res = Ok tt /\
     chainDb w' !! randomizeKeyName = None) /\
    ((forall tx, (tx, None) ∉ addLocals SecretKind evs) ->
     (forall tx, (tx, None) ∉ addLocals OpeningKind evs) ->
     chainDb w' = chainDb w).
Proof.
  destruct (CreateTransactionSign fuel cs reg chainConfig manager block eb w)
    as [res w'] eqn:Hrun.
  destruct (S2PoS chainConfig) as [s2pos|] eqn:Hs2.
  2:{ unfold CreateTransactionSign in Hrun. rewrite Hs2 in Hrun.
      injection Hrun as <- <-. exists []. rewrite app_nil_r.
      split_and!; try done; intros [tx Hin]; by apply elem_of_nil in Hin. }
  destruct (CreateTransactionSign_trace _ _ _ _ _ _ _ _ _ _ _ Hs2 Hrun)
    as (evsSign & evsRest & Hcalls & Hkinds & Htxs & Htail).
  eexists. split; [exact Hcalls|].
  assert (Hlocals : forall kind,
            kind <> SignKind ->
            addLocals kind
              (EvGetNonce (findAccount manager eb).2
                 (GetNonce (pool w) (findAccount manager eb).2)
               :: evsSign ++ evsRest)
            = addLocals kind evsRest).
  { intros kind Hne. rewrite addLocals_GetNonce, addLocals_app.
    by rewrite (kindOnly_addLocals SignKind kind evsSign). }
  rewrite (Hlocals SecretKind), (Hlocals OpeningKind) by done.
  destruct Htail as [(-> & Hdb & _) | [Hsecret | Hopening]].
  - rewrite Hdb. split_and!; try done;
      intros [tx Hin]; by apply elem_of_nil in Hin.
  - destruct Hsecret as (_ & Hep & Hbranch & Hk & _ & Hstore).
    rewrite (kindOnly_addLocals SecretKind OpeningKind evsRest) by done.
    assert (Hnokey : chainDb w !! randomizeKeyName = None).
    { unfold secretBranch in Hbranch.
      apply andb_prop in Hbranch as [Hbranch _].
      apply andb_prop in Hbranch as [Hbranch _].
      apply andb_prop in Hbranch as [Hbranch _].
      apply negb_true_iff, bool_decide_eq_false in Hbranch.
      by apply eq_None_not_Some. }
    destruct Hstore as [(Hacc & -> & Hdb) | (Hrej & Hres & Hdb)]; rewrite Hdb.
    + split_and!.
      * intros k Hne. by rewrite lookup_insert_ne.
      * intros _. split; [done|]. split; [done|].
        eexists. split; [apply lookup_insert_eq|].
        split; [unfold readings; by rewrite !length_fmap, length_seq|].
        apply Forall_fmap, Forall_forall. intros t _. apply letterAt_letter.
      * intros [tx Hin]. by apply elem_of_nil in Hin.
      * intros Hno. destruct Hacc as [tx Hin]. by destruct (Hno tx).
    + split_and!; try done.
      * intros [tx Hin]. by destruct (Hrej tx).
      * intros [tx Hin]. by apply elem_of_nil in Hin.
  - destruct Hopening as (_ & Hep & Hbranch & Hk & _ & Hstore).
    rewrite (kindOnly_addLocals OpeningKind SecretKind evsRest) by done.
    assert (Hkey : is_Some (chainDb w !! randomizeKeyName)).
    { unfold openingBranch in Hbranch.
      apply andb_prop in Hbranch as [Hbranch _].
      apply andb_prop in Hbranch as [Hbranch _].
      apply andb_prop in Hbranch as [Hbranch _].
      by apply bool_decide_eq_true in Hbranch. }
    destruct Hstore as [(Hacc & -> & Hdb) | (Hrej & Hres & Hdb)]; rewrite Hdb.
    + split_and!.
      * intros k Hne. by rewrite lookup_delete_ne.
      * intros [tx Hin]. by apply elem_of_nil in Hin.
      * intros _. split; [done|]. split; [done|]. apply lookup_delete_eq.
      * intros _ Hno. destruct Hacc as [tx Hin]. by destruct (Hno tx).
    + split_and!; try done.
      * intros [tx Hin]. by apply elem_of_nil in Hin.
      * intros [tx Hin]. by destruct (Hrej tx).
Qed.

(** The opening reveals the persisted key: every opening transaction the
    call hands to the wallet is addressed to the randomize contract, with
    no value, and its payload is the method selector followed by the very
    bytes found under [randomizeKey] at entry. *)
Theorem CreateTransactionSign_opening_reveals (fuel : nat)
    (cs : common.Constants) (reg : Registry) (chainConfig : ChainConfig)
    (manager : Manager) (block : Block) (eb : Address) (w : World P G) :
  let '(res, w') :=
    CreateTransactionSign fuel cs reg chainConfig manager block eb w in
  exists evs : list Event,
    calls w' = calls w ++ evs /\
    forall (tx : Transaction) (failed : option error),
      EvSignTx OpeningKind tx failed ∈ evs ->
      exists key : list byte,
        chainDb w !! randomizeKeyName = Some key /\
        txData tx = HexSetOpening reg ++ key /\
        txTo tx = RandomizeSMC reg /\ txAmount tx = 0.
Proof.
  destruct (CreateTransactionSign fuel cs reg chainConfig manager block eb w)
    as [res w'] eqn:Hrun.
  destruct (S2PoS chainConfig) as [s2pos|] eqn:Hs2.
  2:{ unfold CreateTransactionSign in Hrun. rewrite Hs2 in Hrun.
      injection Hrun as <- <-. exists []. rewrite app_nil_r.
      split; [done|]. intros tx f Hin. by apply elem_of_nil in Hin. }
  destruct (CreateTransactionSign_phases _ _ _ _ _ _ _ _ _ _ _ Hs2 Hrun)
    as (evsSign & evsRest & Hcalls & Hkinds & Htxs & Htail).
  eexists. split; [exact Hcalls|].
  intros tx f Hin.
  apply elem_of_cons in Hin as [Hin|Hin]; [done|].
  apply elem_of_app in Hin as [Hin|Hin].
  { exfalso. by eapply (not_kind_elem SignKind OpeningKind). }
  destruct Htail as [(-> & _) | [(_ & _ & _ & Hk)
                                | (_ & _ & _ & _ & Hbuilt)]].
  - by apply elem_of_nil in Hin.
  - exfalso. by eapply (not_kind_elem SecretKind OpeningKind).
  - by apply (Hbuilt _ _ _ Hin).
Qed.

(** With no wallet in the manager the call cannot sign: it reads the nonce
    of the zero account and then panics on the nil wallet, before anything
    is handed to a wallet or to the pool. *)
Theorem CreateTransactionSign_no_wallet (fuel : nat) (cs : common.Constants)
    (reg : Registry) (chainConfig : ChainConfig) (manager : Manager)
    (block : Block) (eb : Address) (w : World P G) :
  is_Some (S2PoS chainConfig) -> Wallets manager = [] -> fuel <> O ->
  CreateTransactionSign fuel cs reg chainConfig manager block eb w
  = (Panic,
     mkWorld (pool w) (chainDb w) (rng w) (clock w) (ticks w) (cryptoReader w)
       (calls w ++ [EvGetNonce 0%N (GetNonce (pool w) 0%N)])).
Proof.
  intros [s2pos Hs2] Hwallets Hfuel.
  unfold CreateTransactionSign, findAccount. rewrite Hs2, Hwallets.
  destruct fuel as [|fuel]; [done|]. reflexivity.
Qed.

(** With an epoch of zero blocks the call never completes: once the
    signing transaction is accepted it panics on the remainder by zero,
    and neither a secret nor an opening is built. *)
Theorem CreateTransactionSign_zero_epoch (fuel : nat) (cs : common.Constants)
    (reg : Registry) (chainConfig : ChainConfig) (manager : Manager)
    (block : Block) (eb : Address) (w : World P G) :
  S2PoS chainConfig = Some (mkS2PoSConfig 0) ->
  let '(res, w') :=
    CreateTransactionSign fuel cs reg chainConfig manager block eb w in
  res <> Ok tt /\
  exists evs : list Event,
    calls w' = calls w ++ evs /\
    Forall (kindOnly SignKind) evs /\
    chainDb w' = chainDb w /\
    ((exists tx, (tx, None) ∈ addLocals SignKind evs) -> res = Panic).
Proof.
  intros Hs2.
  destruct (CreateTransactionSign fuel cs reg chainConfig manager block eb w)
    as [res w'] eqn:Hrun.
  destruct (CreateTransactionSign_phases _ _ _ _ _ _ _ _ _ _ _ Hs2 Hrun)
    as (evsSign & evsRest & Hcalls & Hkinds & Htxs & Htail).
  cbn [Epoch] in Htail.
  destruct Htail as [(-> & Hdb & Hcase) | [(_ & Hep & _) | (_ & Hep & _)]];
    [|done..].
  rewrite app_nil_r in Hcalls.
  assert (Hres : res <> Ok tt /\
            ((exists tx, (tx, None) ∈ addLocals SignKind evsSign) ->
             res = Panic)).
  { destruct Hcase as [[Hno Hres] | [(_ & _ & ->) | (_ & Hep & _)]];
      [|done..].
    split; [done|]. intros [tx Hin]. by destruct (Hno tx). }
  destruct Hres as [Hres Hpanic].
  split; [exact Hres|]. eexists. split; [exact Hcalls|].
  split; [apply List.Forall_cons; [by right|exact Hkinds]|].
  split; [exact Hdb|]. by rewrite addLocals_GetNonce.
Qed.

End SignProtocol.

Section CommitProtocol.
Context {P G : Type} `{TxPool P} `{RandSourceOk G} `{CryptoLib}
  {Hcrypto : CryptoLibOk} {Hbase64 : Base64Ok}.

(** What a node commits it can reveal: for an epoch of at most 10^8 blocks
    and a reader that delivers an initialization vector, every secret
    transaction the call hands to the wallet is addressed to the randomize
    contract and carries one secret of 32 bytes that
    [DecryptRandomizeFromSecretsAndOpening] opens, with a key of 32 bytes,
    to a number of [0, Epoch); and when the transaction is accepted by the
    pool, that key is the one the call leaves under [randomizeKey], for
    the opening to send. *)
Theorem CreateTransactionSign_commits (fuel : nat) (cs : common.Constants)
    (reg : Registry) (chainConfig : ChainConfig) (manager : Manager)
    (block : Block) (eb : Address) (s2pos : S2PoSConfig) (w : World P G) :
  S2PoS chainConfig = Some s2pos -> 0 < Epoch s2pos <= 10 ^ 8 ->
  (BlockSize <= length (cryptoReader w))%nat ->
  Forall isByte (cryptoReader w) ->
  let '(res, w') :=
    CreateTransactionSign fuel cs reg chainConfig manager block eb w in
  exists evs : list Event,
    calls w' = calls w ++ evs /\
    forall (tx : Transaction) (failed : option error),
      EvSignTx SecretKind tx failed ∈ evs ->
      txTo tx = RandomizeSMC reg /\ txAmount tx = 0 /\
      exists (key secret : list byte) (secretNumb : Z),
        length key = 32%nat /\
        txData tx
        = HexSetSecret reg ++ LeftPadBytes (bigBytes 32) 32
          ++ LeftPadBytes (bigBytes 1) 32 ++ secret /\
        length secret = 32%nat /\
        0 <= secretNumb < Epoch s2pos /\
        DecryptRandomizeFromSecretsAndOpening [secret] key = Ok secretNumb /\
        ((exists tx', (tx', None) ∈ addLocals SecretKind evs) ->
         chainDb w' !! randomizeKeyName = Some key).
Proof.
  intros Hs2 Hep Hlong Hreader.
  destruct (CreateTransactionSign fuel cs reg chainConfig manager block eb w)
    as [res w'] eqn:Hrun.
  destruct (CreateTransactionSign_trace _ _ _ _ _ _ _ _ _ _ _ Hs2 Hrun)
    as (evsSign & evsRest & Hcalls & Hkinds & Htxs & Htail).
  eexists. split; [exact Hcalls|].
  intros tx f Hin.
  apply elem_of_cons in Hin as [Hin|Hin]; [done|].
  apply elem_of_app in Hin as [Hin|Hin].
  { exfalso. by eapply (not_kind_elem SignKind SecretKind). }
  destruct Htail as [(-> & _) | [(_ & _ & _ & Hk & Hbuilt & Hstore)
                                | (_ & _ & _ & Hk & _)]].
  - by apply elem_of_nil in Hin.
  - destruct (Hbuilt _ _ _ Hin) as (nonce & w1 & w2 & Hr1 & Hbuild).
    set (key := letterAt <$> readings w 32) in *.
    assert (Hlen : length key = 32%nat)
      by (unfold key, readings; by rewrite !length_fmap, length_seq).
    destruct (BuildTxSecretRandomize_secret reg nonce (RandomizeSMC reg)
                (Epoch s2pos) key w1 Hep)
      as (tx' & w2' & n & secret & Hrun' & Hn & Hdata & Hls & Hreveal
          & Hto & Hamount).
    { by right; right. }
    { by rewrite Hr1. }
    { by rewrite Hr1. }
    rewrite Hbuild in Hrun'. injection Hrun' as <- <-.
    split; [exact Hto|]. split; [exact Hamount|].
    exists key, secret, n.
    split; [exact Hlen|]. split; [exact Hdata|]. split; [exact Hls|].
    split; [exact Hn|]. split; [exact Hreveal|].
    intros [tx' Hacc]. rewrite addLocals_GetNonce, addLocals_app in Hacc.
    rewrite (kindOnly_addLocals SignKind SecretKind evsSign) in Hacc by done.
    destruct Hstore as [(_ & _ & ->) | (Hrej & _)].
    + apply lookup_insert_eq.
    + by destruct (Hrej tx').
  - exfalso. by eapply (not_kind_elem OpeningKind SecretKind).
Qed.

End CommitProtocol.

Lemma CreateTransactionSign_no_wallet_witness :
  CreateTransactionSign 10 sampleConstants sampleRegistry sampleChainConfig
    (mkManager [] (fun _ => None)) (sampleBlock 5) 7%N (sampleWorld 0 ∅)
  = (Panic,
     mkWorld (0%nat, 5) ∅ 0 (fun k => Z.of_nat k) O (replicate 64 9)
       [EvGetNonce 0%N 5]).
Proof.
  exact (CreateTransactionSign_no_wallet 10 sampleConstants sampleRegistry
           sampleChainConfig (mkManager [] (fun _ => None)) (sampleBlock 5)
           7%N (sampleWorld 0 ∅)
           (ex_intro _ (mkS2PoSConfig 900) eq_refl) eq_refl
           (Nat.neq_succ_0 9)).
Defined.

Lemma CreateTransactionSign_zero_epoch_witness :
  exists w' : World (nat * Z) Z,
    CreateTransactionSign 10 sampleConstants sampleRegistry
      (mkChainConfig 88 (Some (mkS2PoSConfig 0)) (fun _ => true)
         (fun _ => true))
      sampleManager (sampleBlock 5) 7%N (sampleWorld 0 ∅) = (Panic, w') /\
    chainDb w' = ∅.
Proof.
  pose proof (CreateTransactionSign_zero_epoch 10 sampleConstants
                sampleRegistry
                (mkChainConfig 88 (Some (mkS2PoSConfig 0)) (fun _ => true)
                   (fun _ => true))
                sampleManager (sampleBlock 5) 7%N (sampleWorld 0 ∅)
                eq_refl) as Hthm.
  destruct (CreateTransactionSign 10 sampleConstants sampleRegistry _
              sampleManager (sampleBlock 5) 7%N (sampleWorld 0 ∅))
    as [res w'] eqn:Hrun.
  destruct Hthm as (_ & evs & Hcalls & _ & Hdb & Hpanic).
  exists w'. split; [|exact Hdb]. f_equal. apply Hpanic.
  assert (Hevs : calls w' = evs) by (by rewrite Hcalls).
  rewrite <- Hevs.
  replace w' with (CreateTransactionSign 10 sampleConstants sampleRegistry
                     (mkChainConfig 88 (Some (mkS2PoSConfig 0)) (fun _ => true)
                        (fun _ => true))
                     sampleManager (sampleBlock 5) 7%N (sampleWorld 0 ∅)).2
    by (by rewrite Hrun).
  eexists. vm_compute. apply list_elem_of_here.
Defined.

Lemma CreateTransactionSign_commits_witness :
  let '(res, w') :=
    CreateTransactionSign 10 sampleConstants sampleRegistry sampleChainConfig
      sampleManager (sampleBlock 805) 7%N (sampleWorld 0 ∅) in
  exists evs : list Event,
    calls w' = evs /\
    forall (tx : Transaction) (failed : option error),
      EvSignTx SecretKind tx failed ∈ evs ->
      txTo tx = 144%N /\ txAmount tx = 0.
Proof.
  pose proof (CreateTransactionSign_commits 10 sampleConstants sampleRegistry
                sampleChainConfig sampleManager (sampleBlock 805) 7%N
                (mkS2PoSConfig 900) (sampleWorld 0 ∅) eq_refl) as Hthm.
  destruct (CreateTransactionSign 10 sampleConstants sampleRegistry
              sampleChainConfig sampleManager (sampleBlock 805) 7%N
              (sampleWorld 0 ∅)) as [res w'].
  destruct Hthm as (evs & Hcalls & Hall).
  - cbn [Epoch]. lia.
  - vm_compute. lia.
  - apply Forall_replicate. unfold isByte. lia.
  - exists evs. split; [exact Hcalls|].
    intros tx f Hin. destruct (Hall tx f Hin) as (Hto & Hamount & _). done.
Defined.


Example RandStringByte_run_frozen :
  (RandStringByte 4
     (mkWorld (0%nat, 5) ∅ (0 : Z) (fun _ => 42) O [] [])).1
  = Ok (bytesOfString "2222").
Proof. vm_compute. reflexivity. Qed.

Example Shuffle_run :
  (Shuffle [10; 20; 30; 40] (sampleWorld 0 ∅)).1 = Ok [20; 30; 40; 10] /\
  (Shuffle [] (sampleWorld 0 ∅)).1 = Ok [] /\
  (Shuffle [10] (sampleWorld 0 ∅)).1 = Ok [10].
Proof. vm_compute. repeat split. Qed.

(** ** The validator bytes *)

Lemma digitsValue_bigString_nonneg (n : Z) :
  0 <= n -> digitsValue 0 (bigString n) = Some n.
Proof.
  intros Hn. destruct n as [|p|p]; [done|apply digitsValue_bigString|lia].
Qed.

Lemma BuildValidatorFromM2_concat (k : nat) (listM2 : list Z) :
  BuildValidatorFromM2 k listM2
  = concat ((fun n => LeftPadBytes (Sprintf_d n) k) <$> listM2).
Proof.
  unfold BuildValidatorFromM2.
  assert (Hgen : forall acc : list byte,
            fold_left (fun validatorBytes numberM2 =>
                         validatorBytes ++ LeftPadBytes (Sprintf_d numberM2) k)
              listM2 acc
            = acc ++ concat ((fun n => LeftPadBytes (Sprintf_d n) k) <$> listM2)).
  { induction listM2 as [|n l IH]; intros acc; cbn.
    - by rewrite app_nil_r.
    - by rewrite IH, <- app_assoc. }
  apply (Hgen []).
Qed.

Lemma length_m2Byte (k : nat) (n : Z) :
  (1 <= k)%nat -> 0 <= n < 10 ^ Z.of_nat k ->
  length (LeftPadBytes (Sprintf_d n) k) = k.
Proof.
  intros Hk Hn. pose proof (length_bigString n k Hn Hk) as Hlen.
  unfold LeftPadBytes, Sprintf_d.
  destruct (Nat.leb_spec k (length (bigString n))); [lia|].
  rewrite length_app, length_replicate. lia.
Qed.

Lemma m2Byte_inj (k : nat) (n m : Z) :
  0 <= n -> 0 <= m ->
  LeftPadBytes (Sprintf_d n) k = LeftPadBytes (Sprintf_d m) k -> n = m.
Proof.
  intros Hn Hm Heq.
  assert (Hnz : forall x, 0 <= x -> Forall (fun c => c <> 0) (bigString x)).
  { intros x Hx. eapply Forall_impl; [by apply bigString_digits|].
    cbn. intros c Hc. lia. }
  apply (f_equal (fun s => TrimLeft s [0])) in Heq. unfold Sprintf_d in Heq.
  rewrite !TrimLeft_LeftPadBytes in Heq by auto.
  pose proof (digitsValue_bigString_nonneg n Hn) as Hvn.
  pose proof (digitsValue_bigString_nonneg m Hm) as Hvm.
  rewrite Heq in Hvn. congruence.
Qed.

(** The validator bytes are made of one field of [M2ByteLength] bytes per
    number, so that their length is [M2ByteLength] times the number of
    entries, and they determine the list: two lists of numbers of at most
    [M2ByteLength] digits (not negative, below [10 ^ M2ByteLength]) with the
    same validator bytes are the same list. *)
Theorem BuildValidatorFromM2_injective (M2ByteLength : nat)
    (listM2 listM2' : list Z) :
  (1 <= M2ByteLength)%nat ->
  Forall (fun n => 0 <= n < 10 ^ Z.of_nat M2ByteLength) listM2 ->
  Forall (fun n => 0 <= n < 10 ^ Z.of_nat M2ByteLength) listM2' ->
  length (BuildValidatorFromM2 M2ByteLength listM2)
  = (M2ByteLength * length listM2)%nat /\
  (BuildValidatorFromM2 M2ByteLength listM2
   = BuildValidatorFromM2 M2ByteLength listM2' ->
   listM2 = listM2').
Proof.
  intros Hk Hl Hl'. rewrite !BuildValidatorFromM2_concat. split.
  - clear Hl'. induction Hl as [|n l Hn _ IH]; [cbn; lia|].
    cbn [fmap list_fmap concat length].
    rewrite length_app, length_m2Byte by done.
    change (list_fmap _ _ ?f l) with (f <$> l). rewrite IH. lia.
  - revert listM2' Hl'. induction Hl as [|n l Hn _ IH];
      intros l' Hl' Heq.
    + destruct Hl' as [|m l' Hm _]; [done|].
      apply (f_equal length) in Heq. cbn in Heq.
      rewrite length_app, length_m2Byte in Heq by done. lia.
    + destruct Hl' as [|m l' Hm Hl'].
      { apply (f_equal length) in Heq. cbn in Heq.
        rewrite length_app, length_m2Byte in Heq by done. lia. }
      cbn [fmap list_fmap concat] in Heq.
      apply app_inj_1 in Heq as [Hhead Htail];
        [|by rewrite !length_m2Byte].
      apply m2Byte_inj in Hhead; [|lia..]. subst m.
      f_equal. by apply IH.
Qed.

Lemma BuildValidatorFromM2_injective_witness :
  length (BuildValidatorFromM2 4 [7; 123; 0]) = 12%nat /\
  (BuildValidatorFromM2 4 [7; 123; 0] = BuildValidatorFromM2 4 [7; 123; 0] ->
   [7; 123; 0] = [7; 123; 0]).
Proof.
  apply (BuildValidatorFromM2_injective 4 [7; 123; 0] [7; 123; 0]).
  - lia.
  - repeat constructor; lia.
  - repeat constructor; lia.
Defined.

Example BuildValidatorFromM2_run :
  BuildValidatorFromM2 4 [7; 123]
  = [0; 0; 0; 55; 0; 49; 50; 51] /\
  length (BuildValidatorFromM2 4 [12345]) = 5%nat /\
  BuildValidatorFromM2 4 [- 1] = [0; 0; 45; 49].
Proof. vm_compute. repeat split. Qed.

(** ** Checkpoint rewards: the bounds of the loops *)

Section CheckpointBounds.
Context {C R : Type} `{Engine C R}.

Lemma inFuel_bind {A B} (m : M (RewardState C) A)
    (k : A -> M (RewardState C) B) :
  inFuel m -> (forall a, inFuel (k a)) -> inFuel (m ≫= k).
Proof.
  intros Hm Hk st. unfold mbind, M_bind. specialize (Hm st).
  destruct (m st) as [[a|e| |] st1]; cbn in *; try done. apply Hk.
Qed.

Lemma inFuel_mret {A} (a : A) : inFuel (mret a : M (RewardState C) A).
Proof. intros st. done. Qed.

Lemma inFuel_panic {A} : inFuel (panic : M (RewardState C) A).
Proof. intros st. done. Qed.

Lemma inFuel_deref {A} (p : option A) : inFuel (deref p : M (RewardState C) A).
Proof. destruct p; [apply inFuel_mret|apply inFuel_panic]. Qed.

Lemma inFuel_foldlM {A B} (f : B -> A -> M (RewardState C) B) (l : list A) :
  (forall b a, inFuel (f b a)) -> forall b, inFuel (foldlM f b l).
Proof.
  intros Hf. induction l as [|a l IH]; intros b; cbn [foldlM].
  - apply inFuel_mret.
  - apply inFuel_bind; [apply Hf|exact IH].
Qed.

Lemma inFuel_walkStep (chain : ChainReader R) (i : Z) (ws : WalkState) :
  inFuel (walkStep chain i ws).
Proof.
  unfold walkStep.
  apply inFuel_bind; [apply inFuel_deref|intros header].
  apply inFuel_bind; [by intros st|intros cached].
  apply inFuel_bind; [|intros txs].
  - destruct cached; [apply inFuel_mret|].
    apply inFuel_bind; [apply inFuel_deref|intros block].
    destruct (negb _); intros st;
      unfold cacheNoneTIPSigning, cacheSigning;
      [destruct (CacheNoneTIPSigningTxs _ _ _ _)|destruct (CacheSigningTxs _ _ _)];
      done.
  - apply inFuel_bind; [|intros ?; apply inFuel_mret].
    apply inFuel_foldlM. intros data tx. unfold collectSigner.
    destruct (_ <? 32)%nat; [apply inFuel_panic|].
    apply inFuel_bind; [apply inFuel_deref|intros ?; apply inFuel_mret].
Qed.

Lemma inFuel_tallyStep (cs : common.Constants) (chain : ChainReader R)
    (epoch : Z) (masternodes : list Address) (mapBlkHash : gmap Z Hash)
    (data : gmap Hash (list Address)) (i : Z)
    (signers : gmap Address rewardLog) :
  inFuel (tallyStep cs chain epoch masternodes mapBlkHash data i signers
          : M (RewardState C) _).
Proof.
  unfold tallyStep. apply inFuel_bind.
  - unfold eligibleM. destruct (epoch =? 0); [apply inFuel_panic|].
    destruct (_ <? _); [apply inFuel_mret|].
    destruct (_ =? 0); [apply inFuel_panic|apply inFuel_mret].
  - intros [|]; [|apply inFuel_mret].
    destruct (0 <? _)%nat; [|apply inFuel_mret].
    intros st. unfold creditSigners. by destruct (set_fold _ _ _).
Qed.

Lemma inFuel_walkBack (chain : ChainReader R) (startBlockNumber : Z)
    (n : nat) :
  forall (fuel : nat) (i : Z) (ws : WalkState),
    (n <= fuel)%nat -> 1 <= startBlockNumber -> i < 2 ^ 64 ->
    i - startBlockNumber < Z.of_nat n ->
    inFuel (walkBack fuel chain i startBlockNumber ws).
Proof.
  induction n as [|n IH]; intros fuel i ws Hfuel Hstart Hi Hn.
  - destruct fuel; cbn [walkBack];
      (assert ((startBlockNumber <=? i) = false) as -> by lia);
      apply inFuel_mret.
  - destruct fuel as [|fuel]; [lia|]. cbn [walkBack].
    destruct (Z.leb_spec startBlockNumber i); [|apply inFuel_mret].
    apply inFuel_bind; [apply inFuel_walkStep|intros ws'].
    rewrite u64_id by lia. apply IH; lia.
Qed.

Lemma inFuel_tally (cs : common.Constants) (chain : ChainReader R)
    (epoch : Z) (masternodes : list Address) (mapBlkHash : gmap Z Hash)
    (data : gmap Hash (list Address)) (endBlockNumber : Z) (n : nat) :
  forall (fuel : nat) (i : Z) (signers : gmap Address rewardLog),
    (n <= fuel)%nat -> 0 <= i -> endBlockNumber < 2 ^ 64 - 1 ->
    endBlockNumber - i < Z.of_nat n ->
    inFuel (tally fuel cs chain epoch masternodes mapBlkHash data i
              endBlockNumber signers : M (RewardState C) _).
Proof.
  induction n as [|n IH]; intros fuel i signers Hfuel Hi Hend Hn.
  - destruct fuel; cbn [tally];
      (assert ((i <=? endBlockNumber) = false) as -> by lia);
      apply inFuel_mret.
  - destruct fuel as [|fuel]; [lia|]. cbn [tally].
    destruct (Z.leb_spec i endBlockNumber); [|apply inFuel_mret].
    apply inFuel_bind; [apply inFuel_tallyStep|intros signers'].
    rewrite u64_id by lia. apply IH; lia.
Qed.

(** Both loops of [GetRewardForCheckpoint] are bounded: when the block
    numbers do not wrap around ([0 < rCheckpoint], [2 * rCheckpoint <=
    headerNumber < 2^63]) the walk-back makes at most [2 * rCheckpoint - 1]
    rounds and the tally [rCheckpoint], so that with that much fuel the
    call returns its map or panics, and is never cut short. *)
Theorem GetRewardForCheckpoint_bounded (fuel : nat) (cs : common.Constants)
    (chain : ChainReader R) (header : Header) (rCheckpoint : Z)
    (st : RewardState C) :
  0 < rCheckpoint -> 2 * rCheckpoint <= Number header ->
  Number header < 2 ^ 63 ->
  (Z.to_nat (2 * rCheckpoint - 1) <= fuel)%nat ->
  (exists (signers : gmap Address rewardLog) (st' : RewardState C),
     GetRewardForCheckpoint fuel cs chain header rCheckpoint st
     = (Ok signers, st')) \/
  (exists st' : RewardState C,
     GetRewardForCheckpoint fuel cs chain header rCheckpoint st
     = (Panic, st')).
Proof.
  intros Hr Hn Hmax Hfuel.
  destruct (window_numbers header rCheckpoint Hr Hn Hmax)
    as (Hprev & Hstart & Hend & Hfrom).
  assert (Hin : inFuel (GetRewardForCheckpoint fuel cs chain header rCheckpoint)).
  { unfold GetRewardForCheckpoint.
    apply inFuel_bind; [|intros [ws masternodes]].
    - unfold walkPhase. apply inFuel_bind; [|intros ws].
      + rewrite Hstart, Hfrom.
        apply (inFuel_walkBack _ _ (Z.to_nat (2 * rCheckpoint - 1))); lia.
      + apply inFuel_bind; [apply inFuel_deref|intros h].
        apply inFuel_bind; [apply inFuel_deref|intros ms]. apply inFuel_mret.
    - apply inFuel_bind; [apply inFuel_deref|intros s2pos].
      rewrite Hstart, Hend.
      apply (inFuel_tally _ _ _ _ _ _ _ (Z.to_nat rCheckpoint)); lia. }
  specialize (Hin st).
  destruct (GetRewardForCheckpoint fuel cs chain header rCheckpoint st)
    as [[signers|e| |] st'] eqn:Hrun; cbn in Hin.
  - left. eauto.
  - exfalso. by eapply (noErr_GetRewardForCheckpoint fuel cs chain header
                          rCheckpoint st st' _ Hrun e).
  - right. eauto.
  - done.
Qed.

Lemma walkBack_no_exit (chain : ChainReader R) (fuel : nat) :
  forall (i : Z) (ws ws' : WalkState) (st st' : RewardState C),
    0 <= i -> walkBack fuel chain i 0 ws st <> (Ok ws', st').
Proof.
  induction fuel as [|fuel IH]; intros i ws ws' st st' Hi; cbn [walkBack];
    (assert ((0 <=? i) = true) as -> by lia); [done|].
  unfold mbind, M_bind.
  destruct (walkStep chain i ws st) as [[ws1|e| |] st1]; try done.
  apply IH. unfold u64. apply Z.mod_pos_bound. lia.
Qed.

(** For the header numbered [2 * rCheckpoint - 1] the start of the window
    wraps around to block 0, and the walk-back, whose unsigned counter is
    never below 0, has no exit: the call returns no signer map, whatever
    the chain; it ends in a panic on a missing header, or does not end. *)
Theorem GetRewardForCheckpoint_no_exit (fuel : nat) (cs : common.Constants)
    (chain : ChainReader R) (header : Header) (rCheckpoint : Z)
    (st : RewardState C) :
  0 < rCheckpoint < 2 ^ 62 -> Number header = 2 * rCheckpoint - 1 ->
  startBlockNumberOf header rCheckpoint = 0 /\
  forall (signers : gmap Address rewardLog) (st' : RewardState C),
    GetRewardForCheckpoint fuel cs chain header rCheckpoint st
    <> (Ok signers, st').
Proof.
  intros Hr Hn.
  assert (Hstart : startBlockNumberOf header rCheckpoint = 0).
  { unfold startBlockNumberOf, prevCheckpointOf, numberOf. rewrite Hn.
    rewrite Z.abs_eq by lia.
    rewrite (u64_id (2 * rCheckpoint - 1)) by lia.
    rewrite (u64_id (rCheckpoint * 2)) by lia.
    replace (2 * rCheckpoint - 1 - rCheckpoint * 2) with (- 1) by lia.
    reflexivity. }
  split; [exact Hstart|]. intros signers st' Hrun.
  unfold GetRewardForCheckpoint in Hrun.
  apply bind_Ok_inv in Hrun as ([ws masternodes] & st1 & Hphase & _).
  unfold walkPhase in Hphase. rewrite Hstart in Hphase.
  apply bind_Ok_inv in Hphase as (ws' & st2 & Hwalk & _).
  revert Hwalk. apply walkBack_no_exit.
  unfold walkFromOf, u64. apply Z.mod_pos_bound. lia.
Qed.

End CheckpointBounds.

Lemma GetRewardForCheckpoint_bounded_witness :
  exists (signers : gmap Address rewardLog) (st' : RewardState unit),
    GetRewardForCheckpoint 3 sampleConstants (sampleChain (-1))
      (sampleHeader 4) 2 (mkRewardState tt 0) = (Ok signers, st').
Proof.
  destruct (GetRewardForCheckpoint_bounded 3 sampleConstants
              (sampleChain (-1)) (sampleHeader 4) 2 (mkRewardState tt 0))
    as [Hok | [st' Hpanic]].
  - lia.
  - vm_compute; discriminate.
  - vm_compute; reflexivity.
  - vm_compute; lia.
  - exact Hok.
  - exfalso. revert Hpanic. vm_compute. discriminate.
Defined.

Lemma GetRewardForCheckpoint_no_exit_witness :
  startBlockNumberOf (sampleHeader 3) 2 = 0 /\
  GetRewardForCheckpoint 10 sampleConstants (sampleChain (-1))
    (sampleHeader 3) 2 (mkRewardState tt 0) <> (Ok ∅, mkRewardState tt 0).
Proof.
  destruct (GetRewardForCheckpoint_no_exit 10 sampleConstants
              (sampleChain (-1)) (sampleHeader 3) 2 (mkRewardState tt 0))
    as [Hstart Hno]; [lia|reflexivity|].
  split; [exact Hstart|apply Hno].
Defined.

Example GetRewardForCheckpoint_run_wrap :
  (GetRewardForCheckpoint 10 sampleConstants (sampleChain (-1))
     (sampleHeader 3) 2 (mkRewardState tt 0)).1 = Panic.
Proof. vm_compute. reflexivity. Qed.

(** ** The cipher helpers: failures and lengths *)

Lemma length_XORKeyStream (block : list byte -> list byte) (src : list byte) :
  forall (decrypt : bool) (out next : list byte) (u : nat),
    length (XORKeyStream block decrypt out next u src) = length src.
Proof.
  induction src as [|s src IH]; intros decrypt out next u; [done|].
  cbn [XORKeyStream]. destruct (u =? BlockSize)%nat; cbn [length];
    by rewrite IH.
Qed.

(** [Encrypt] fails, returning the empty string, exactly on a key the
    cipher rejects (a length other than 16, 24 or 32 bytes) or a reader
    that cannot deliver the 16 bytes of the initialization vector;
    otherwise its result is the encoding of the initialization vector, in
    clear, followed by as many bytes as the text has. *)
Theorem Encrypt_layout `{CryptoLib} {Hcrypto : CryptoLibOk}
    (reader key text : list byte) :
  (NewCipher key = None -> Encrypt reader key text = []) /\
  ((length reader < BlockSize)%nat -> Encrypt reader key text = []) /\
  (is_Some (NewCipher key) -> (BlockSize <= length reader)%nat ->
   Forall isByte text -> Forall isByte reader ->
   exists body : list byte,
     Encrypt reader key text = EncodeToString (take BlockSize reader ++ body) /\
     DecodeString (Encrypt reader key text)
     = (take BlockSize reader ++ body, None) /\
     length body = length text).
Proof.
  split; [|split].
  - intros Hkey. unfold Encrypt. by rewrite Hkey.
  - intros Hshort. unfold Encrypt, ReadFull.
    destruct (NewCipher key); [|done].
    by destruct (Nat.ltb_spec (length reader) BlockSize); [|lia].
  - intros [block Hkey] Hlong Htext Hreader.
    unfold Encrypt, ReadFull. rewrite Hkey.
    destruct (Nat.ltb_spec (length reader) BlockSize); [lia|].
    eexists. split; [reflexivity|]. split.
    + apply decode_encode. apply Forall_app. split; [by apply Forall_take|].
      unfold NewCipher in Hkey.
      destruct ((_ =? 16)%nat || _ || _); [|done]. injection Hkey as <-.
      apply XORKeyStream_bytes; auto using aesEncryptBlock_bytes.
      apply Forall_replicate. unfold isByte; lia.
    + apply length_XORKeyStream.
Qed.

(** [Decrypt] returns the empty string for a key the cipher rejects and
    for a text that decodes to less than one block of 16 bytes (an error
    of the decoder is not looked at: what was decoded before it is used);
    otherwise the result is 16 bytes shorter than the decoded text. *)
Theorem Decrypt_length `{CryptoLib} (key cryptoText : list byte) :
  let ciphertext := (DecodeString cryptoText).1 in
  (NewCipher key = None -> Decrypt key cryptoText = []) /\
  ((length ciphertext < BlockSize)%nat -> Decrypt key cryptoText = []) /\
  (is_Some (NewCipher key) -> (BlockSize <= length ciphertext)%nat ->
   length (Decrypt key cryptoText) = (length ciphertext - BlockSize)%nat).
Proof.
  cbv zeta. unfold Decrypt.
  destruct (DecodeString cryptoText) as [ciphertext err]. cbn [fst].
  split; [|split].
  - by intros ->.
  - intros Hshort. destruct (NewCipher key); [|done].
    by destruct (Nat.ltb_spec (length ciphertext) BlockSize); [|lia].
  - intros [block ->] Hlong.
    destruct (Nat.ltb_spec (length ciphertext) BlockSize); [lia|].
    unfold NewCFB. by rewrite length_XORKeyStream, length_drop.
Qed.

Lemma Encrypt_layout_witness :
  Encrypt sampleReader [1; 2; 3] [52; 50] = [] /\
  exists body : list byte,
    DecodeString (Encrypt sampleReader sampleKey [52; 50])
    = (take BlockSize sampleReader ++ body, None) /\
    length body = 2%nat.
Proof.
  destruct (Encrypt_layout sampleReader [1; 2; 3] [52; 50]) as (Hbad & _).
  destruct (Encrypt_layout sampleReader sampleKey [52; 50])
    as (_ & _ & Hok).
  split; [apply Hbad; reflexivity|].
  destruct Hok as (body & _ & Hdec & Hlen).
  - eexists; reflexivity.
  - vm_compute. lia.
  - repeat constructor; unfold isByte; lia.
  - repeat constructor; unfold isByte; lia.
  - exists body. split; [exact Hdec|exact Hlen].
Defined.

Lemma Decrypt_length_witness :
  Decrypt sampleKey (bytesOfString "AAAA") = [] /\
  length (Decrypt sampleKey (Encrypt sampleReader sampleKey [52; 50]))
  = 2%nat.
Proof.
  destruct (Decrypt_length sampleKey (bytesOfString "AAAA")) as (_ & Hshort & _).
  destruct (Decrypt_length sampleKey (Encrypt sampleReader sampleKey [52; 50]))
    as (_ & _ & Hlen).
  split; [apply Hshort; vm_compute; lia|].
  rewrite Hlen; [reflexivity|eexists; reflexivity|vm_compute; lia].
Defined.

(** ** The theorems on the generator and on the local store, applied *)

Lemma Shuffle_Permutation_witness :
  exists out : list Z,
    (Shuffle [10; 20; 30; 40] (sampleWorld 0 ∅)).1 = Ok out /\
    out ≡ₚ [10; 20; 30; 40].
Proof.
  destruct (Shuffle_Permutation [10; 20; 30; 40] (sampleWorld 0 ∅))
    as (out & g & Hrun & Hperm).
  exists out. split; [by rewrite Hrun|exact Hperm].
Defined.


Lemma CreateTransactionSign_store_witness :
  let '(res, w') :=
    CreateTransactionSign 10 sampleConstants sampleRegistry sampleChainConfig
      sampleManager (sampleBlock 805) 7%N (sampleWorld 0 ∅) in
  chainDb w' !! "nonce"%string = None.
Proof.
  pose proof (CreateTransactionSign_store 10 sampleConstants sampleRegistry
                sampleChainConfig sampleManager (sampleBlock 805) 7%N
                (sampleWorld 0 ∅)) as Hthm.
  destruct (CreateTransactionSign 10 sampleConstants sampleRegistry
              sampleChainConfig sampleManager (sampleBlock 805) 7%N
              (sampleWorld 0 ∅)) as [res w'].
  destruct Hthm as (evs & _ & Hframe & _).
  by rewrite (Hframe "nonce"%string).
Defined.

Example CreateTransactionSign_run_reveal :
  let '(res, w) :=
    CreateTransactionSign 10 sampleConstants sampleRegistry sampleChainConfig
      sampleManager (sampleBlock 860) 7%N
      (sampleWorld 0 {[randomizeKeyName := replicate 32 97]}) in
  res = Ok tt /\
  chainDb w !! randomizeKeyName = None /\
  (fst <$> addLocals OpeningKind (calls w))
  = [mkTransaction 6 144%N 0 200000 0
       ([215; 9; 146; 33] ++ replicate 32 97) (Some 7%N)].
Proof. vm_compute. repeat split. Qed.
